(** * A shallow embedding of the grep utility (grep.py, phase3.py)

    The program is a line-oriented regular-expression search over files and
    directory trees.  This development embeds the search core of [grep.py]
    (text classification, the per-file scanner, the run loop of [main] and
    the first-match highlighter) and the scanner, the walker and [main] of
    [phase3.py], and proves the laws the specification states about them,
    and further properties of whole runs.

    Conventions.
    - A Python [str] is a [string]; [int] counters are [nat] (they start at 0
      and are only ever incremented).
    - Python's [re] library is not part of the program: the program is
      embedded over an interface [ReLib] (compile / search), and module [Re]
      gives a concrete backtracking engine for a fragment of the dialect.
    - Effects (the statistics object, stdout, stderr, the log, and every file
      system access) are threaded through a state record [Run]; what the file
      system answers while a run lasts is an environment [Env].
    - A [Path] of pathlib is the string [str] gives for it, on POSIX; the
      text layer of [open] is the translation of line endings it performs.
    - An exception that cuts the [try] block of [main] short comes from
      outside the program: [main_around] takes the block as a parameter,
      and [main] is the run in which the block runs to its end.
    - [Stats.elapsed_s] is a wall-clock float and is left out. *)

From Stdlib Require Import List Arith Bool Lia PeanoNat.
From Stdlib Require Import Strings.Ascii Strings.String Strings.Byte.
From Stdlib Require Import DecimalString.
From Stdlib Require Import Sorting.Sorted Sorting.Permutation.
Import ListNotations.
Open Scope string_scope.
Open Scope nat_scope.

Set Implicit Arguments.

(* ================================================================= *)
(** ** Python strings *)

Module PyStr.

(** [str(n)] for a non-negative [int]. *)
Definition str_of_nat (n : nat) : string :=
  NilZero.string_of_uint (Nat.to_uint n).

(** [s[:n]] *)
Fixpoint take (n : nat) (s : string) : string :=
  match n, s with
  | S n', String c s' => String c (take n' s')
  | _, _ => EmptyString
  end.

(** [s[n:]] *)
Fixpoint drop (n : nat) (s : string) : string :=
  match n, s with
  | S n', String _ s' => drop n' s'
  | _, _ => s
  end.

(** [s[a:b]] for non-negative indices: empty when [b <= a], clamped to the
    length of [s]. *)
Definition slice (a b : nat) (s : string) : string :=
  take (b - a) (drop a s).

(** The string made of [k] line feeds. *)
Fixpoint newlines (k : nat) : string :=
  match k with
  | 0 => EmptyString
  | S k' => String "010"%char (newlines k')
  end.

Definition is_lf (c : ascii) : bool := Ascii.eqb c "010"%char.

(** [s.rstrip("\n")]: drop every trailing line feed, nothing else. *)
Fixpoint rstrip_nl (s : string) : string :=
  match s with
  | EmptyString => EmptyString
  | String c s' =>
      match rstrip_nl s' with
      | EmptyString => if is_lf c then EmptyString else String c EmptyString
      | r => String c r
      end
  end.

(** Last character of a string, if any. *)
Fixpoint last_char (s : string) : option ascii :=
  match s with
  | EmptyString => None
  | String c EmptyString => Some c
  | String _ s' => last_char s'
  end.

(** Cut [len] characters out of [s] at offset [pos]. *)
Definition erase (pos len : nat) (s : string) : string :=
  take pos s ++ drop (pos + len) s.

End PyStr.
Import PyStr.

(* ================================================================= *)
(** ** Color helpers (grep.py, lines 19-41) *)

Definition ESC : string := String "027"%char EmptyString.

Definition ANSI_RESET : string := ESC ++ "[0m".
Definition ANSI_DIM : string := ESC ++ "[2m".
Definition ANSI_RED : string := ESC ++ "[31m".
Definition ANSI_YELLOW : string := ESC ++ "[33m".
Definition ANSI_CYAN : string := ESC ++ "[36m".

Definition colorize (s color : string) (enabled : bool) : string :=
  if enabled then color ++ s ++ ANSI_RESET else s.

(* ================================================================= *)
(** ** The interface of the regular-expression library

    [re.compile(text, flags)] either raises [re.error] (with a message) or
    returns a compiled pattern; [rx.search(line)] returns [None] or a match
    object, of which the program only uses [span()].  [ReSpans] is the
    library's guarantee that [0 <= a <= b <= len(line)] for every span. *)

Class ReLib : Type := {
  Pattern : Type;
  re_compile : string -> bool -> string + Pattern;
  re_search : Pattern -> string -> option (nat * nat)
}.

Class ReSpans (RE : ReLib) : Prop :=
  re_span_ok : forall (rx : Pattern) line a b,
      re_search rx line = Some (a, b) -> a <= b <= String.length line.

(* ================================================================= *)
(** ** Stats (grep.py, lines 47-54) *)

Record Stats : Type := mkStats {
  files_seen : nat;
  files_read : nat;
  files_skipped_binary : nat;
  lines_seen : nat;
  lines_reported : nat
}.

Definition Stats0 : Stats := mkStats 0 0 0 0 0.

Definition incr_files_seen (s : Stats) : Stats :=
  mkStats (S (files_seen s)) (files_read s) (files_skipped_binary s)
          (lines_seen s) (lines_reported s).
Definition incr_files_read (s : Stats) : Stats :=
  mkStats (files_seen s) (S (files_read s)) (files_skipped_binary s)
          (lines_seen s) (lines_reported s).
Definition incr_files_skipped_binary (s : Stats) : Stats :=
  mkStats (files_seen s) (files_read s) (S (files_skipped_binary s))
          (lines_seen s) (lines_reported s).
Definition incr_lines_seen (s : Stats) : Stats :=
  mkStats (files_seen s) (files_read s) (files_skipped_binary s)
          (S (lines_seen s)) (lines_reported s).
Definition incr_lines_reported (s : Stats) : Stats :=
  mkStats (files_seen s) (files_read s) (files_skipped_binary s)
          (lines_seen s) (S (lines_reported s)).

(* ================================================================= *)
(** ** The environment: what the file system answers

    A file is described by what the two ways of opening it do.  They are
    independent, because the file may change between the classifier's read
    and the scanner's read. *)

Definition path := string.

(** [s.split("/")] *)
Fixpoint split_slash (s : string) : list string :=
  match s with
  | EmptyString => [EmptyString]
  | String c s' =>
      if Ascii.eqb c "/" then EmptyString :: split_slash s'
      else
        match split_slash s' with
        | [] => [String c EmptyString]
        | x :: xs => String c x :: xs
        end
  end.

(** The root pathlib finds in front of a POSIX path: exactly two leading
    slashes are kept, one or three and more make one. *)
Definition path_root (s : string) : string :=
  match s with
  | String "/" (String "/" (String "/" _)) => "/"
  | String "/" (String "/" _) => "//"
  | String "/" _ => "/"
  | _ => ""
  end.

(** The components pathlib keeps: not the empty ones, not [.]. *)
Definition kept_part (x : string) : bool :=
  negb (String.eqb x "") && negb (String.eqb x ".").

Definition path_parts (s : string) : list string :=
  filter kept_part (split_slash s).

(** [Path(s)], as the string [str] gives for it: the root, the components
    joined by single slashes, and [.] when there is neither. *)
Definition Path (s : string) : path :=
  match path_root s, path_parts s with
  | EmptyString, [] => "."
  | root, parts => root ++ String.concat "/" parts
  end.

(** [str(ex)] of an [OSError]. *)
Definition OSError := string.

(** What [path.open("rb")] followed by [f.read(n)] does. *)
Inductive BinView : Type :=
| BinOpenError (ex : OSError)
| BinReadError (ex : OSError)
| BinContent (content : list byte).

(** What [open(path, "r", encoding="utf-8", errors="replace")] and the
    iteration over the file object do: the open raises, or the iteration
    yields the lines [raws] (each with its line terminator, as the file
    object delivers it) and then stops, normally ([None]) or by raising an
    [OSError]. *)
Inductive TextView : Type :=
| TextOpenError (ex : OSError)
| TextLines (raws : list string) (fail : option OSError).

Record FileEnv : Type := mkFile {
  as_binary : BinView;
  as_text : TextView
}.

(** *** The text layer

    Both scanners open the file with [open(path, "r", encoding="utf-8",
    errors="replace")] and name no [newline]: the file object works with
    universal newlines.  It turns the line endings CR LF and CR into LF, and
    the iteration yields the translated text cut after each LF; the last
    line is the only one that may lack its LF. *)

Definition is_cr (c : ascii) : bool := Ascii.eqb c "013"%char.

(** The translation of the line endings. *)
Fixpoint universal_newlines (s : string) : string :=
  match s with
  | EmptyString => EmptyString
  | String c s' =>
      if is_cr c then
        String "010"%char
               match s' with
               | EmptyString => EmptyString
               | String d s'' =>
                   if is_lf d then universal_newlines s'' else universal_newlines s'
               end
      else String c (universal_newlines s')
  end.

(** The lines of a text, each with the LF that ends it. *)
Fixpoint cut_lines (s : string) : list string :=
  match s with
  | EmptyString => []
  | String c s' =>
      if is_lf c then String c EmptyString :: cut_lines s'
      else
        match cut_lines s' with
        | [] => [String c EmptyString]
        | l :: ls => String c l :: ls
        end
  end.

(** The lines the iteration over the file object yields, for a file whose
    decoded text is [content]. *)
Definition text_lines (content : string) : list string :=
  cut_lines (universal_newlines content).

(** A file that opens and is read to its end. *)
Definition open_text (content : string) : TextView :=
  TextLines (text_lines content) None.

(** A readable file whose bytes are the ASCII text [content], which the
    decoder leaves as it is. *)
Definition text_file (content : string) : FileEnv :=
  mkFile (BinContent (list_byte_of_string content)) (open_text content).

#[warnings="-register-all"] Inductive Node : Type :=
| File (f : FileEnv)
| Dir (entries : list (string * Node))
| Special.  (* exists, but is neither a regular file nor a directory *)

(** What the path of an entry of the directory [p] has in front of the
    name of the entry: nothing when [p] is the current directory [.], [p]
    itself when [p] is a root, and [p] with a slash otherwise. *)
Definition dir_prefix (p : path) : string :=
  if String.eqb p "." then ""
  else
    match last_char p with
    | Some "/"%char => p
    | _ => p ++ "/"
    end.

(** [p / name], for a name of one component. *)
Definition joinpath (p : path) (name : string) : path := dir_prefix p ++ name.

(** [p.glob("*")]: the entries of the directory itself. *)
Definition glob_star (p : path) (entries : list (string * Node))
  : list (path * Node) :=
  map (fun e => (joinpath p (fst e), snd e)) entries.

(** [p.rglob("*")]: every path below the directory, at any depth, in the
    order in which pathlib (CPython 3.11) produces them: the directories
    are taken from the top down, and each gives all its entries before any
    of its subdirectories is entered. *)
Fixpoint rglob_node (p : path) (n : Node) : list (path * Node) :=
  match n with
  | Dir entries =>
      map (fun e => (joinpath p (fst e), snd e)) entries
      ++ flat_map (fun e => rglob_node (joinpath p (fst e)) (snd e)) entries
  | _ => []
  end.

Definition rglob_star (p : path) (entries : list (string * Node))
  : list (path * Node) := rglob_node p (Dir entries).

(** What creating the log directory and opening the log file do. *)
Inductive LogSetup : Type :=
| LogsReady
| MkdirFails (ex : OSError)
| OpenLogFails (ex : OSError).

(** An environment describes one run: the command line, the clock, and
    what the file system answers while the run lasts.  [main] creates the
    log directory and writes its log file under the working directory before
    it walks the inputs: when an input covers that directory, [env_fs] holds
    the log directory and the log file of the run as well, the file with the
    text it has when the scanner reads it.  So two runs of [main] do not
    have that part of their environments in common. *)
Record Env : Type := mkEnv {
  env_fs : path -> option Node;    (* None: the path does not exist *)
  env_cwd : path;                  (* Path.cwd() *)
  env_now : string;                (* datetime.now().strftime(...) *)
  env_argv : list string;          (* sys.argv *)
  env_stdout_isatty : bool;        (* sys.stdout.isatty() *)
  env_logs : LogSetup
}.

(* ================================================================= *)
(** ** The observable state of a run *)

(** A line written to standard output by [print]. *)
Inductive OutLine : Type :=
| ResultLine (filepath : path) (lineno : nat) (shown : string) (color_enabled : bool)
| CountLine (filepath : path) (match_count : nat) (color_enabled : bool).

(** The text of an output line, as the f-strings of [grep_file] build it
    (lines 166-168 and 172-173). *)
Definition render (o : OutLine) : string :=
  match o with
  | ResultLine filepath lineno shown color_enabled =>
      colorize (filepath ++ ":" ++ str_of_nat lineno ++ ":") ANSI_DIM color_enabled
      ++ shown
  | CountLine filepath match_count color_enabled =>
      colorize (filepath ++ ":") ANSI_DIM color_enabled ++ str_of_nat match_count
  end.

Inductive ColorMode : Type := ColorAuto | ColorAlways | ColorNever.

Inductive Level : Type := DEBUG | INFO | WARNING | ERROR.

Definition level_rank (l : Level) : nat :=
  match l with DEBUG => 10 | INFO => 20 | WARNING => 30 | ERROR => 40 end.

(** The messages the program logs. *)
Inductive LogMsg : Type :=
| LogStarted (log_path : path)
| LogCwd (cwd : path)
| LogArgs (argv : list string)
| LogOptions (recursive ignore_case invert count : bool) (color : ColorMode)
             (debug : bool)
| LogSkipBinary (filepath : path)
| LogCannotRead (filepath : path) (ex : OSError)
| LogInvalidRegex (ex : string)
| LogPathNotFound (p : path)
| LogInterrupted
| LogPerformance (st : Stats).

Definition str_of_bool (b : bool) : string := if b then "True" else "False".

Definition str_of_color (c : ColorMode) : string :=
  match c with
  | ColorAuto => "auto" | ColorAlways => "always" | ColorNever => "never"
  end.

(** The message text, as the format strings of the program build it. *)
Definition msg_text (m : LogMsg) : string :=
  match m with
  | LogStarted log_path => "Log started: " ++ log_path
  | LogCwd cwd => "CWD: " ++ cwd
  | LogArgs argv => "Args: " ++ String.concat " " argv
  | LogOptions r i v c color d =>
      "Options: recursive=" ++ str_of_bool r ++ " ignore_case=" ++ str_of_bool i
      ++ " invert=" ++ str_of_bool v ++ " count=" ++ str_of_bool c
      ++ " color=" ++ str_of_color color ++ " debug=" ++ str_of_bool d
  | LogSkipBinary filepath => "Skipping binary file: " ++ filepath
  | LogCannotRead filepath ex => "Cannot read '" ++ filepath ++ "': " ++ ex
  | LogInvalidRegex ex => "Invalid regex: " ++ ex
  | LogPathNotFound p => "Path not found: " ++ p
  | LogInterrupted => "Interrupted by user (Ctrl+C)."
  | LogPerformance st =>
      "Performance: files_seen=" ++ str_of_nat (files_seen st)
      ++ " files_read=" ++ str_of_nat (files_read st)
      ++ " skipped_binary=" ++ str_of_nat (files_skipped_binary st)
      ++ " lines_seen=" ++ str_of_nat (lines_seen st)
      ++ " lines_reported=" ++ str_of_nat (lines_reported st)
  end.

(** A line on standard error: a record of the console log handler, or a
    [print(..., file=sys.stderr)]. *)
Inductive ErrLine : Type :=
| ErrLog (lvl : Level) (m : LogMsg)
| ErrPrint (text : string).

(** File system accesses, in the order they are made. *)
Inductive FsEvent : Type :=
| EvMkdir (p : path)
| EvOpenLog (p : path)
| EvStat (p : path)                      (* exists() / is_file() / is_dir() *)
| EvListDir (p : path) (recursive : bool) (* glob("*") / rglob("*") *)
| EvOpenBinary (p : path) (ok : bool)    (* open("rb") *)
| EvReadBinary (p : path) (ok : bool)    (* f.read(sample_size) *)
| EvOpenText (p : path) (ok : bool)      (* open("r") *)
| EvReadTextFail (p : path).             (* OSError while iterating lines *)

Record Run : Type := mkRun {
  stats : Stats;
  stdout : list OutLine;
  stderr : list ErrLine;
  logfile : list (Level * LogMsg);
  trace : list FsEvent
}.

Definition Run0 : Run := mkRun Stats0 [] [] [] [].

(* ================================================================= *)
(** ** A small state monad over [Run] *)

Definition M (A : Type) : Type := Run -> A * Run.

Definition ret {A} (a : A) : M A := fun r => (a, r).
Definition bind {A B} (m : M A) (k : A -> M B) : M B :=
  fun r => let (a, r') := m r in k a r'.

Declare Scope run_scope.
Delimit Scope run_scope with run.
Notation "x <- m ;; k" := (bind m (fun x => k))
  (at level 61, m at next level, right associativity) : run_scope.
Notation "m ;; k" := (bind m (fun _ => k))
  (at level 61, right associativity) : run_scope.
Open Scope run_scope.

Definition upd_stats (f : Stats -> Stats) : M unit :=
  fun r => (tt, mkRun (f (stats r)) (stdout r) (stderr r) (logfile r) (trace r)).
Definition get_stats : M Stats := fun r => (stats r, r).
Definition print (o : OutLine) : M unit :=
  fun r => (tt, mkRun (stats r) (stdout r ++ [o]) (stderr r) (logfile r) (trace r)).
Definition eprint (e : ErrLine) : M unit :=
  fun r => (tt, mkRun (stats r) (stdout r) (stderr r ++ [e]) (logfile r) (trace r)).
Definition write_log (l : Level) (m : LogMsg) : M unit :=
  fun r => (tt, mkRun (stats r) (stdout r) (stderr r) (logfile r ++ [(l, m)]) (trace r)).
Definition event (e : FsEvent) : M unit :=
  fun r => (tt, mkRun (stats r) (stdout r) (stderr r) (logfile r) (trace r ++ [e])).

Fixpoint for_each {A} (l : list A) (body : A -> M unit) : M unit :=
  match l with
  | [] => ret tt
  | x :: l' => body x ;; for_each l' body
  end.

(* ================================================================= *)
(** ** Logging (grep.py, lines 87-123)

    The logger of [setup_logging] has two handlers: the log file, at level
    DEBUG or INFO depending on [--debug], and the console (stderr), at level
    WARNING. *)

Record Logger : Type := mkLogger { lg_debug : bool }.

Definition logger_level (lg : Logger) : Level :=
  if lg_debug lg then DEBUG else INFO.

Definition log (lg : Logger) (l : Level) (m : LogMsg) : M unit :=
  (if Nat.leb (level_rank (logger_level lg)) (level_rank l) then write_log l m else ret tt) ;;
  (if Nat.leb (level_rank WARNING) (level_rank l) then eprint (ErrLog l m) else ret tt).

(* ================================================================= *)
(** ** A model of the library: a backtracking engine for a fragment of the
    dialect

    The fragment: literal characters, [.], [^], [$], grouping, [|], and the
    greedy quantifiers [*], [+], [?]; the flag IGNORECASE (on ASCII letters).
    The engine tries the start positions from left to right and, at each,
    the alternatives in the order a backtracking matcher explores them. *)

Module Re.

Inductive regex : Type :=
| Eps
| Chr (c : ascii)
| Any                       (* [.]: any character but a line feed *)
| Bol                       (* [^] *)
| Eol                       (* [$] *)
| Cat (r1 r2 : regex)
| Alt (r1 r2 : regex)
| Star (r : regex).

Record compiled : Type := mkCompiled {
  rx_ast : regex;
  rx_ignore_case : bool
}.

Definition lower (c : ascii) : ascii :=
  let n := nat_of_ascii c in
  if (65 <=? n)%nat && (n <=? 90)%nat then ascii_of_nat (n + 32) else c.

Definition chr_eq (ic : bool) (c d : ascii) : bool :=
  if ic then Ascii.eqb (lower c) (lower d) else Ascii.eqb c d.

(** [$] holds at the end of the string and just before a line feed that
    ends the string. *)
Definition at_end (s : string) (p : nat) : bool :=
  (p =? String.length s)%nat
  || ((S p =? String.length s)%nat
      && match String.get p s with Some d => is_lf d | None => false end).

(** The positions at which a match of [Star] may end, given those of its
    body: one more iteration first (greedy), then none.  An iteration that
    does not advance is not repeated, so [fuel], the number of characters
    left, bounds the depth. *)
Fixpoint star_ends (step : nat -> list nat) (fuel p : nat) : list nat :=
  match fuel with
  | 0 => [p]
  | S fuel' =>
      flat_map (fun q => if (p <? q)%nat then star_ends step fuel' q else [])
               (step p)
      ++ [p]
  end.

(** [ends ic s r p]: where a match of [r] that starts at position [p] of [s]
    may end, in the order backtracking finds them. *)
Fixpoint ends (ic : bool) (s : string) (r : regex) (p : nat) : list nat :=
  match r with
  | Eps => [p]
  | Chr c =>
      match String.get p s with
      | Some d => if chr_eq ic c d then [S p] else []
      | None => []
      end
  | Any =>
      match String.get p s with
      | Some d => if is_lf d then [] else [S p]
      | None => []
      end
  | Bol => if (p =? 0)%nat then [p] else []
  | Eol => if at_end s p then [p] else []
  | Cat r1 r2 => flat_map (ends ic s r2) (ends ic s r1 p)
  | Alt r1 r2 => ends ic s r1 p ++ ends ic s r2 p
  | Star r1 => star_ends (ends ic s r1) (String.length s - p) p
  end.

(** Try the start positions [start], [start + 1], ..., [start + n]. *)
Fixpoint search_from (ic : bool) (s : string) (r : regex) (n start : nat)
  : option (nat * nat) :=
  match ends ic s r start with
  | q :: _ => Some (start, q)
  | [] =>
      match n with
      | 0 => None
      | S n' => search_from ic s r n' (S start)
      end
  end.

(** [rx.search(s)], reduced to the span of the match. *)
Definition search (rx : compiled) (s : string) : option (nat * nat) :=
  search_from (rx_ignore_case rx) s (rx_ast rx) (String.length s) 0.

(** What it means for [r] to match the characters of [s] from position [p]
    up to position [q]. *)
Inductive matches (ic : bool) (s : string) : regex -> nat -> nat -> Prop :=
| m_eps p : matches ic s Eps p p
| m_chr c d p :
    String.get p s = Some d -> chr_eq ic c d = true ->
    matches ic s (Chr c) p (S p)
| m_any d p :
    String.get p s = Some d -> is_lf d = false -> matches ic s Any p (S p)
| m_bol : matches ic s Bol 0 0
| m_eol p : at_end s p = true -> matches ic s Eol p p
| m_cat r1 r2 p q t :
    matches ic s r1 p q -> matches ic s r2 q t -> matches ic s (Cat r1 r2) p t
| m_alt_l r1 r2 p q : matches ic s r1 p q -> matches ic s (Alt r1 r2) p q
| m_alt_r r1 r2 p q : matches ic s r2 p q -> matches ic s (Alt r1 r2) p q
| m_star_nil r p : matches ic s (Star r) p p
| m_star_cons r p q t :
    matches ic s r p q -> matches ic s (Star r) q t -> matches ic s (Star r) p t.

(** *** The parser

    One pass with an explicit stack of open groups.  A frame holds the
    finished alternatives of a group and the items of the alternative being
    read, latest first; an item records whether a quantifier may follow
    it. *)

Record item : Type := mkItem { it_rx : regex; it_repeatable : bool }.

Record frame : Type := mkFrame {
  fr_alts : list regex;
  fr_seq : list item
}.

Definition frame0 : frame := mkFrame [] [].

Definition seq_regex (items : list item) : regex :=
  fold_left (fun acc it => match acc with
                           | Eps => it_rx it
                           | _ => Cat (it_rx it) acc
                           end) items Eps.

Definition frame_regex (f : frame) : regex :=
  fold_left (fun acc r => Alt r acc) (fr_alts f) (seq_regex (fr_seq f)).

Definition push_item (f : frame) (r : regex) (repeatable : bool) : frame :=
  mkFrame (fr_alts f) (mkItem r repeatable :: fr_seq f).

Definition is_punct (c : ascii) : bool :=
  let n := nat_of_ascii c in
  ((33 <=? n) && (n <=? 47) || (58 <=? n) && (n <=? 64)
   || (91 <=? n) && (n <=? 96) || (123 <=? n) && (n <=? 126))%nat.

Definition quantify (q : ascii) (r : regex) : regex :=
  if Ascii.eqb q "*" then Star r
  else if Ascii.eqb q "+" then Cat r (Star r)
  else Alt r Eps.

Definition unsupported (what : string) : string :=
  "unsupported by this model: " ++ what.

Fixpoint parse (s : string) (cur : frame) (stack : list frame)
  : string + regex :=
  match s with
  | EmptyString =>
      match stack with
      | [] => inr (frame_regex cur)
      | _ :: _ => inl "missing ), unterminated subpattern"
      end
  | String c s' =>
      if Ascii.eqb c "(" then
        match s' with
        | String "?" _ => inl (unsupported "extension group")
        | _ => parse s' frame0 (cur :: stack)
        end
      else if Ascii.eqb c ")" then
        match stack with
        | [] => inl "unbalanced parenthesis"
        | outer :: stack' => parse s' (push_item outer (frame_regex cur) true) stack'
        end
      else if Ascii.eqb c "|" then
        parse s' (mkFrame (seq_regex (fr_seq cur) :: fr_alts cur) []) stack
      else if Ascii.eqb c "*" || Ascii.eqb c "+" || Ascii.eqb c "?" then
        match fr_seq cur with
        | [] => inl "nothing to repeat"
        | it :: items =>
            if it_repeatable it then
              parse s' (mkFrame (fr_alts cur)
                                (mkItem (quantify c (it_rx it)) false :: items))
                    stack
            else
              match it_rx it with
              | Bol | Eol => inl "nothing to repeat"
              | _ => inl (unsupported "quantifier after a quantifier")
              end
        end
      else if Ascii.eqb c "." then parse s' (push_item cur Any true) stack
      else if Ascii.eqb c "^" then parse s' (push_item cur Bol false) stack
      else if Ascii.eqb c "$" then parse s' (push_item cur Eol false) stack
      else if Ascii.eqb c "\" then
        match s' with
        | EmptyString => inl "bad escape (end of pattern)"
        | String d s'' =>
            if is_punct d then parse s'' (push_item cur (Chr d) true) stack
            else inl (unsupported "escape sequence")
        end
      else if Ascii.eqb c "[" || Ascii.eqb c "{" then
        inl (unsupported "character set or counted repeat")
      else parse s' (push_item cur (Chr c) true) stack
  end.

(** [re.compile(text, re.IGNORECASE if ignore_case else 0)] *)
Definition compile (text : string) (ignore_case : bool) : string + compiled :=
  match parse text frame0 [] with
  | inl ex => inl ex
  | inr r => inr (mkCompiled r ignore_case)
  end.

#[export] Instance lib : ReLib := {|
  Pattern := compiled;
  re_compile := compile;
  re_search := search
|}.

End Re.

(* ================================================================= *)
(** ** The program *)

Section Grep.
Context {RE : ReLib}.

(** *** Color helpers, continued (grep.py, lines 26-41) *)

Definition supports_color (isatty : bool) : bool := isatty.

Definition highlight_regex_first (line : string) (rx : Pattern) (enabled : bool)
  : string :=
  if negb enabled then line
  else
    match re_search rx line with
    | None => line
    | Some (a, b) =>
        take a line ++ ANSI_YELLOW ++ slice a b line ++ ANSI_RESET ++ drop b line
    end.

(** *** File heuristics (grep.py, lines 60-66) *)

Definition NUL : byte := x00.

(** [b"\x00" not in chunk] *)
Definition no_nul (chunk : list byte) : bool :=
  negb (existsb (Byte.eqb NUL) chunk).

Definition is_probably_text_file (p : path) (f : FileEnv) (sample_size : nat)
  : M bool :=
  match as_binary f with
  | BinOpenError _ =>
      event (EvOpenBinary p false) ;; ret false
  | BinReadError _ =>
      event (EvOpenBinary p true) ;; event (EvReadBinary p false) ;; ret false
  | BinContent content =>
      event (EvOpenBinary p true) ;; event (EvReadBinary p true) ;;
      ret (no_nul (firstn sample_size content))
  end.

Definition default_sample_size : nat := 4096.

(** *** Grep core (grep.py, lines 129-177) *)

Section Scan.
Variables (filepath : path) (rx : Pattern).
Variables (invert count_only color_enabled : bool).
Variable (logger : Logger).

(** Lines 154-155. *)
Definition matched (line : string) : bool :=
  match re_search rx line with Some _ => true | None => false end.

Definition line_ok (line : string) : bool :=
  if invert then negb (matched line) else matched line.

(** Lines 161-164. *)
Definition shown_of (line : string) : string :=
  if color_enabled && negb invert
  then highlight_regex_first line rx true
  else line.

(** The body of the [for] loop of lines 150-169, over the lines the file
    object yields; [lineno] is the number of the first of them and
    [match_count] the local counter, whose final value is returned. *)
Fixpoint scan_lines (raws : list string) (lineno match_count : nat) : M nat :=
  match raws with
  | [] => ret match_count
  | raw :: rest =>
      upd_stats incr_lines_seen ;;
      let line := rstrip_nl raw in
      if line_ok line then
        if count_only then
          scan_lines rest (S lineno) (S match_count)
        else
          print (ResultLine filepath lineno (shown_of line) color_enabled) ;;
          upd_stats incr_lines_reported ;;
          scan_lines rest (S lineno) match_count
      else
        scan_lines rest (S lineno) match_count
  end.

Definition grep_file (fenv : FileEnv) : M unit :=
  upd_stats incr_files_seen ;;
  is_text <- is_probably_text_file filepath fenv default_sample_size ;;
  if negb is_text then
    upd_stats incr_files_skipped_binary ;;
    log logger DEBUG (LogSkipBinary filepath)
  else
    match as_text fenv with
    | TextOpenError ex =>
        event (EvOpenText filepath false) ;;
        log logger ERROR (LogCannotRead filepath ex)
    | TextLines raws fail =>
        event (EvOpenText filepath true) ;;
        upd_stats incr_files_read ;;
        match_count <- scan_lines raws 1 0 ;;
        match fail with
        | Some ex =>
            event (EvReadTextFail filepath) ;;
            log logger ERROR (LogCannotRead filepath ex)
        | None =>
            if count_only then
              print (CountLine filepath match_count color_enabled) ;;
              upd_stats incr_lines_reported
            else ret tt
        end
    end.

End Scan.

(** *** File iteration (grep.py, lines 69-81), fused with the loop of [main]
    that consumes it (lines 246-255): the generator is lazy, so each
    [is_file] test and each scan happen in this order. *)

Section Walk.
Variable env : Env.
Variable scan : path -> FileEnv -> M unit.

Definition visit_entry (e : path * Node) : M unit :=
  event (EvStat (fst e)) ;;
  match snd e with
  | File f => scan (fst e) f
  | _ => ret tt
  end.

Definition visit_input (recursive : bool) (p : path) : M unit :=
  event (EvStat p) ;;
  match env_fs env p with
  | Some (File f) => scan p f
  | Some (Dir entries) =>
      event (EvStat p) ;;
      event (EvListDir p recursive) ;;
      for_each (if recursive then rglob_star p entries else glob_star p entries)
               visit_entry
  | Some Special => event (EvStat p)
  | None => event (EvStat p)
  end.

Definition scan_inputs (inputs : list path) (recursive : bool) : M unit :=
  for_each inputs (visit_input recursive).

End Walk.

(** *** Logging set-up (grep.py, lines 87-123) *)

Definition log_path_of (env : Env) : path :=
  joinpath (joinpath (env_cwd env) "logs") ("log_" ++ env_now env ++ ".txt").

(** [setup_logging]: [inl ex] when creating the directory or opening the
    log file raises. *)
Definition setup_logging (env : Env) (debug : bool) : M (OSError + Logger * path) :=
  let logs_dir := joinpath (env_cwd env) "logs" in
  let log_path := log_path_of env in
  let logger := mkLogger debug in
  match env_logs env with
  | MkdirFails ex => event (EvMkdir logs_dir) ;; ret (inl ex)
  | OpenLogFails ex =>
      event (EvMkdir logs_dir) ;; event (EvOpenLog log_path) ;; ret (inl ex)
  | LogsReady =>
      event (EvMkdir logs_dir) ;; event (EvOpenLog log_path) ;;
      log logger INFO (LogStarted log_path) ;;
      log logger INFO (LogCwd (env_cwd env)) ;;
      ret (inr (logger, log_path))
  end.

(** *** CLI (grep.py, lines 183-281) *)

(** The namespace [parse_args] returns; [inputs] is non-empty
    ([nargs="+"]). *)
Record Args : Type := mkArgs {
  a_regex : string;
  a_inputs : list string;
  a_recursive : bool;
  a_ignore_case : bool;
  a_invert : bool;
  a_count : bool;
  a_color : ColorMode;
  a_debug : bool
}.

(** How [main] ends: it returns an exit status, or an exception it does not
    catch propagates. *)
Inductive Outcome : Type :=
| Exit (code : nat)
| Uncaught (ex : OSError).

(** [[p for p in inputs if not p.exists()]] *)
Fixpoint missing_inputs (env : Env) (inputs : list path) : M (list path) :=
  match inputs with
  | [] => ret []
  | p :: rest =>
      event (EvStat p) ;;
      ms <- missing_inputs env rest ;;
      ret (match env_fs env p with None => p :: ms | Some _ => ms end)
  end.

(** The [try] block of lines 229-257. *)
Definition main_try (env : Env) (args : Args) (color_enabled : bool)
           (logger : Logger) : M nat :=
  match re_compile (a_regex args) (a_ignore_case args) with
  | inl ex =>
      log logger ERROR (LogInvalidRegex ex) ;;
      eprint (ErrPrint (colorize ("Invalid regex: " ++ ex) ANSI_RED color_enabled)) ;;
      ret 2
  | inr rx =>
      let inputs := map Path (a_inputs args) in
      missing <- missing_inputs env inputs ;;
      match missing with
      | _ :: _ =>
          for_each missing (fun m => log logger ERROR (LogPathNotFound m)) ;;
          eprint (ErrPrint (colorize ("Error: " ++ str_of_nat (List.length missing)
                                      ++ " input path(s) not found.")
                                     ANSI_RED color_enabled)) ;;
          ret 2
      | [] =>
          scan_inputs env
            (fun fp f => grep_file fp rx (a_invert args) (a_count args)
                                   color_enabled logger f)
            inputs (a_recursive args) ;;
          ret 0
      end
  end.

(** How the [try] block of [main] (lines 229-257) ends: it returns an exit
    status, or an exception leaves it.  That is the [KeyboardInterrupt] the
    interpreter raises at Ctrl+C, or an exception that nothing on its way
    catches, such as an encoding error raised by [print] or an [OSError]
    raised by [exists], [is_file] or [is_dir]. *)
Inductive TryEnd : Type :=
| Returned (code : nat)
| KeyboardInterrupt
| Raised (ex : string).

(** [main], after [parse_args], around its [try] block: lines 207-227, the
    block, the [except KeyboardInterrupt] clause (lines 259-262) and the
    [finally] clause (lines 264-280).  Whether and where an exception cuts
    the block short is not decided by the program: the block, with the way
    it ends, is a parameter, given the color mode and the logger. *)
Definition main_around (env : Env) (args : Args)
           (try_block : bool -> Logger -> M TryEnd) : M Outcome :=
  r <- setup_logging env (a_debug args) ;;
  match r with
  | inl ex => ret (Uncaught ex)
  | inr (logger, log_path) =>
      let color_enabled :=
        match a_color args with
        | ColorAlways => true
        | ColorNever => false
        | ColorAuto => supports_color (env_stdout_isatty env)
        end in
      log logger INFO (LogArgs (env_argv env)) ;;
      log logger INFO (LogOptions (a_recursive args) (a_ignore_case args)
                                  (a_invert args) (a_count args) (a_color args)
                                  (a_debug args)) ;;
      upd_stats (fun _ => Stats0) ;;
      e <- try_block color_enabled logger ;;
      outcome <-
        match e with
        | Returned code => ret (Exit code)
        | KeyboardInterrupt =>
            log logger WARNING LogInterrupted ;;
            eprint (ErrPrint (colorize "Interrupted." ANSI_RED color_enabled)) ;;
            ret (Exit 130)
        | Raised ex => ret (Uncaught ex)
        end ;;
      (* finally *)
      st <- get_stats ;;
      log logger INFO (LogPerformance st) ;;
      eprint (ErrPrint (colorize ("Log written to: " ++ log_path) ANSI_CYAN
                                 color_enabled)) ;;
      ret outcome
  end.

(** [main] when no exception cuts its [try] block short: the block is
    [main_try], which runs to one of its [return] statements. *)
Definition main (env : Env) (args : Args) : M Outcome :=
  main_around env args
    (fun color_enabled logger =>
       code <- main_try env args color_enabled logger ;; ret (Returned code)).

(** *** The scanner of phase3.py (lines 44-63)

    No statistics, no logger, no colors: failures go to stderr through
    [eprint], and the count line is printed after the [try]. *)

Section Phase3.
Variables (rx : Pattern) (filepath : path) (invert do_count : bool).

(** Lines 50-51. *)
Definition p3_ok (text : string) : bool :=
  let matched := match re_search rx text with Some _ => true | None => false end in
  if invert then negb matched else matched.

(** The [for] loop of lines 48-57. *)
Fixpoint process_lines (raws : list string) (lineno count : nat) : M nat :=
  match raws with
  | [] => ret count
  | raw :: rest =>
      let text := rstrip_nl raw in
      if p3_ok text then
        if do_count then process_lines rest (S lineno) (S count)
        else
          print (ResultLine filepath lineno text false) ;;
          process_lines rest (S lineno) count
      else process_lines rest (S lineno) count
  end.

Definition process_file (fenv : FileEnv) : M unit :=
  match as_text fenv with
  | TextOpenError ex =>
      event (EvOpenText filepath false) ;;
      eprint (ErrPrint ("Cannot read '" ++ filepath ++ "': " ++ ex))
  | TextLines raws fail =>
      event (EvOpenText filepath true) ;;
      count <- process_lines raws 1 0 ;;
      match fail with
      | Some ex =>
          event (EvReadTextFail filepath) ;;
          eprint (ErrPrint ("Cannot read '" ++ filepath ++ "': " ++ ex))
      | None =>
          if do_count then print (CountLine filepath count false) else ret tt
      end
  end.

End Phase3.

(** *** phase3.py: usage, the walker and [main] (lines 7-41 and 66-97)

    [is_probably_text_file] of phase3.py (lines 26-32) is, line for line,
    the function of grep.py, applied to a path given as a string; the
    embedding above serves for both. *)

Definition DQ : string := String "034"%char EmptyString.

(** The lines [usage()] writes to standard error (lines 11-23). *)
Definition usage3 : list string :=
  [ "Usage:";
    "  python grep.py <regex> <path> [-ignoreCase] [-not] [-count]";
    "";
    "Options:";
    "  -ignoreCase   Case-insensitive regex";
    "  -not          Invert match (show non-matching lines / count them)";
    "  -count        Print count per file (one line per file)";
    "";
    "Examples:";
    "  python grep.py " ++ DQ ++ "test" ++ DQ ++ " C:\MyFolder -ignoreCase";
    "  python grep.py " ++ DQ ++ "pattern" ++ DQ ++ " folder -ignoreCase -count";
    "  python grep.py " ++ DQ ++ "pattern" ++ DQ ++ " folder -ignoreCase -count -not" ].

(** [c.lower()] for a character below U+0100: the ASCII capitals and the
    capitals of Latin-1 (U+00C0 to U+00DE, but for the multiplication
    sign). *)
Definition lower_char (c : ascii) : ascii :=
  let n := nat_of_ascii c in
  if (65 <=? n) && (n <=? 90) then ascii_of_nat (n + 32)
  else if (192 <=? n) && (n <=? 222) && negb (n =? 215) then ascii_of_nat (n + 32)
  else c.

(** [s.lower()] *)
Fixpoint py_lower (s : string) : string :=
  match s with
  | EmptyString => EmptyString
  | String c s' => String (lower_char c) (py_lower s')
  end.

(** [x in l] for strings. *)
Definition str_in (x : string) (l : list string) : bool :=
  existsb (String.eqb x) l.

(** [os.path.join(a, b)] on POSIX. *)
Definition os_path_join (a b : string) : string :=
  if String.prefix "/" b then b
  else
    match last_char a with
    | None => a ++ b
    | Some c => if Ascii.eqb c "/" then a ++ b else a ++ "/" ++ b
    end.

Definition is_dir_node (n : Node) : bool :=
  match n with Dir _ => true | _ => false end.

(** The paths the loop over [os.walk(top)] of [iter_files] yields (lines
    39-41): in each directory, from the top down, the entries that are not
    directories, and then the same for each subdirectory. *)
Fixpoint walk_node (top : path) (n : Node) : list (path * Node) :=
  match n with
  | Dir entries =>
      map (fun e => (os_path_join top (fst e), snd e))
          (filter (fun e => negb (is_dir_node (snd e))) entries)
      ++ flat_map (fun e => match snd e with
                            | Dir _ => walk_node (os_path_join top (fst e)) (snd e)
                            | _ => []
                            end) entries
  | _ => []
  end.

(** [iter_files(root)] of phase3.py, as the sequence it yields. *)
Definition iter_files3 (env : Env) (root : path) : list (path * Node) :=
  match env_fs env root with
  | Some (File f) => [(root, File f)]
  | Some n => walk_node root n
  | None => []
  end.

(** The body of the loop of [main] (lines 90-95). *)
Definition visit3 (rx : Pattern) (invert do_count : bool) (e : path * Node)
  : M unit :=
  event (EvStat (fst e)) ;;
  match snd e with
  | File f =>
      is_text <- is_probably_text_file (fst e) f default_sample_size ;;
      if negb is_text then ret tt
      else process_file rx (fst e) invert do_count f
  | _ => ret tt
  end.

(** [main] of phase3.py (lines 66-97); the result is the exit status. *)
Definition main3 (env : Env) : M nat :=
  match env_argv env with
  | _ :: pattern :: root :: rest =>
      let opts := map py_lower rest in
      let ignore_case := str_in "-ignorecase" opts in
      let invert := str_in "-not" opts in
      let do_count := str_in "-count" opts in
      match re_compile pattern ignore_case with
      | inl ex =>
          eprint (ErrPrint ("Invalid regex: " ++ ex)) ;;
          ret 2
      | inr rx =>
          event (EvStat root) ;;
          match env_fs env root with
          | None =>
              eprint (ErrPrint ("Path not found: " ++ root)) ;;
              ret 2
          | Some n =>
              event (EvStat root) ;;
              match n with
              | File _ => ret tt
              | _ => event (EvListDir root true)
              end ;;
              for_each (iter_files3 env root) (visit3 rx invert do_count) ;;
              ret 0
          end
      end
  | _ =>
      for_each usage3 (fun line => eprint (ErrPrint line)) ;;
      ret 2
  end.

End Grep.

(* ================================================================= *)
(** ** Observations on a run *)

(** What a computation adds to the run state it starts from. *)
Definition emitted {A} (m : M A) (r : Run) : list OutLine :=
  skipn (List.length (stdout r)) (stdout (snd (m r))).
Definition logged {A} (m : M A) (r : Run) : list (Level * LogMsg) :=
  skipn (List.length (logfile r)) (logfile (snd (m r))).
Definition accessed {A} (m : M A) (r : Run) : list FsEvent :=
  skipn (List.length (trace r)) (trace (snd (m r))).
Definition complained {A} (m : M A) (r : Run) : list ErrLine :=
  skipn (List.length (stderr r)) (stderr (snd (m r))).

(** The line numbers of the result lines on standard output. *)
Fixpoint reported_linenos (out : list OutLine) : list nat :=
  match out with
  | [] => []
  | ResultLine _ lineno _ _ :: out' => lineno :: reported_linenos out'
  | CountLine _ _ _ :: out' => reported_linenos out'
  end.

(** The counts of the count lines on standard output. *)
Fixpoint printed_counts (out : list OutLine) : list nat :=
  match out with
  | [] => []
  | CountLine _ c _ :: out' => c :: printed_counts out'
  | ResultLine _ _ _ _ :: out' => printed_counts out'
  end.

(** The number of per-file I/O errors the run has logged. *)
Fixpoint io_errors (l : list (Level * LogMsg)) : nat :=
  match l with
  | [] => 0
  | (ERROR, LogCannotRead _ _) :: l' => S (io_errors l')
  | _ :: l' => io_errors l'
  end.

(** The number of files that could not be opened for line reading, and of
    files whose reading failed after they had been opened. *)
Fixpoint open_failures (t : list FsEvent) : nat :=
  match t with
  | [] => 0
  | EvOpenText _ false :: t' => S (open_failures t')
  | _ :: t' => open_failures t'
  end.

Fixpoint read_failures (t : list FsEvent) : nat :=
  match t with
  | [] => 0
  | EvReadTextFail _ :: t' => S (read_failures t')
  | _ :: t' => read_failures t'
  end.

(** The verdict of the classifier, as a function of the file alone. *)
Definition classified_text (f : FileEnv) : bool :=
  match as_binary f with
  | BinContent content => no_nul (firstn default_sample_size content)
  | _ => false
  end.

Definition seen (r : Run) : nat := files_seen (stats r).

(** The accesses the classifier makes. *)
Definition binary_events (p : path) (f : FileEnv) : list FsEvent :=
  match as_binary f with
  | BinOpenError _ => [EvOpenBinary p false]
  | BinReadError _ => [EvOpenBinary p true; EvReadBinary p false]
  | BinContent _ => [EvOpenBinary p true; EvReadBinary p true]
  end.

(** [enumerate(l, start)] *)
Fixpoint enumerate {A} (start : nat) (l : list A) : list (nat * A) :=
  match l with
  | [] => []
  | x :: l' => (start, x) :: enumerate (S start) l'
  end.

(** [iter_files] as the sequence of the files it yields, each with what the
    file system answers for it. *)
Definition files_of (l : list (path * Node)) : list (path * FileEnv) :=
  flat_map (fun e => match snd e with File f => [(fst e, f)] | _ => [] end) l.

Definition iter_files (env : Env) (inputs : list path) (recursive : bool)
  : list (path * FileEnv) :=
  flat_map (fun p =>
              match env_fs env p with
              | Some (File f) => [(p, f)]
              | Some (Dir entries) =>
                  files_of (if recursive then rglob_star p entries
                            else glob_star p entries)
              | _ => []
              end) inputs.

(** The closed form of what the line loop does: the numbered lines that pass
    the line test, the output line of each, and the statistics after [seen]
    lines of which [reported] were printed. *)
Definition interesting {RE : ReLib} (rx : Pattern) (invert : bool)
           (start : nat) (raws : list string) : list (nat * string) :=
  filter (fun e => line_ok rx invert (rstrip_nl (snd e))) (enumerate start raws).

Definition result_line {RE : ReLib} (filepath : path) (rx : Pattern)
           (invert color_enabled : bool) (e : nat * string) : OutLine :=
  ResultLine filepath (fst e)
             (shown_of rx invert color_enabled (rstrip_nl (snd e))) color_enabled.

Definition add_lines (seen reported : nat) (s : Stats) : Stats :=
  mkStats (files_seen s) (files_read s) (files_skipped_binary s)
          (seen + lines_seen s) (reported + lines_reported s).

(** A file the scanner reads to its end: it passes the classifier, it opens,
    and the iteration over its lines [raws] ends without an error. *)
Definition read_to_end (f : FileEnv) (raws : list string) : Prop :=
  classified_text f = true /\ as_text f = TextLines raws None.

Definition text_read_to_end (f : FileEnv) : bool :=
  match as_text f with
  | TextLines _ None => true
  | _ => false
  end.

Definition fully_read (f : FileEnv) : bool :=
  classified_text f && text_read_to_end f.

(** The accounting of files: every file seen was read, skipped as binary, or
    failed to open for line reading; and every logged I/O error is such a
    failure to open or a failure while reading. *)
Definition accounted (r : Run) : Prop :=
  files_seen (stats r)
  = files_read (stats r) + files_skipped_binary (stats r) + open_failures (trace r)
  /\ io_errors (logfile r) = open_failures (trace r) + read_failures (trace r).

(** A computation keeps a property of the run state. *)
Definition preserves {A} (I : Run -> Prop) (m : M A) : Prop :=
  forall r, I r -> I (snd (m r)).

Definition LF : string := String "010"%char EmptyString.
Definition CR : string := String "013"%char EmptyString.

(** [c in s] for a character. *)
Fixpoint occurs (c : ascii) (s : string) : bool :=
  match s with
  | EmptyString => false
  | String d s' => Ascii.eqb c d || occurs c s'
  end.

(* ================================================================= *)
(** ** Concrete inputs

    The scenario file of the specification: three lines, the second of
    which contains [error]; and files on which the scanner fails. *)

Definition rx_error : Re.compiled :=
  Re.mkCompiled
    (Re.Cat (Re.Chr "e") (Re.Cat (Re.Chr "r") (Re.Cat (Re.Chr "r")
       (Re.Cat (Re.Chr "o") (Re.Chr "r"))))) false.

Definition scenario_raws : list string :=
  ["ok" ++ LF; "error: boom" ++ LF; "ok" ++ LF].

Definition scenario_bytes : list byte :=
  list_byte_of_string ("ok" ++ LF ++ "error: boom" ++ LF ++ "ok" ++ LF).

Definition scenario_file : FileEnv :=
  mkFile (BinContent scenario_bytes) (TextLines scenario_raws None).

(** The same file, when the permission to read it is revoked between the
    classifier's read and the scanner's open. *)
Definition revoked_file : FileEnv :=
  mkFile (BinContent scenario_bytes) (TextOpenError "[Errno 13] Permission denied").

(** The same file, when reading fails after the first line. *)
Definition failing_file : FileEnv :=
  mkFile (BinContent scenario_bytes)
         (TextLines ["ok" ++ LF] (Some "[Errno 5] Input/output error")).

Definition binary_file : FileEnv :=
  mkFile (BinContent [x00; x01; x02]) (TextLines [] None).

(** A file with one line, [error], that ends in CR LF. *)
Definition crlf_file : FileEnv := text_file ("error" ++ CR ++ LF).

Definition quiet : Logger := mkLogger false.

(** A working directory with the scenario file and a binary file. *)
Definition scenario_env : Env :=
  mkEnv (fun p => if String.eqb p "d"
                  then Some (Dir [("a.txt", File scenario_file);
                                  ("b.bin", File binary_file)])
                  else None)
        "/work" "2024-01-01_00-00-00" ["grep.py"] false LogsReady.

Definition bad_pattern_args : Args :=
  mkArgs "(" ["d"] true false false false ColorNever false.

(* ================================================================= *)
(** ** Further observations, on whole runs *)

(** [color_enabled], as [main] decides it (lines 214-219). *)
Definition color_of (env : Env) (args : Args) : bool :=
  match a_color args with
  | ColorAlways => true
  | ColorNever => false
  | ColorAuto => supports_color (env_stdout_isatty env)
  end.

(** The state of a run of [main] when it enters its [try] block, and the
    state its [finally] clause makes of the state [r] the block ends in. *)
Definition started (env : Env) (args : Args) : Run :=
  mkRun Stats0 [] []
        [(INFO, LogStarted (log_path_of env));
         (INFO, LogCwd (env_cwd env));
         (INFO, LogArgs (env_argv env));
         (INFO, LogOptions (a_recursive args) (a_ignore_case args) (a_invert args)
                           (a_count args) (a_color args) (a_debug args))]
        [EvMkdir (joinpath (env_cwd env) "logs"); EvOpenLog (log_path_of env)].

Definition started_log (env : Env) (args : Args) : list (Level * LogMsg) :=
  logfile (started env args).

Definition finished (env : Env) (args : Args) (r : Run) : Run :=
  mkRun (stats r) (stdout r)
        (stderr r ++ [ErrPrint (colorize ("Log written to: " ++ log_path_of env)
                                         ANSI_CYAN (color_of env args))])
        (logfile r ++ [(INFO, LogPerformance (stats r))])
        (trace r).

(** What the [except KeyboardInterrupt] clause makes of the state [r] in
    which the interruption left the [try] block. *)
Definition interrupted (env : Env) (args : Args) (r : Run) : Run :=
  mkRun (stats r) (stdout r)
        (stderr r ++ [ErrLog WARNING LogInterrupted;
                      ErrPrint (colorize "Interrupted." ANSI_RED (color_of env args))])
        (logfile r ++ [(WARNING, LogInterrupted)])
        (trace r).

(** A [try] block that is interrupted after it has printed one line. *)
Definition interrupted_block (color_enabled : bool) (logger : Logger) : M TryEnd :=
  print (ResultLine "d/a.txt" 2 "error: boom" color_enabled) ;;
  ret KeyboardInterrupt.

(** The inputs as [main] walks them: [[Path(s) for s in args.inputs]]
    (line 238). *)
Definition inputs_of (args : Args) : list path := map Path (a_inputs args).

(** The inputs that do not exist, in the order given. *)
Definition missing_of (env : Env) (inputs : list path) : list path :=
  filter (fun p => match env_fs env p with None => true | Some _ => false end)
         inputs.

(** [reaches top names n]: following the entry names [names] down from the
    node [top] leads to the node [n]. *)
Inductive reaches : Node -> list string -> Node -> Prop :=
| reaches_here n : reaches n [] n
| reaches_step entries name m names n :
    In (name, m) entries -> reaches m names n ->
    reaches (Dir entries) (name :: names) n.

(** [p / name1 / name2 / ...] *)
Definition descend (p : path) (names : list string) : path :=
  fold_left joinpath names p.

(** The number of lines the scanner reads from a file. *)
Definition lines_yielded (f : FileEnv) : nat :=
  if classified_text f then
    match as_text f with
    | TextLines raws _ => List.length raws
    | TextOpenError _ => 0
    end
  else 0.

(** The records of a log that are not at level DEBUG. *)
Definition above_debug (l : list (Level * LogMsg)) : list (Level * LogMsg) :=
  filter (fun e => match fst e with DEBUG => false | _ => true end) l.

(** The files among the paths the walk of phase3.py yields. *)
Definition walk_files (top : path) (n : Node) : list (path * FileEnv) :=
  files_of (walk_node top n).




(** Further concrete inputs: a run over the scenario directory, a run with
    an input that does not exist, and a working directory in which the log
    directory cannot be created. *)
Definition scan_args : Args :=
  mkArgs "error" ["d"] true false false false ColorNever false.

Definition missing_args : Args :=
  mkArgs "error" ["d"; "nowhere"] true false false false ColorNever false.

Definition read_only_env : Env :=
  mkEnv (env_fs scenario_env) "/work" "2024-01-01_00-00-00" ["grep.py"] false
        (MkdirFails "[Errno 13] Permission denied: '/work/logs'").

(** The same environment with another command line. *)
Definition with_argv (env : Env) (argv : list string) : Env :=
  mkEnv (env_fs env) (env_cwd env) (env_now env) argv (env_stdout_isatty env)
        (env_logs env).


(** A path in the form pathlib gives it, other than the current directory
    and the roots: not empty, no trailing slash, no empty component and no
    component [.].  [Path] leaves such a path as it is. *)
Fixpoint normal_from (at_start : bool) (s : string) : bool :=
  match s with
  | EmptyString => negb at_start
  | String c s' =>
      if Ascii.eqb c "/" then negb at_start && normal_from true s'
      else if Ascii.eqb c "." && at_start
              && match s' with
                 | EmptyString => true
                 | String d _ => Ascii.eqb d "/"
                 end
           then false
           else normal_from false s'
  end.

Definition normal_path (s : string) : bool :=
  match s with
  | String "/" s' => normal_from true s'
  | _ => normal_from true s
  end.

(** [%(levelname)s] *)
Definition level_name (l : Level) : string :=
  match l with
  | DEBUG => "DEBUG" | INFO => "INFO" | WARNING => "WARNING" | ERROR => "ERROR"
  end.

(** A record of the log file, as the formatter of [setup_logging] writes it
    (line 106): [%(asctime)s %(levelname)s: %(message)s]. *)
Definition format_record (asctime : string) (rec : Level * LogMsg) : string :=
  asctime ++ " " ++ level_name (fst rec) ++ ": " ++ msg_text (snd rec).

(** The text of a log file that holds [records], all written at the time
    [asctime]. *)
Definition log_content (asctime : string) (records : list (Level * LogMsg))
  : string :=
  String.concat "" (map (fun rec => format_record asctime rec ++ LF) records).

(** A tree with directories in directories; the entries of each directory
    are in the order in which the directory lists them. *)
Definition nested_tree : Node :=
  Dir [("d2", Dir [("w.txt", File scenario_file)]);
       ("d1", Dir [("x.txt", File scenario_file);
                   ("sub", Dir [(".hid", File scenario_file);
                                ("y.txt", File scenario_file)])]);
       ("z.txt", File scenario_file);
       ("a.txt", File scenario_file)].

(** A run of [grep.py error ./ -r --color never] in a working directory
    that holds [nested_tree] under the name [t].  The run writes its log
    file under the working directory before it walks the input, so that
    the walk finds it, with the four records of the start of the run. *)
Definition here_args : Args :=
  mkArgs "error" ["./"] true false false false ColorNever false.

Definition here_start : Env :=
  mkEnv (fun _ => None) "/work" "2024-01-01_00-00-00"
        ["grep.py"; "error"; "./"; "-r"; "--color"; "never"] false LogsReady.

Definition here_log : FileEnv :=
  text_file (log_content "2024-01-01 00:00:00,000" (started_log here_start here_args)).

Definition here_env : Env :=
  mkEnv (fun p => if String.eqb p "."
                  then Some (Dir [("t", nested_tree);
                                  ("logs", Dir [("log_2024-01-01_00-00-00.txt",
                                                 File here_log)])])
                  else None)
        (env_cwd here_start) (env_now here_start) (env_argv here_start)
        (env_stdout_isatty here_start) (env_logs here_start).

(** What [main] of phase3.py makes of its options. *)
Definition flag3 (name : string) (rest : list string) : bool :=
  str_in name (map py_lower rest).

(** What a file contributes to the output and to the errors of phase3.py. *)
Definition output3 {RE : ReLib} (rx : Pattern) (invert do_count : bool)
           (t : path * FileEnv) : list OutLine :=
  if classified_text (snd t)
  then emitted (process_file rx (fst t) invert do_count (snd t)) Run0
  else [].

Definition errors3 {RE : ReLib} (rx : Pattern) (invert do_count : bool)
           (t : path * FileEnv) : list ErrLine :=
  if classified_text (snd t)
  then complained (process_file rx (fst t) invert do_count (snd t)) Run0
  else [].

(** Command lines of phase3.py over the scenario directory. *)
Definition env3 (argv : list string) : Env := with_argv scenario_env argv.

(* ================================================================= *)
(** * Properties *)

(** ** Strings *)

Lemma append_assoc (s1 s2 s3 : string) : (s1 ++ s2) ++ s3 = s1 ++ (s2 ++ s3).
Proof. induction s1 as [|c s1 IH]; simpl; [reflexivity | now rewrite IH]. Qed.


Lemma length_append (s1 s2 : string) :
  String.length (s1 ++ s2) = String.length s1 + String.length s2.
Proof. induction s1 as [|c s1 IH]; simpl; [reflexivity | now rewrite IH]. Qed.

Lemma take_drop (n : nat) (s : string) : take n s ++ drop n s = s.
Proof.
  revert s; induction n as [|n IH]; intros [|c s]; simpl; try reflexivity.
  now rewrite IH.
Qed.

Lemma length_take (n : nat) (s : string) :
  n <= String.length s -> String.length (take n s) = n.
Proof.
  revert s; induction n as [|n IH]; intros [|c s]; simpl; intros H;
    try reflexivity; try lia.
  rewrite IH; lia.
Qed.

Lemma length_drop (n : nat) (s : string) :
  String.length (drop n s) = String.length s - n.
Proof.
  revert s; induction n as [|n IH]; intros [|c s]; simpl; try reflexivity.
  apply IH.
Qed.

Lemma take_app_exact (s1 s2 : string) : take (String.length s1) (s1 ++ s2) = s1.
Proof. induction s1 as [|c s1 IH]; simpl; [now destruct s2 | now rewrite IH]. Qed.

Lemma drop_app_plus (s1 s2 : string) (n : nat) :
  drop (String.length s1 + n) (s1 ++ s2) = drop n s2.
Proof. induction s1 as [|c s1 IH]; simpl; [reflexivity | apply IH]. Qed.

Lemma drop_0 (s : string) : drop 0 s = s.
Proof. now destruct s. Qed.

(** Cutting a piece [mid] out of [pre ++ mid ++ post] at the offset where it
    was put. *)
Lemma erase_inserted (pre mid post : string) :
  erase (String.length pre) (String.length mid) (pre ++ mid ++ post) = pre ++ post.
Proof.
  unfold erase. rewrite take_app_exact, (drop_app_plus pre (mid ++ post)).
  replace (String.length mid) with (String.length mid + 0) by lia.
  now rewrite (drop_app_plus mid post 0), drop_0.
Qed.

Lemma drop_drop (a k : nat) (s : string) : drop k (drop a s) = drop (a + k) s.
Proof.
  revert s; induction a as [|a IH]; intros s; simpl.
  - reflexivity.
  - destruct s as [|c s]; [now destruct k | apply IH].
Qed.

(** A slicing of a line at a span recomposes the line. *)
Lemma slices_recompose (a b : nat) (line : string) :
  a <= b -> take a line ++ slice a b line ++ drop b line = line.
Proof.
  intros Hab. unfold slice.
  replace (drop b line) with (drop (b - a) (drop a line)).
  - now rewrite take_drop, take_drop.
  - rewrite drop_drop. f_equal. lia.
Qed.

Lemma length_slice (a b : nat) (line : string) :
  a <= b <= String.length line -> String.length (slice a b line) = b - a.
Proof.
  intros H. unfold slice. apply length_take. rewrite length_drop. lia.
Qed.

(** *** [rstrip("\n")] *)

Lemma rstrip_nl_decompose (raw : string) :
  exists k, raw = rstrip_nl raw ++ newlines k.
Proof.
  induction raw as [|c raw [k IH]]; simpl.
  - now exists 0.
  - destruct (rstrip_nl raw) as [|d r] eqn:E.
    + destruct (is_lf c) eqn:Hc.
      * exists (S k). simpl in *. unfold is_lf in Hc.
        apply Ascii.eqb_eq in Hc. now subst.
      * exists k. simpl in *. now f_equal.
    + exists k. simpl in *. now f_equal.
Qed.

Lemma rstrip_nl_no_trailing_lf (raw : string) :
  last_char (rstrip_nl raw) <> Some "010"%char.
Proof.
  induction raw as [|c raw IH]; simpl; [discriminate |].
  destruct (rstrip_nl raw) as [|d r] eqn:E.
  - destruct (is_lf c) eqn:Hc; simpl; [discriminate |].
    intros [= ->]. discriminate.
  - exact IH.
Qed.

Lemma rstrip_nl_fixed (s : string) :
  last_char s <> Some "010"%char -> rstrip_nl s = s.
Proof.
  induction s as [|c s IH]; simpl; [reflexivity |].
  destruct s as [|d s].
  - simpl. intros H. destruct (is_lf c) eqn:Hc; [|reflexivity].
    apply Ascii.eqb_eq in Hc. congruence.
  - intros H. rewrite (IH H). reflexivity.
Qed.

Lemma rstrip_nl_newlines (k : nat) : rstrip_nl (newlines k) = "".
Proof. induction k as [|k IH]; simpl; [reflexivity | now rewrite IH]. Qed.

Lemma rstrip_nl_app_newlines (s : string) (k : nat) :
  rstrip_nl (s ++ newlines k) = rstrip_nl s.
Proof.
  induction s as [|c s IH]; simpl.
  - apply rstrip_nl_newlines.
  - now rewrite IH.
Qed.

Lemma last_char_app_cons (s : string) (c : ascii) :
  last_char (s ++ String c "") = Some c.
Proof.
  induction s as [|d s IH]; simpl; [reflexivity |].
  destruct (s ++ String c "") eqn:E; [now destruct s | exact IH].
Qed.

(** A carriage return before the line feed is kept. *)
Lemma rstrip_nl_crlf (s : string) : rstrip_nl (s ++ CR ++ LF) = s ++ CR.
Proof.
  change (CR ++ LF) with (CR ++ newlines 1).
  rewrite <- append_assoc, rstrip_nl_app_newlines.
  apply rstrip_nl_fixed. unfold CR. rewrite last_char_app_cons. discriminate.
Qed.

(** *** The text layer *)

Lemma occurs_app (c : ascii) (s t : string) :
  occurs c (s ++ t) = occurs c s || occurs c t.
Proof.
  induction s as [|d s IH]; simpl; [reflexivity |].
  now rewrite IH, orb_assoc.
Qed.

(** The translation leaves no carriage return. *)
Lemma universal_newlines_no_cr (s : string) :
  occurs "013" (universal_newlines s) = false.
Proof.
  assert (H : forall n t, String.length t <= n ->
                          occurs "013" (universal_newlines t) = false).
  { induction n as [|n IH]; intros [|c t] Hlen;
      cbn [universal_newlines String.length] in *; try reflexivity; try lia.
    destruct (is_cr c) eqn:Hc; cbn [occurs].
    - change (Ascii.eqb "013" "010") with false. cbn [orb].
      destruct t as [|d t]; [reflexivity |].
      destruct (is_lf d); apply IH; cbn [String.length] in *; lia.
    - unfold is_cr in Hc. rewrite Ascii.eqb_sym, Hc. cbn [orb]. apply IH. lia. }
  exact (H (String.length s) s (le_n _)).
Qed.

(** A text without carriage returns is left as it is. *)
Lemma universal_newlines_fixed (s : string) :
  occurs "013" s = false -> universal_newlines s = s.
Proof.
  induction s as [|c s IH]; cbn [occurs universal_newlines]; [reflexivity |].
  intros H. apply orb_false_iff in H. destruct H as [Hc Hs].
  unfold is_cr. rewrite Ascii.eqb_sym, Hc. now rewrite IH.
Qed.

(** A CR LF after a stretch without carriage returns becomes one LF. *)
Lemma universal_newlines_crlf (s rest : string) :
  occurs "013" s = false ->
  universal_newlines (s ++ CR ++ LF ++ rest) = s ++ LF ++ universal_newlines rest.
Proof.
  induction s as [|c s IH]; cbn [occurs universal_newlines append];
    [reflexivity |].
  intros H. apply orb_false_iff in H. destruct H as [Hc Hs].
  unfold is_cr. rewrite Ascii.eqb_sym, Hc. now rewrite IH.
Qed.

(** Cutting loses nothing. *)
Lemma cut_lines_concat (s : string) : String.concat "" (cut_lines s) = s.
Proof.
  induction s as [|c s IH]; simpl; [reflexivity |].
  destruct (is_lf c) eqn:Hc.
  - cbn [String.concat]. destruct (cut_lines s) as [|l ls] eqn:E.
    + simpl in *. now subst.
    + simpl. f_equal. exact IH.
  - destruct (cut_lines s) as [|l ls] eqn:E.
    + simpl in *. now subst.
    + destruct ls as [|l' ls]; simpl in *; now rewrite <- IH.
Qed.

Lemma cut_lines_line (s t : string) :
  occurs "010" s = false ->
  cut_lines (s ++ LF ++ t) = (s ++ LF) :: cut_lines t.
Proof.
  induction s as [|c s IH]; cbn [occurs cut_lines append]; [reflexivity |].
  intros H. apply orb_false_iff in H. destruct H as [Hc Hs].
  unfold is_lf at 1. rewrite Ascii.eqb_sym, Hc, (IH Hs). reflexivity.
Qed.

(** Each line ends with the first line feed in it, if it has one. *)
Lemma cut_lines_shape (s l : string) :
  In l (cut_lines s) ->
  exists body, occurs "010" body = false
               /\ (l = body ++ LF \/ (l = body /\ body <> "")).
Proof.
  revert l. induction s as [|c s IH]; cbn [cut_lines]; intros l Hin;
    [contradiction |].
  destruct (is_lf c) eqn:Hc.
  - destruct Hin as [<- | Hin]; [| now apply IH].
    exists "". split; [reflexivity |]. left.
    unfold is_lf in Hc. apply Ascii.eqb_eq in Hc. now subst c.
  - assert (Hc' : Ascii.eqb "010" c = false)
      by (rewrite Ascii.eqb_sym; exact Hc).
    destruct (cut_lines s) as [|l0 ls] eqn:E.
    + destruct Hin as [<- | []]. exists (String c ""). cbn [occurs].
      rewrite Hc'. split; [reflexivity |]. right.
      split; [reflexivity | discriminate].
    + destruct Hin as [<- | Hin].
      * destruct (IH l0 (or_introl eq_refl)) as (body & Hb & Hl).
        exists (String c body). cbn [occurs]. rewrite Hc', Hb.
        split; [reflexivity |].
        destruct Hl as [-> | [-> Hne]]; [now left | right].
        split; [reflexivity | discriminate].
      * apply IH. now right.
Qed.

Lemma occurs_last_char (c : ascii) (s : string) :
  occurs c s = false -> last_char s <> Some c.
Proof.
  induction s as [|d s IH]; cbn [occurs last_char]; [discriminate |].
  intros H. apply orb_false_iff in H. destruct H as [Hd Hs].
  destruct s as [|e s].
  - intros [= ->]. now rewrite Ascii.eqb_refl in Hd.
  - now apply IH.
Qed.

(** [rstrip] takes from a delivered line its line feed, and nothing else. *)
Lemma cut_lines_rstrip (s l : string) :
  In l (cut_lines s) ->
  occurs "010" (rstrip_nl l) = false
  /\ (l = rstrip_nl l ++ LF \/ l = rstrip_nl l).
Proof.
  intros Hin. destruct (cut_lines_shape s l Hin) as (body & Hb & Hl).
  assert (Hfix : rstrip_nl body = body)
    by (apply rstrip_nl_fixed, occurs_last_char, Hb).
  destruct Hl as [-> | [-> _]].
  - change LF with (newlines 1). rewrite rstrip_nl_app_newlines, Hfix.
    split; [exact Hb | now left].
  - rewrite Hfix. split; [exact Hb | now right].
Qed.

Lemma occurs_concat (c : ascii) (ls : list string) (l : string) :
  In l ls -> occurs c l = true -> occurs c (String.concat "" ls) = true.
Proof.
  induction ls as [|x ls IH]; simpl; [contradiction |].
  intros [-> | Hin] Hc.
  - destruct ls; [exact Hc |]. rewrite occurs_app, Hc. reflexivity.
  - destruct ls as [|y ls']; [contradiction |].
    rewrite occurs_app, (IH Hin Hc). apply orb_true_r.
Qed.

(** No line the file object delivers holds a carriage return. *)
Lemma text_lines_no_cr (content raw : string) :
  In raw (text_lines content) -> occurs "013" raw = false.
Proof.
  intros Hin. destruct (occurs "013" raw) eqn:E; [| reflexivity].
  pose proof (occurs_concat "013" _ _ Hin E) as H.
  unfold text_lines in H. rewrite cut_lines_concat in H.
  now rewrite universal_newlines_no_cr in H.
Qed.

Lemma occurs_rstrip_nl (c : ascii) (raw : string) :
  occurs c raw = false -> occurs c (rstrip_nl raw) = false.
Proof.
  intros H. destruct (rstrip_nl_decompose raw) as [k Hk].
  rewrite Hk, occurs_app in H. now apply orb_false_iff in H.
Qed.

(** A text whose lines end in CR LF is delivered as the same lines, each
    ending in LF. *)
Lemma text_lines_crlf (ls : list string) :
  (forall l, In l ls -> occurs "013" l = false /\ occurs "010" l = false) ->
  text_lines (String.concat "" (map (fun l => l ++ CR ++ LF) ls))
  = map (fun l => l ++ LF) ls.
Proof.
  unfold text_lines. induction ls as [|l ls IH]; intros H; [reflexivity |].
  destruct (H l (or_introl eq_refl)) as [Hcr Hlf].
  assert (Hrest : forall l', In l' ls ->
                             occurs "013" l' = false /\ occurs "010" l' = false)
    by (intros l' Hl'; apply H; now right).
  specialize (IH Hrest).
  assert (Hstep : forall rest,
             cut_lines (universal_newlines (l ++ CR ++ LF ++ rest))
             = (l ++ LF) :: cut_lines (universal_newlines rest)).
  { intros rest. rewrite universal_newlines_crlf by exact Hcr.
    apply cut_lines_line, Hlf. }
  cbn [map String.concat]. destruct ls as [|l' ls'].
  - specialize (Hstep ""). cbn [map]. 
    replace (l ++ CR ++ LF) with (l ++ CR ++ LF ++ "") by reflexivity.
    exact Hstep.
  - cbn [map] in *. cbn [append]. 
    rewrite !append_assoc. 
    change (CR ++ LF ++ ?x) with (CR ++ LF ++ x).
    rewrite <- IH. apply Hstep. 
Qed.

Lemma map_rstrip_lf (ls : list string) :
  (forall l, In l ls -> occurs "010" l = false) ->
  map rstrip_nl (map (fun l => l ++ LF) ls) = ls.
Proof.
  induction ls as [|l ls IH]; intros H; simpl; [reflexivity |].
  rewrite IH by (intros l' Hl'; apply H; now right).
  f_equal. change LF with (newlines 1). rewrite rstrip_nl_app_newlines.
  apply rstrip_nl_fixed, occurs_last_char, H. now left.
Qed.

(** *** Paths *)

Lemma split_slash_cons (s : string) : exists x xs, split_slash s = x :: xs.
Proof.
  destruct s as [|c s]; cbn [split_slash]; [eauto |].
  destruct (Ascii.eqb c "/"); [eauto |].
  destruct (split_slash s); eauto.
Qed.

(** Joining what [split] gives yields the string again. *)
Lemma concat_split_slash (s : string) : String.concat "/" (split_slash s) = s.
Proof.
  induction s as [|c s IH]; cbn [split_slash]; [reflexivity |].
  destruct (split_slash_cons s) as (x & xs & E). rewrite E in *.
  destruct (Ascii.eqb c "/") eqn:Ec.
  - apply Ascii.eqb_eq in Ec. subst c.
    change (String.concat "/" ("" :: x :: xs))
      with ("" ++ "/" ++ String.concat "/" (x :: xs)).
    now rewrite IH.
  - destruct xs as [|y ys].
    + cbn [String.concat] in *. now rewrite IH.
    + change (String.concat "/" (String c x :: y :: ys))
        with (String c (x ++ "/" ++ String.concat "/" (y :: ys))).
      f_equal. exact IH.
Qed.

Lemma normal_from_parts (s : string) :
  forall b, normal_from b s = true ->
            exists x xs, split_slash s = x :: xs
                         /\ forallb kept_part xs = true
                         /\ (b = true -> kept_part x = true).
Proof.
  induction s as [|c s IH]; intros b H.
  - exists "", []. split; [reflexivity |]. split; [reflexivity |].
    intros ->. discriminate H.
  - cbn [normal_from split_slash] in *. destruct (Ascii.eqb c "/") eqn:Ec.
    + apply andb_true_iff in H. destruct H as [Hb H].
      destruct (IH true H) as (x & xs & E & Hxs & Hx).
      exists "", (x :: xs). split; [now rewrite E |]. split.
      * cbn [forallb]. now rewrite (Hx eq_refl), Hxs.
      * intros ->. discriminate Hb.
    + assert (Hs : normal_from false s = true).
      { destruct (Ascii.eqb c "." && b
                  && match s with
                     | EmptyString => true
                     | String d _ => Ascii.eqb d "/"
                     end); [discriminate | exact H]. }
      destruct (IH false Hs) as (x & xs & E & Hxs & _).
      rewrite E. exists (String c x), xs. split; [reflexivity |].
      split; [exact Hxs |]. intros ->. unfold kept_part. cbn [String.eqb negb andb].
      destruct (Ascii.eqb c ".") eqn:Edot; [| reflexivity].
      destruct x as [|d x]; [| reflexivity]. exfalso.
      cbn [andb] in H. destruct s as [|d s]; [discriminate H |].
      destruct (Ascii.eqb d "/") eqn:Ed; [discriminate H |].
      cbn [split_slash] in E. rewrite Ed in E.
      destruct (split_slash s); discriminate E.
Qed.

Lemma filter_forallb {A} (f : A -> bool) (l : list A) :
  forallb f l = true -> filter f l = l.
Proof.
  induction l as [|x l IH]; cbn [forallb filter]; [reflexivity |].
  intros H. apply andb_true_iff in H. destruct H as [-> H]. now rewrite IH.
Qed.

(** A relative path in normal form is what [Path] makes of it. *)
Lemma Path_normal_from (s : string) :
  normal_from true s = true ->
  path_parts s = split_slash s /\ path_root s = "".
Proof.
  intros H. destruct (normal_from_parts s true H) as (x & xs & E & Hxs & Hx).
  split.
  - unfold path_parts. rewrite E. apply filter_forallb.
    cbn [forallb]. now rewrite (Hx eq_refl), Hxs.
  - destruct s as [|c s]; [reflexivity |].
    cbn [normal_from] in H. destruct (Ascii.eqb c "/") eqn:Ec; [discriminate H |].
    destruct c as [[] [] [] [] [] [] [] []]; first [reflexivity | discriminate Ec].
Qed.

(** [Path] leaves a path in normal form as it is. *)
Lemma Path_normal (s : string) : normal_path s = true -> Path s = s.
Proof.
  intros H. unfold Path.
  assert (Hrel : forall t, normal_from true t = true ->
                           match path_root t, path_parts t with
                           | EmptyString, [] => "."
                           | root, parts => root ++ String.concat "/" parts
                           end = t).
  { intros t Ht. destruct (Path_normal_from t Ht) as [-> ->].
    destruct (split_slash t) as [|x xs] eqn:E.
    - destruct (split_slash_cons t) as (x & xs & E'). congruence.
    - cbn [append]. rewrite <- E. apply concat_split_slash. }
  destruct s as [|c s]; [discriminate H |].
  destruct (Ascii.eqb c "/") eqn:Ec.
  - apply Ascii.eqb_eq in Ec. subst c. cbn [normal_path] in H.
    destruct (Path_normal_from s H) as [Hparts Hroot].
    assert (Hr : path_root (String "/" s) = "/").
    { destruct s as [|d s]; [reflexivity |].
      cbn [normal_from] in H. destruct (Ascii.eqb d "/") eqn:Ed; [discriminate H |].
      destruct d as [[] [] [] [] [] [] [] []]; first [reflexivity | discriminate Ed]. }
    assert (Hp : path_parts (String "/" s) = split_slash s).
    { unfold path_parts in *. cbn [split_slash]. 
      change (Ascii.eqb "/" "/") with true. cbv iota. cbn [filter].
      change (kept_part "") with false. cbv iota. exact Hparts. }
    rewrite Hr, Hp, concat_split_slash. reflexivity.
  - apply Hrel. destruct c as [[] [] [] [] [] [] [] []]; try exact H; discriminate Ec.
Qed.

(* ================================================================= *)
(** ** The engine of [Re] against its declarative semantics *)

Section EngineFacts.
Variables (ic : bool) (s : string).

Lemma get_some_lt (p : nat) (d : ascii) :
  String.get p s = Some d -> p < String.length s.
Proof.
  clear ic. revert p; induction s as [|c s' IH]; intros p H; simpl in *.
  - discriminate.
  - destruct p as [|p]; [lia |]. apply IH in H. lia.
Qed.

Lemma matches_le (r : Re.regex) (p q : nat) :
  Re.matches ic s r p q -> p <= q.
Proof. induction 1; lia. Qed.

(** A match that advances stays inside the subject. *)
Lemma matches_inside (r : Re.regex) (p q : nat) :
  Re.matches ic s r p q -> q = p \/ q <= String.length s.
Proof.
  induction 1; try (left; reflexivity); try assumption.
  - right. apply get_some_lt in H. lia.
  - right. apply get_some_lt in H. lia.
  - destruct IHmatches1, IHmatches2; subst; auto.
  - destruct IHmatches1, IHmatches2; subst; auto.
Qed.

Lemma matches_bound (r : Re.regex) (p q : nat) :
  Re.matches ic s r p q -> p <= String.length s -> q <= String.length s.
Proof. intros H Hp. destruct (matches_inside H); subst; assumption. Qed.

Lemma star_ends_sound (r : Re.regex) (step : nat -> list nat) :
  (forall p q, In q (step p) -> Re.matches ic s r p q) ->
  forall fuel p t,
    In t (Re.star_ends step fuel p) -> Re.matches ic s (Re.Star r) p t.
Proof.
  intros Hstep. induction fuel as [|fuel IH]; intros p t Hin; simpl in Hin.
  - destruct Hin as [<- | []]. constructor.
  - apply in_app_or in Hin. destruct Hin as [Hin | [<- | []]].
    + apply in_flat_map in Hin. destruct Hin as (q & Hq & Ht).
      destruct (p <? q); [| contradiction].
      eapply Re.m_star_cons; eauto.
    + constructor.
Qed.

Lemma ends_sound (r : Re.regex) :
  forall p q, In q (Re.ends ic s r p) -> Re.matches ic s r p q.
Proof.
  induction r as [| c | | | | r1 IH1 r2 IH2 | r1 IH1 r2 IH2 | r IH];
    intros p q Hin; simpl in Hin.
  - destruct Hin as [<- | []]. constructor.
  - destruct (String.get p s) as [d|] eqn:G; [| contradiction].
    destruct (Re.chr_eq ic c d) eqn:E; [| contradiction].
    destruct Hin as [<- | []]. econstructor; eauto.
  - destruct (String.get p s) as [d|] eqn:G; [| contradiction].
    destruct (is_lf d) eqn:E; [contradiction |].
    destruct Hin as [<- | []]. econstructor; eauto.
  - destruct (p =? 0) eqn:E; [| contradiction].
    apply Nat.eqb_eq in E. destruct Hin as [<- | []]. subst. constructor.
  - destruct (Re.at_end s p) eqn:E; [| contradiction].
    destruct Hin as [<- | []]. now constructor.
  - apply in_flat_map in Hin. destruct Hin as (m & Hm & Hq).
    econstructor; eauto.
  - apply in_app_or in Hin. destruct Hin.
    + apply Re.m_alt_l; auto.
    + apply Re.m_alt_r; auto.
  - eapply star_ends_sound; eauto.
Qed.

(** The two halves of completeness are proved together: the second is the
    loop of [Star], for any fuel that covers the characters left. *)
Lemma ends_complete_gen (r : Re.regex) (p q : nat) :
  Re.matches ic s r p q ->
  In q (Re.ends ic s r p) /\
  (forall r0, r = Re.Star r0 ->
     forall fuel, String.length s - p <= fuel ->
       In q (Re.star_ends (Re.ends ic s r0) fuel p)).
Proof.
  induction 1 as [ p | c d p G E | d p G E | | p E
                 | r1 r2 p q t H1 [IH1 _] H2 [IH2 _]
                 | r1 r2 p q H1 [IH1 _] | r1 r2 p q H1 [IH1 _]
                 | r p
                 | r p q t H1 [IH1 _] H2 [_ IH2] ].
  - split; [now left | discriminate].
  - split; [| discriminate]. simpl. rewrite G, E. now left.
  - split; [| discriminate]. simpl. rewrite G, E. now left.
  - split; [now left | discriminate].
  - split; [| discriminate]. simpl. rewrite E. now left.
  - split; [| discriminate]. simpl. apply in_flat_map. eauto.
  - split; [| discriminate]. simpl. apply in_or_app. auto.
  - split; [| discriminate]. simpl. apply in_or_app. auto.
  - assert (Hnil : forall fuel, In p (Re.star_ends (Re.ends ic s r) fuel p)).
    { intros [|fuel]; simpl; [now left |]. apply in_or_app. right. now left. }
    split; [apply Hnil |]. intros r0 [= <-] fuel _. apply Hnil.
  - assert (Hloop : forall fuel, String.length s - p <= fuel ->
                                 In t (Re.star_ends (Re.ends ic s r) fuel p)).
    { intros fuel Hfuel.
      pose proof (matches_le H1) as Hle.
      destruct (Nat.eq_dec q p) as [-> | Hne].
      - apply (IH2 r eq_refl). exact Hfuel.
      - destruct (matches_inside H1) as [-> | Hin]; [congruence |].
        destruct fuel as [|fuel]; [lia |]. simpl.
        apply in_or_app. left. apply in_flat_map. exists q. split; [exact IH1 |].
        assert (Hlt : (p <? q) = true) by (apply Nat.ltb_lt; lia).
        rewrite Hlt. apply (IH2 r eq_refl). lia. }
    split; [apply Hloop; simpl; lia |].
    intros r0 [= <-]. exact Hloop.
Qed.

Lemma ends_complete (r : Re.regex) (p q : nat) :
  Re.matches ic s r p q -> In q (Re.ends ic s r p).
Proof. intros H. apply (ends_complete_gen H). Qed.

Lemma ends_iff (r : Re.regex) (p q : nat) :
  In q (Re.ends ic s r p) <-> Re.matches ic s r p q.
Proof. split; [apply ends_sound | apply ends_complete]. Qed.

(** The search reports the first start position at which a match exists. *)
Lemma search_from_some (r : Re.regex) (n start a b : nat) :
  Re.search_from ic s r n start = Some (a, b) ->
  start <= a <= start + n /\ Re.matches ic s r a b /\
  (forall a', start <= a' < a -> forall b', ~ Re.matches ic s r a' b').
Proof.
  revert start; induction n as [|n IH]; intros start H; simpl in H.
  - destruct (Re.ends ic s r start) as [|q l] eqn:E; [discriminate |].
    injection H as <- <-. split; [lia |]. split.
    + apply ends_sound. rewrite E. now left.
    + intros a' Ha'. lia.
  - destruct (Re.ends ic s r start) as [|q l] eqn:E.
    + apply IH in H. destruct H as (Hr & Hm & Hfirst).
      split; [lia |]. split; [exact Hm |].
      intros a' Ha' b' Hb'.
      destruct (Nat.eq_dec a' start) as [-> | Hne].
      * apply ends_complete in Hb'. rewrite E in Hb'. contradiction.
      * apply (Hfirst a' ltac:(lia) b' Hb').
    + injection H as <- <-. split; [lia |]. split.
      * apply ends_sound. rewrite E. now left.
      * intros a' Ha'. lia.
Qed.

Lemma search_from_none (r : Re.regex) (n start : nat) :
  Re.search_from ic s r n start = None ->
  forall a b, start <= a <= start + n -> ~ Re.matches ic s r a b.
Proof.
  revert start; induction n as [|n IH]; intros start H a b Ha Hm; simpl in H;
    destruct (Re.ends ic s r start) as [|q l] eqn:E; try discriminate.
  - assert (a = start) by lia. subst.
    apply ends_complete in Hm. rewrite E in Hm. contradiction.
  - destruct (Nat.eq_dec a start) as [-> | Hne].
    + apply ends_complete in Hm. rewrite E in Hm. contradiction.
    + apply (IH _ H a b ltac:(lia) Hm).
Qed.

End EngineFacts.

(** [search] succeeds exactly when some stretch of the subject, starting
    anywhere, matches. *)
Lemma search_succeeds_iff (rx : Re.compiled) (line : string) :
  Re.search rx line <> None <->
  exists a b, a <= b <= String.length line /\
              Re.matches (Re.rx_ignore_case rx) line (Re.rx_ast rx) a b.
Proof.
  unfold Re.search. split.
  - destruct (Re.search_from _ _ _ _ _) as [[a b]|] eqn:E; [| congruence].
    intros _. apply search_from_some in E. destruct E as (Ha & Hm & _).
    exists a, b. split; [| exact Hm]. split; [eapply matches_le; eauto |].
    eapply matches_bound; eauto. lia.
  - intros (a & b & Hab & Hm) E.
    eapply search_from_none in E; [exact (E Hm) | lia].
Qed.

(** The engine honours the library's guarantee on spans. *)
Lemma search_span (rx : Re.compiled) (line : string) (a b : nat) :
  Re.search rx line = Some (a, b) -> a <= b <= String.length line.
Proof.
  unfold Re.search. intros E. apply search_from_some in E.
  destruct E as (Ha & Hm & _). split; [eapply matches_le; eauto |].
  eapply matches_bound; eauto. lia.
Qed.

#[export] Instance Re_spans : ReSpans Re.lib.
Proof. exact search_span. Qed.

(* ================================================================= *)
(** ** The run monad *)

Lemma skipn_app_exact {A} (l1 l2 : list A) : skipn (List.length l1) (l1 ++ l2) = l2.
Proof. induction l1 as [|x l1 IH]; simpl; [reflexivity | exact IH]. Qed.

Lemma skipn_exact {A} (l : list A) : skipn (List.length l) l = [].
Proof. induction l as [|x l IH]; simpl; [reflexivity | exact IH]. Qed.

Ltac run_step :=
  unfold bind, ret, upd_stats, get_stats, print, eprint, write_log, event, log;
  simpl.

(** An invariant of the body is an invariant of the loop. *)
Lemma for_each_invariant {A} (I : Run -> Prop) (body : A -> M unit) (l : list A) :
  (forall x r, In x l -> I r -> I (snd (body x r))) ->
  forall r, I r -> I (snd (for_each l body r)).
Proof.
  induction l as [|x l IH]; intros Hbody r Hr; simpl.
  - exact Hr.
  - unfold bind. destruct (body x r) as [u r1] eqn:E.
    apply IH.
    + intros y r2 Hy. apply Hbody. now right.
    + change r1 with (snd (u, r1)). rewrite <- E. apply Hbody; [now left | exact Hr].
Qed.

(** A counter that each round of the body raises by a weight of the element
    is raised by the loop by the sum of the weights. *)
Lemma for_each_counts {A} (f : Run -> nat) (w : A -> nat) (body : A -> M unit)
      (l : list A) :
  (forall x r, In x l -> f (snd (body x r)) = f r + w x) ->
  forall r, f (snd (for_each l body r)) = f r + list_sum (map w l).
Proof.
  induction l as [|x l IH]; intros Hbody r; simpl.
  - lia.
  - unfold bind. destruct (body x r) as [u r1] eqn:E.
    rewrite IH by (intros y r2 Hy; apply Hbody; now right).
    change r1 with (snd (u, r1)). rewrite <- E, Hbody by now left. lia.
Qed.

(* ================================================================= *)
(** ** The line loop and the file scanner *)

Section ScanFacts.
Context {RE : ReLib}.
Variables (filepath : path) (rx : Pattern).
Variables (invert count_only color_enabled : bool).
Variable (logger : Logger).

Local Abbreviation hits := (interesting rx invert).

(** The closed form of the line loop. *)
Lemma scan_lines_spec (raws : list string) (lineno match_count : nat) (r : Run) :
  scan_lines filepath rx invert count_only color_enabled raws lineno match_count r
  = (if count_only then match_count + List.length (hits lineno raws) else match_count,
     mkRun (add_lines (List.length raws)
                      (if count_only then 0 else List.length (hits lineno raws))
                      (stats r))
           (stdout r ++ (if count_only then []
                         else map (result_line filepath rx invert color_enabled)
                                  (hits lineno raws)))
           (stderr r) (logfile r) (trace r)).
Proof.
  unfold interesting.
  revert lineno match_count r.
  induction raws as [|raw rest IH]; intros lineno match_count r; simpl.
  - unfold ret. destruct r as [[? ? ? ? ?] ? ? ? ?]; simpl.
    destruct count_only; simpl; rewrite ?app_nil_r, ?Nat.add_0_r; reflexivity.
  - run_step. destruct (line_ok rx invert (rstrip_nl raw)) eqn:Hok; simpl.
    + destruct count_only eqn:Hc; simpl.
      * rewrite IH. simpl. f_equal; [lia |].
        unfold add_lines, incr_lines_seen; simpl. f_equal. f_equal; lia.
      * run_step. rewrite IH. simpl. f_equal.
        unfold add_lines, incr_lines_seen, incr_lines_reported; simpl.
        rewrite <- app_assoc. simpl. f_equal. f_equal; lia.
    + rewrite IH. simpl. f_equal.
      unfold add_lines, incr_lines_seen; simpl.
      destruct count_only; simpl; f_equal; f_equal; lia.
Qed.

(** The classifier returns the verdict and only touches the trace. *)
Lemma is_probably_text_file_spec (p : path) (f : FileEnv) (r : Run) :
  is_probably_text_file p f default_sample_size r
  = (classified_text f,
     mkRun (stats r) (stdout r) (stderr r) (logfile r)
           (trace r ++ binary_events p f)).
Proof.
  unfold is_probably_text_file, classified_text, binary_events.
  destruct (as_binary f) as [ex | ex | content]; run_step;
    rewrite <- ?app_assoc; reflexivity.
Qed.

Local Abbreviation scan := (grep_file filepath rx invert count_only color_enabled logger).

Ltac scan_start :=
  unfold grep_file, bind at 1; unfold upd_stats at 1; simpl;
  unfold bind at 1; rewrite is_probably_text_file_spec.

(** A file classified as binary is counted and left alone. *)
Lemma grep_file_binary (f : FileEnv) (r : Run) :
  classified_text f = false ->
  scan f r
  = (tt, mkRun (incr_files_skipped_binary (incr_files_seen (stats r)))
               (stdout r) (stderr r)
               (logfile r ++ (if lg_debug logger
                              then [(DEBUG, LogSkipBinary filepath)] else []))
               (trace r ++ binary_events filepath f)).
Proof.
  intros Hc. scan_start. rewrite Hc. simpl. run_step.
  unfold logger_level. destruct (lg_debug logger); simpl.
  - reflexivity.
  - now rewrite app_nil_r.
Qed.

(** A text file that cannot be opened is logged and left alone. *)
Lemma grep_file_open_error (f : FileEnv) (ex : OSError) (r : Run) :
  classified_text f = true -> as_text f = TextOpenError ex ->
  scan f r
  = (tt, mkRun (incr_files_seen (stats r)) (stdout r)
               (stderr r ++ [ErrLog ERROR (LogCannotRead filepath ex)])
               (logfile r ++ [(ERROR, LogCannotRead filepath ex)])
               (trace r ++ binary_events filepath f ++ [EvOpenText filepath false])).
Proof.
  intros Hc Ht. scan_start. rewrite Hc, Ht. simpl. run_step.
  unfold logger_level. destruct (lg_debug logger); simpl;
    now rewrite <- app_assoc.
Qed.

(** A text file whose reading fails after [raws]: the lines read are
    processed, the failure is logged, and no count line is printed. *)
Lemma grep_file_read_error (f : FileEnv) (raws : list string) (ex : OSError)
      (r : Run) :
  classified_text f = true -> as_text f = TextLines raws (Some ex) ->
  scan f r
  = (tt, mkRun (add_lines (List.length raws)
                          (if count_only then 0 else List.length (hits 1 raws))
                          (incr_files_read (incr_files_seen (stats r))))
               (stdout r ++ (if count_only then []
                             else map (result_line filepath rx invert color_enabled)
                                      (hits 1 raws)))
               (stderr r ++ [ErrLog ERROR (LogCannotRead filepath ex)])
               (logfile r ++ [(ERROR, LogCannotRead filepath ex)])
               (trace r ++ binary_events filepath f
                        ++ [EvOpenText filepath true; EvReadTextFail filepath])).
Proof.
  intros Hc Ht. scan_start. rewrite Hc, Ht. simpl. run_step.
  rewrite scan_lines_spec. simpl.
  unfold logger_level. destruct (lg_debug logger); simpl;
    now rewrite <- !app_assoc.
Qed.

(** A text file read to its end. *)
Lemma grep_file_read_ok (f : FileEnv) (raws : list string) (r : Run) :
  classified_text f = true -> as_text f = TextLines raws None ->
  scan f r
  = (tt, mkRun (add_lines (List.length raws)
                          (if count_only then 1 else List.length (hits 1 raws))
                          (incr_files_read (incr_files_seen (stats r))))
               (stdout r ++ (if count_only
                             then [CountLine filepath (List.length (hits 1 raws))
                                             color_enabled]
                             else map (result_line filepath rx invert color_enabled)
                                      (hits 1 raws)))
               (stderr r) (logfile r)
               (trace r ++ binary_events filepath f ++ [EvOpenText filepath true])).
Proof.
  intros Hc Ht. scan_start. rewrite Hc, Ht. simpl. run_step.
  rewrite scan_lines_spec. simpl.
  destruct count_only; simpl; run_step; rewrite <- ?app_assoc, ?app_nil_r;
    reflexivity.
Qed.

End ScanFacts.

(** *** The scanner of phase3.py *)

Section Phase3Facts.
Context {RE : ReLib}.
Variables (rx : Pattern) (filepath : path) (invert do_count : bool).

Lemma p3_ok_line_ok (text : string) : p3_ok rx invert text = line_ok rx invert text.
Proof. reflexivity. Qed.

Lemma process_lines_spec (raws : list string) (lineno count : nat) (r : Run) :
  process_lines rx filepath invert do_count raws lineno count r
  = (if do_count then count + List.length (interesting rx invert lineno raws)
     else count,
     mkRun (stats r)
           (stdout r ++ (if do_count then []
                         else map (fun e => ResultLine filepath (fst e)
                                                       (rstrip_nl (snd e)) false)
                                  (interesting rx invert lineno raws)))
           (stderr r) (logfile r) (trace r)).
Proof.
  unfold interesting. revert lineno count r.
  induction raws as [|raw rest IH]; intros lineno count r; simpl.
  - unfold ret. destruct r; simpl.
    destruct do_count; simpl; rewrite ?app_nil_r, ?Nat.add_0_r; reflexivity.
  - rewrite p3_ok_line_ok.
    destruct (line_ok rx invert (rstrip_nl raw)) eqn:Hok; simpl.
    + destruct do_count eqn:Hc; simpl.
      * rewrite IH. simpl. f_equal. lia.
      * run_step. rewrite IH. simpl. now rewrite <- app_assoc.
    + rewrite IH. reflexivity.
Qed.

Lemma process_file_read_ok (f : FileEnv) (raws : list string) (r : Run) :
  as_text f = TextLines raws None ->
  process_file rx filepath invert do_count f r
  = (tt, mkRun (stats r)
               (stdout r ++ (if do_count
                             then [CountLine filepath
                                     (List.length (interesting rx invert 1 raws)) false]
                             else map (fun e => ResultLine filepath (fst e)
                                                           (rstrip_nl (snd e)) false)
                                      (interesting rx invert 1 raws)))
               (stderr r) (logfile r) (trace r ++ [EvOpenText filepath true])).
Proof.
  intros Ht. unfold process_file. rewrite Ht. run_step.
  rewrite process_lines_spec. simpl.
  destruct do_count; simpl; run_step; rewrite ?app_nil_r; reflexivity.
Qed.

Lemma process_file_failed (f : FileEnv) (r : Run) :
  text_read_to_end f = false ->
  printed_counts (emitted (process_file rx filepath invert do_count f) r) = [].
Proof.
  unfold text_read_to_end, emitted, process_file.
  destruct (as_text f) as [ex | raws [ex|]]; intros H; try discriminate; run_step.
  - now rewrite skipn_exact.
  - rewrite process_lines_spec. simpl. rewrite skipn_app_exact.
    destruct do_count; simpl; [reflexivity |].
    induction (interesting rx invert 1 raws); simpl; auto.
Qed.

End Phase3Facts.

(** *** Numbered lines *)

Lemma in_enumerate {A} (l : list A) (start i : nat) (x : A) :
  In (i, x) (enumerate start l) <-> start <= i /\ nth_error l (i - start) = Some x.
Proof.
  revert start; induction l as [|y l IH]; intros start; simpl.
  - split; [contradiction |]. intros [_ H]. now destruct (i - start).
  - rewrite IH. split.
    + intros [[= <- <-] | [Hle Hn]].
      * split; [lia |]. now rewrite Nat.sub_diag.
      * split; [lia |]. replace (i - start) with (S (i - S start)) by lia. exact Hn.
    + intros [Hle Hn]. destruct (Nat.eq_dec i start) as [-> | Hne].
      * left. rewrite Nat.sub_diag in Hn. simpl in Hn. congruence.
      * right. split; [lia |].
        replace (i - start) with (S (i - S start)) in Hn by lia. exact Hn.
Qed.

Lemma enumerate_fst {A} (l : list A) (start : nat) :
  map fst (enumerate start l) = seq start (List.length l).
Proof.
  revert start; induction l as [|y l IH]; intros start; simpl;
    [reflexivity | now rewrite IH].
Qed.

Lemma in_enumerate_range {A} (l : list A) (start i : nat) :
  (exists x, In (i, x) (enumerate start l)) <-> start <= i < start + List.length l.
Proof.
  split.
  - intros [x H]. apply in_enumerate in H. destruct H as [Hle Hn].
    assert (i - start < List.length l) by (apply nth_error_Some; congruence). lia.
  - intros H. destruct (nth_error l (i - start)) as [x|] eqn:E.
    + exists x. apply in_enumerate. split; [lia | exact E].
    + apply nth_error_None in E. lia.
Qed.

Lemma in_enumerate_functional {A} (l : list A) (start i : nat) (x y : A) :
  In (i, x) (enumerate start l) -> In (i, y) (enumerate start l) -> x = y.
Proof. rewrite !in_enumerate. intros [_ H1] [_ H2]. congruence. Qed.

Lemma NoDup_map_filter {A B} (g : A -> B) (f : A -> bool) (l : list A) :
  NoDup (map g l) -> NoDup (map g (filter f l)).
Proof.
  induction l as [|x l IH]; simpl; intros H; [constructor |].
  inversion H as [| ? ? Hnotin Hnd]; subst.
  destruct (f x); simpl; [| auto].
  constructor; [| auto].
  intros Hin. apply Hnotin. apply in_map_iff in Hin.
  destruct Hin as (y & Hy & Hin). apply filter_In in Hin.
  apply in_map_iff. exists y. tauto.
Qed.

Section LineTestFacts.
Context {RE : ReLib}.
Variable (rx : Pattern).

Lemma in_interesting_linenos (invert : bool) (start : nat) (raws : list string)
      (i : nat) :
  In i (map fst (interesting rx invert start raws)) <->
  exists raw, In (i, raw) (enumerate start raws)
              /\ line_ok rx invert (rstrip_nl raw) = true.
Proof.
  unfold interesting. rewrite in_map_iff. split.
  - intros ([j raw] & Hfst & Hin). simpl in Hfst. subst j.
    apply filter_In in Hin. exists raw. exact Hin.
  - intros (raw & Hin & Hok). exists (i, raw). split; [reflexivity |].
    apply filter_In. split; assumption.
Qed.

Lemma interesting_linenos_nodup (invert : bool) (start : nat) (raws : list string) :
  NoDup (map fst (interesting rx invert start raws)).
Proof.
  unfold interesting. apply NoDup_map_filter.
  rewrite enumerate_fst. apply seq_NoDup.
Qed.

Lemma line_ok_inverts (line : string) :
  line_ok rx true line = negb (line_ok rx false line).
Proof. reflexivity. Qed.

Lemma reported_linenos_result_lines (filepath : path) (invert color : bool)
      (l : list (nat * string)) :
  reported_linenos (map (result_line filepath rx invert color) l) = map fst l.
Proof. induction l as [|e l IH]; simpl; [reflexivity | now rewrite IH]. Qed.

Lemma printed_counts_result_lines (filepath : path) (invert color : bool)
      (l : list (nat * string)) :
  printed_counts (map (result_line filepath rx invert color) l) = [].
Proof. induction l as [|e l IH]; simpl; [reflexivity | exact IH]. Qed.

End LineTestFacts.

(* ================================================================= *)
(** ** The scanner's output on a file *)

Section OutputFacts.
Context {RE : ReLib}.
Variables (filepath : path) (rx : Pattern).

(** What a scan in Lines mode prints for a file read to its end. *)
Lemma emitted_lines_mode (invert color : bool) (lg : Logger) (f : FileEnv)
      (raws : list string) (r : Run) :
  read_to_end f raws ->
  emitted (grep_file filepath rx invert false color lg f) r
  = map (result_line filepath rx invert color) (interesting rx invert 1 raws).
Proof.
  intros [Hc Ht]. unfold emitted. rewrite (@grep_file_read_ok _ filepath rx invert _ color lg f raws r Hc Ht).
  simpl. apply skipn_app_exact.
Qed.

(** What a scan in CountPerFile mode prints for a file read to its end. *)
Lemma emitted_count_mode (invert color : bool) (lg : Logger) (f : FileEnv)
      (raws : list string) (r : Run) :
  read_to_end f raws ->
  emitted (grep_file filepath rx invert true color lg f) r
  = [CountLine filepath (List.length (interesting rx invert 1 raws)) color].
Proof.
  intros [Hc Ht]. unfold emitted. rewrite (@grep_file_read_ok _ filepath rx invert _ color lg f raws r Hc Ht).
  simpl. apply skipn_app_exact.
Qed.

(** A scan that does not read the file to its end prints no count line. *)
Lemma no_count_unless_fully_read (invert count_only color : bool) (lg : Logger)
      (f : FileEnv) (r : Run) :
  fully_read f = false ->
  printed_counts (emitted (grep_file filepath rx invert count_only color lg f) r) = [].
Proof.
  unfold fully_read, text_read_to_end, emitted. intros H.
  destruct (classified_text f) eqn:Hc.
  - destruct (as_text f) as [ex | raws [ex|]] eqn:Ht; simpl in H; try discriminate.
    + rewrite (@grep_file_open_error _ filepath rx invert count_only color lg f ex r Hc Ht). simpl.
      now rewrite skipn_exact.
    + rewrite (@grep_file_read_error _ filepath rx invert count_only color lg f raws ex r Hc Ht). simpl.
      rewrite skipn_app_exact. destruct count_only; [reflexivity |].
      apply printed_counts_result_lines.
  - rewrite (@grep_file_binary _ filepath rx invert count_only color lg f r Hc). simpl. now rewrite skipn_exact.
Qed.

End OutputFacts.

(* ================================================================= *)
(** ** The laws of the specification *)

(** C1 (invert law).  For a fixed compiled pattern and a text file that is
    read to its end, the line numbers a scan reports under the Normal policy
    and those it reports under the Inverted policy partition the range
    1..N of the file's line numbers: together they cover it, no number is
    in both, and none is reported twice. *)
Theorem C1_invert_partition {RE : ReLib} (filepath : path) (rx : Pattern)
        (color_n color_v : bool) (lg_n lg_v : Logger) (f : FileEnv)
        (raws : list string) (r_n r_v : Run) :
  read_to_end f raws ->
  let normal :=
    reported_linenos (emitted (grep_file filepath rx false false color_n lg_n f) r_n) in
  let inverted :=
    reported_linenos (emitted (grep_file filepath rx true false color_v lg_v f) r_v) in
  (forall i, In i normal \/ In i inverted <-> 1 <= i <= List.length raws)
  /\ (forall i, ~ (In i normal /\ In i inverted))
  /\ NoDup normal /\ NoDup inverted.
Proof.
  intros Hread normal inverted. subst normal inverted.
  rewrite !(emitted_lines_mode _ _ _ _ _ _ Hread), !reported_linenos_result_lines.
  split; [| split; [| split]].
  - intros i. split.
    + intros [H | H]; apply in_interesting_linenos in H;
        destruct H as (raw & Hin & _);
        assert (Hr : 1 <= i < 1 + List.length raws)
          by (apply in_enumerate_range; eauto); lia.
    + intros Hi.
      assert (Hr : 1 <= i < 1 + List.length raws) by lia.
      apply in_enumerate_range in Hr. destruct Hr as [raw Hin].
      destruct (line_ok rx false (rstrip_nl raw)) eqn:Hok.
      * left. apply in_interesting_linenos. eauto.
      * right. apply in_interesting_linenos. exists raw. split; [exact Hin |].
        rewrite line_ok_inverts, Hok. reflexivity.
  - intros i [Hn Hv].
    apply in_interesting_linenos in Hn. destruct Hn as (raw & Hin & Hok).
    apply in_interesting_linenos in Hv. destruct Hv as (raw' & Hin' & Hok').
    rewrite (in_enumerate_functional _ _ _ _ _ Hin' Hin) in Hok'.
    rewrite line_ok_inverts, Hok in Hok'. discriminate.
  - apply interesting_linenos_nodup.
  - apply interesting_linenos_nodup.
Qed.

(** On the scenario file with the pattern [error]: line 2 under Normal,
    lines 1 and 3 under Inverted. *)
Lemma C1_invert_partition_witness :
  read_to_end scenario_file scenario_raws
  /\ (let normal :=
        reported_linenos
          (emitted (grep_file (RE := Re.lib) "path" rx_error false false false quiet
                              scenario_file) Run0) in
      let inverted :=
        reported_linenos
          (emitted (grep_file (RE := Re.lib) "path" rx_error true false false quiet
                              scenario_file) Run0) in
      (forall i, In i normal \/ In i inverted <-> 1 <= i <= 3)
      /\ (forall i, ~ (In i normal /\ In i inverted))
      /\ NoDup normal /\ NoDup inverted).
Proof.
  split.
  - split; reflexivity.
  - apply (C1_invert_partition (RE := Re.lib) "path" rx_error false false quiet quiet
                               (f := scenario_file) (raws := scenario_raws) Run0 Run0).
    split; reflexivity.
Defined.

(** C2 (count law).  For a fixed pattern, file and policy, the count that a
    CountPerFile scan prints is the number of lines a Lines scan of the same
    file prints; this holds of [grep_file] and of [process_file] of
    phase3.py.  A count is printed exactly when the file is read to its end
    (and, for [grep_file], passes the classifier). *)
Theorem C2_count_law {RE : ReLib} (filepath : path) (rx : Pattern) (invert : bool)
        (color_l color_c : bool) (lg_l lg_c : Logger) (f : FileEnv) (r_l r_c : Run) :
  let lines_out := emitted (grep_file filepath rx invert false color_l lg_l f) r_l in
  let count_out := emitted (grep_file filepath rx invert true color_c lg_c f) r_c in
  let lines_out3 := emitted (process_file rx filepath invert false f) r_l in
  let count_out3 := emitted (process_file rx filepath invert true f) r_c in
  printed_counts count_out = (if fully_read f then [List.length lines_out] else [])
  /\ printed_counts count_out3
     = (if text_read_to_end f then [List.length lines_out3] else [])
  /\ (forall c, In c (printed_counts count_out) -> c = List.length lines_out)
  /\ (forall c, In c (printed_counts count_out3) -> c = List.length lines_out3).
Proof.
  intros lines_out count_out lines_out3 count_out3.
  assert (H1 : printed_counts count_out
               = if fully_read f then [List.length lines_out] else []).
  { subst lines_out count_out. destruct (fully_read f) eqn:Hf.
    - unfold fully_read, text_read_to_end in Hf.
      apply andb_true_iff in Hf. destruct Hf as [Hc Ht].
      destruct (as_text f) as [ex | raws [ex|]] eqn:E; try discriminate.
      assert (Hread : read_to_end f raws) by (split; assumption).
      rewrite (emitted_count_mode _ _ _ _ _ _ Hread),
              (emitted_lines_mode _ _ _ _ _ _ Hread).
      simpl. now rewrite length_map.
    - now apply no_count_unless_fully_read. }
  assert (H3 : printed_counts count_out3
               = if text_read_to_end f then [List.length lines_out3] else []).
  { subst lines_out3 count_out3. destruct (text_read_to_end f) eqn:Hf.
    - unfold text_read_to_end in Hf.
      destruct (as_text f) as [ex | raws [ex|]] eqn:E; try discriminate.
      unfold emitted. rewrite !(process_file_read_ok _ _ _ _ _ _ E). simpl.
      rewrite !skipn_app_exact. simpl. now rewrite length_map.
    - now apply process_file_failed. }
  repeat split; try assumption.
  - intros c Hin. rewrite H1 in Hin. destruct (fully_read f); simpl in Hin;
      [destruct Hin as [<- | []]; reflexivity | contradiction].
  - intros c Hin. rewrite H3 in Hin. destruct (text_read_to_end f); simpl in Hin;
      [destruct Hin as [<- | []]; reflexivity | contradiction].
Qed.

(* ================================================================= *)
(** ** The accounting of files *)

Lemma io_errors_app (l1 l2 : list (Level * LogMsg)) :
  io_errors (l1 ++ l2) = io_errors l1 + io_errors l2.
Proof.
  induction l1 as [|[lvl m] l1 IH]; simpl; [reflexivity |].
  destruct lvl, m; simpl; rewrite ?IH; reflexivity.
Qed.

Lemma open_failures_app (t1 t2 : list FsEvent) :
  open_failures (t1 ++ t2) = open_failures t1 + open_failures t2.
Proof.
  induction t1 as [|e t1 IH]; simpl; [reflexivity |].
  destruct e as [ | | | | | | ? [|] | ]; simpl; rewrite ?IH; reflexivity.
Qed.

Lemma read_failures_app (t1 t2 : list FsEvent) :
  read_failures (t1 ++ t2) = read_failures t1 + read_failures t2.
Proof.
  induction t1 as [|e t1 IH]; simpl; [reflexivity |].
  destruct e; simpl; rewrite ?IH; reflexivity.
Qed.

Lemma binary_events_no_failures (p : path) (f : FileEnv) :
  open_failures (binary_events p f) = 0 /\ read_failures (binary_events p f) = 0.
Proof. unfold binary_events. destruct (as_binary f); split; reflexivity. Qed.

Ltac accounting :=
  unfold accounted in *; simpl in *;
  rewrite ?io_errors_app, ?open_failures_app, ?read_failures_app in *;
  simpl in *; try lia.

Section Preservation.
Context {RE : ReLib}.

Lemma preserves_ret {A} (I : Run -> Prop) (a : A) : preserves I (ret a).
Proof. intros r H. exact H. Qed.

Lemma preserves_bind {A B} (I : Run -> Prop) (m : M A) (k : A -> M B) :
  preserves I m -> (forall a, preserves I (k a)) -> preserves I (bind m k).
Proof.
  intros Hm Hk r H. unfold bind. specialize (Hm r H).
  destruct (m r) as [a r1]. apply Hk. exact Hm.
Qed.

Lemma preserves_for_each {A} (I : Run -> Prop) (body : A -> M unit) (l : list A) :
  (forall x, preserves I (body x)) -> preserves I (for_each l body).
Proof. intros Hb r H. apply for_each_invariant; auto. intros x r' _. apply Hb. Qed.

Lemma accounted_print (o : OutLine) : preserves accounted (print o).
Proof. intros r H. exact H. Qed.

Lemma accounted_eprint (e : ErrLine) : preserves accounted (eprint e).
Proof. intros r H. exact H. Qed.

Lemma accounted_get_stats : preserves accounted get_stats.
Proof. intros r H. exact H. Qed.

Lemma accounted_event (e : FsEvent) :
  open_failures [e] = 0 -> read_failures [e] = 0 -> preserves accounted (event e).
Proof. intros Ho Hr r [H1 H2]. split; accounting. Qed.

Lemma accounted_log (lg : Logger) (l : Level) (m : LogMsg) :
  io_errors [(l, m)] = 0 -> preserves accounted (log lg l m).
Proof.
  intros Hm r [H1 H2]. unfold log, bind.
  destruct (Nat.leb (level_rank (logger_level lg)) (level_rank l));
    destruct (Nat.leb (level_rank WARNING) (level_rank l));
    split; accounting.
Qed.

(** Every call of the file scanner re-establishes the accounting. *)
Lemma accounted_grep_file (filepath : path) (rx : Pattern)
      (invert count_only color : bool) (lg : Logger) (f : FileEnv) :
  preserves accounted (grep_file filepath rx invert count_only color lg f).
Proof.
  intros r [H1 H2].
  destruct (binary_events_no_failures filepath f) as [Hbo Hbr].
  destruct (classified_text f) eqn:Hc.
  - destruct (as_text f) as [ex | raws [ex|]] eqn:Ht.
    + rewrite (@grep_file_open_error _ filepath rx invert count_only color lg f ex r Hc Ht).
      split; accounting.
    + rewrite (@grep_file_read_error _ filepath rx invert count_only color lg f raws ex r Hc Ht).
      split; accounting.
    + rewrite (@grep_file_read_ok _ filepath rx invert count_only color lg f raws r Hc Ht).
      split; accounting.
  - rewrite (@grep_file_binary _ filepath rx invert count_only color lg f r Hc).
    split; accounting. destruct (lg_debug lg); simpl; lia.
Qed.

Lemma accounted_visit_entry (scan : path -> FileEnv -> M unit) (e : path * Node) :
  (forall p f, preserves accounted (scan p f)) ->
  preserves accounted (visit_entry scan e).
Proof.
  intros Hs. unfold visit_entry. apply preserves_bind.
  - now apply accounted_event.
  - intros _. destruct (snd e); [apply Hs | apply preserves_ret | apply preserves_ret].
Qed.

Lemma accounted_visit_input (env : Env) (scan : path -> FileEnv -> M unit)
      (recursive : bool) (p : path) :
  (forall q f, preserves accounted (scan q f)) ->
  preserves accounted (visit_input env scan recursive p).
Proof.
  intros Hs. unfold visit_input. apply preserves_bind.
  - now apply accounted_event.
  - intros _. destruct (env_fs env p) as [[f | entries |] |].
    + apply Hs.
    + apply preserves_bind; [now apply accounted_event | intros _].
      apply preserves_bind; [now apply accounted_event | intros _].
      apply preserves_for_each. intros e. now apply accounted_visit_entry.
    + now apply accounted_event.
    + now apply accounted_event.
Qed.

Lemma accounted_missing_inputs (env : Env) (inputs : list path) :
  preserves accounted (missing_inputs env inputs).
Proof.
  induction inputs as [|p rest IH]; simpl.
  - apply preserves_ret.
  - apply preserves_bind; [now apply accounted_event | intros _].
    apply preserves_bind; [exact IH | intros ms]. apply preserves_ret.
Qed.

Lemma accounted_main_try (env : Env) (args : Args) (color : bool) (lg : Logger) :
  preserves accounted (main_try env args color lg).
Proof.
  unfold main_try. destruct (re_compile (a_regex args) (a_ignore_case args)) as [ex | rx].
  - apply preserves_bind; [now apply accounted_log | intros _].
    apply preserves_bind; [apply accounted_eprint | intros _]. apply preserves_ret.
  - apply preserves_bind; [apply accounted_missing_inputs | intros missing].
    destruct missing as [|m ms].
    + apply preserves_bind; [| intros _; apply preserves_ret].
      unfold scan_inputs. apply preserves_for_each. intros p.
      apply accounted_visit_input. intros q f. apply accounted_grep_file.
    + apply preserves_bind.
      * apply preserves_for_each. intros x. now apply accounted_log.
      * intros _. apply preserves_bind; [apply accounted_eprint | intros _].
        apply preserves_ret.
Qed.

(** Whatever the inputs, the accounting holds when [main] ends. *)
Lemma accounted_main (env : Env) (args : Args) :
  accounted (snd (main env args Run0)).
Proof.
  unfold main, main_around, setup_logging.
  destruct (env_logs env) eqn:Hlogs.
  - set (color := match a_color args with
                  | ColorAuto => supports_color (env_stdout_isatty env)
                  | ColorAlways => true
                  | ColorNever => false
                  end).
    unfold bind, event, log, bind, write_log, eprint, upd_stats, get_stats, ret,
      logger_level.
    destruct (a_debug args); simpl;
      match goal with
      | |- context [main_try ?e ?a ?c ?l ?r] =>
          assert (H : accounted r) by (split; reflexivity);
          apply (accounted_main_try e a c l) in H;
          destruct (main_try e a c l r) as [code r']
      end;
      simpl in *; split; accounting.
  - run_step. split; reflexivity.
  - run_step. split; reflexivity.
Qed.

End Preservation.

(** C3, as the specification states it, fails: a file whose reading fails
    after it has been opened is counted in [files_read] and is logged as an
    I/O error as well.  Here one file is seen and read, and one I/O error is
    logged: 1 <> 1 + 0 + 1. *)
Lemma C3_counterexample :
  let r := snd (grep_file (RE := Re.lib) "path" rx_error false false false quiet
                          failing_file Run0) in
  files_seen (stats r) = 1 /\ files_read (stats r) = 1
  /\ files_skipped_binary (stats r) = 0 /\ io_errors (logfile r) = 1
  /\ files_seen (stats r)
     <> files_read (stats r) + files_skipped_binary (stats r) + io_errors (logfile r).
Proof. vm_compute. repeat split; discriminate. Qed.

(** C3, amended.  After every call of the file scanner, and at the end of
    every run of [main], [files_seen] is the sum of [files_read], of
    [files_skipped_binary] and of the number of files that could not be
    opened for line reading; the logged I/O errors are those files and the
    ones (counted in [files_read]) whose reading failed after the open. *)
Theorem C3_files_accounted {RE : ReLib} (filepath : path) (rx : Pattern)
        (invert count_only color : bool) (lg : Logger) (f : FileEnv) (r : Run)
        (env : Env) (args : Args) :
  accounted r ->
  accounted (snd (grep_file filepath rx invert count_only color lg f r))
  /\ accounted (snd (main env args Run0)).
Proof.
  intros H. split.
  - now apply accounted_grep_file.
  - apply accounted_main.
Qed.

Lemma C3_files_accounted_witness :
  accounted Run0
  /\ accounted (snd (grep_file (RE := Re.lib) "path" rx_error false false false quiet
                               failing_file Run0))
  /\ accounted (snd (main (RE := Re.lib) scenario_env bad_pattern_args Run0)).
Proof.
  split.
  - split; reflexivity.
  - apply (C3_files_accounted (RE := Re.lib) "path" rx_error false false false quiet
                              failing_file scenario_env bad_pattern_args (r := Run0)).
    split; reflexivity.
Defined.

Lemma no_nul_false_iff (chunk : list byte) : no_nul chunk = false <-> In NUL chunk.
Proof.
  unfold no_nul. rewrite negb_false_iff, existsb_exists. split.
  - intros (b & Hin & Heq). apply Byte.byte_dec_bl in Heq. now subst.
  - intros Hin. exists NUL. split; [exact Hin | reflexivity].
Qed.

(** C5 (binary exclusion).  The classifier answers false exactly when the
    file cannot be opened or read, or the sample, the first 4096 bytes at
    most, contains a NUL byte.  A file it answers false for is not opened
    for line reading; it adds one to [files_skipped_binary], nothing to
    [files_read] or [lines_seen], and nothing to the output. *)
Theorem C5_binary_exclusion {RE : ReLib} (filepath : path) (rx : Pattern)
        (invert count_only color : bool) (lg : Logger) (f : FileEnv) (r : Run) :
  let is_text := fst (is_probably_text_file filepath f default_sample_size r) in
  let scan := grep_file filepath rx invert count_only color lg f in
  (is_text = false <->
     (exists ex, as_binary f = BinOpenError ex)
     \/ (exists ex, as_binary f = BinReadError ex)
     \/ (exists content, as_binary f = BinContent content
                         /\ In NUL (firstn 4096 content)))
  /\ (is_text = false ->
      (forall p ok, ~ In (EvOpenText p ok) (accessed scan r))
      /\ files_skipped_binary (stats (snd (scan r))) = S (files_skipped_binary (stats r))
      /\ files_read (stats (snd (scan r))) = files_read (stats r)
      /\ lines_seen (stats (snd (scan r))) = lines_seen (stats r)
      /\ emitted scan r = []).
Proof.
  intros is_text scan. subst is_text scan.
  rewrite is_probably_text_file_spec. simpl. split.
  - unfold classified_text. destruct (as_binary f) as [ex | ex | content].
    + split; [eauto | reflexivity].
    + split; [eauto | reflexivity].
    + rewrite no_nul_false_iff. split.
      * intros H. right. right. eauto.
      * intros [[ex H] | [[ex H] | (c & [= <-] & H)]]; try discriminate. exact H.
  - intros Hc. unfold accessed, emitted.
    rewrite (@grep_file_binary _ filepath rx invert count_only color lg f r Hc).
    simpl. rewrite skipn_app_exact, skipn_exact. repeat split.
    intros p ok Hin. unfold binary_events in Hin.
    destruct (as_binary f); simpl in Hin; intuition discriminate.
Qed.

Lemma C5_binary_exclusion_witness :
  fst (is_probably_text_file "d/b.bin" binary_file default_sample_size Run0) = false
  /\ (let scan := grep_file (RE := Re.lib) "d/b.bin" rx_error false false false quiet
                            binary_file in
      (forall p ok, ~ In (EvOpenText p ok) (accessed scan Run0))
      /\ files_skipped_binary (stats (snd (scan Run0))) = 1
      /\ files_read (stats (snd (scan Run0))) = 0
      /\ lines_seen (stats (snd (scan Run0))) = 0
      /\ emitted scan Run0 = []).
Proof.
  split.
  - reflexivity.
  - apply (proj2 (C5_binary_exclusion (RE := Re.lib) "d/b.bin" rx_error false false
                                      false quiet binary_file Run0)).
    reflexivity.
Defined.

Lemma interesting_none {RE : ReLib} (rx : Pattern) (invert : bool) (start : nat)
      (raws : list string) :
  (forall raw, In raw raws -> line_ok rx invert (rstrip_nl raw) = false) ->
  interesting rx invert start raws = [].
Proof.
  unfold interesting. revert start.
  induction raws as [|raw rest IH]; intros start Hnone; simpl.
  - reflexivity.
  - rewrite (Hnone raw) by now left. apply IH.
    intros raw' Hin. apply Hnone. now right.
Qed.

(** C6, as the specification states it, fails: a file that passes the
    classifier and then cannot be opened gets no count line, and
    [lines_reported] does not move. *)
Lemma C6_counterexample :
  let scan := grep_file (RE := Re.lib) "path" rx_error false true false quiet
                        revoked_file in
  fst (is_probably_text_file "path" revoked_file default_sample_size Run0) = true
  /\ emitted scan Run0 = []
  /\ ~ (exists n c, emitted scan Run0 = [CountLine "path" n c])
  /\ lines_reported (stats (snd (scan Run0))) <> S (lines_reported (stats Run0)).
Proof.
  vm_compute. repeat split; try discriminate.
  intros (n & c & H). discriminate.
Qed.

(** C6, amended.  In CountPerFile mode, for every file that passes the
    classifier and is then opened and read to its end, the scanner prints
    exactly one line, [path:count], once all the lines have been seen; the
    count is the number of interesting lines, 0 when there is none; and
    [lines_reported] grows by exactly 1. *)
Theorem C6_count_line_per_file {RE : ReLib} (filepath : path) (rx : Pattern)
        (invert color : bool) (lg : Logger) (f : FileEnv) (raws : list string)
        (r : Run) :
  read_to_end f raws ->
  let scan := grep_file filepath rx invert true color lg f in
  let count := List.length (interesting rx invert 1 raws) in
  emitted scan r = [CountLine filepath count color]
  /\ render (CountLine filepath count color)
     = colorize (filepath ++ ":") ANSI_DIM color ++ str_of_nat count
  /\ ((forall raw, In raw raws -> line_ok rx invert (rstrip_nl raw) = false) ->
      emitted scan r = [CountLine filepath 0 color])
  /\ lines_reported (stats (snd (scan r))) = S (lines_reported (stats r))
  /\ lines_seen (stats (snd (scan r))) = List.length raws + lines_seen (stats r).
Proof.
  intros Hread scan count. subst scan count.
  rewrite (emitted_count_mode _ _ _ _ _ _ Hread).
  destruct Hread as [Hc Ht].
  rewrite (@grep_file_read_ok _ filepath rx invert true color lg f raws r Hc Ht).
  simpl. repeat split.
  intros Hnone. now rewrite interesting_none.
Qed.

(** On the scenario file with the pattern [error]: one line, [path:1]. *)
Lemma C6_count_line_per_file_witness :
  read_to_end scenario_file scenario_raws
  /\ (let scan := grep_file (RE := Re.lib) "path" rx_error false true false quiet
                            scenario_file in
      let count := List.length (interesting (RE := Re.lib) rx_error false 1
                                            scenario_raws) in
      emitted scan Run0 = [CountLine "path" count false]
      /\ render (CountLine "path" count false)
         = colorize ("path" ++ ":") ANSI_DIM false ++ str_of_nat count
      /\ ((forall raw, In raw scenario_raws ->
                       line_ok (RE := Re.lib) rx_error false (rstrip_nl raw) = false) ->
          emitted scan Run0 = [CountLine "path" 0 false])
      /\ lines_reported (stats (snd (scan Run0))) = 1
      /\ lines_seen (stats (snd (scan Run0))) = 3 + 0).
Proof.
  split.
  - split; reflexivity.
  - apply (C6_count_line_per_file (RE := Re.lib) "path" rx_error false false quiet
                                  (f := scenario_file) (raws := scenario_raws) Run0).
    split; reflexivity.
Defined.

(* ================================================================= *)
(** ** The run *)

(** C7, as the specification states it, fails: with the pattern [(], which
    does not compile, the run has already created the log directory and
    opened and written the log file when the pattern is rejected. *)
Lemma C7_counterexample :
  let r := snd (main (RE := Re.lib) scenario_env bad_pattern_args Run0) in
  @re_compile Re.lib (a_regex bad_pattern_args) (a_ignore_case bad_pattern_args)
  = inl "missing ), unterminated subpattern"
  /\ trace r = [EvMkdir "/work/logs"; EvOpenLog "/work/logs/log_2024-01-01_00-00-00.txt"]
  /\ trace r <> []
  /\ List.length (logfile r) = 6.
Proof. vm_compute. repeat split. discriminate. Qed.

(** C7, amended.  When the pattern text does not compile and the log file
    could be set up, the run ends with exit code 2 without touching any
    input: the only file system accesses are the creation of the log
    directory and the opening of the log file, nothing is printed on
    standard output, the statistics are all zero, and the error is logged
    (after the four records of the start of the run) and is the first thing
    reported on standard error. *)
Theorem C7_invalid_pattern_fails_fast {RE : ReLib} (env : Env) (args : Args)
        (ex : string) :
  re_compile (a_regex args) (a_ignore_case args) = inl ex ->
  env_logs env = LogsReady ->
  let color := match a_color args with
               | ColorAlways => true
               | ColorNever => false
               | ColorAuto => supports_color (env_stdout_isatty env)
               end in
  let r := snd (main env args Run0) in
  fst (main env args Run0) = Exit 2
  /\ trace r = [EvMkdir (joinpath (env_cwd env) "logs"); EvOpenLog (log_path_of env)]
  /\ (forall e, In e (trace r) ->
                match e with EvMkdir _ | EvOpenLog _ => True | _ => False end)
  /\ stdout r = []
  /\ stats r = Stats0
  /\ stderr r = [ErrLog ERROR (LogInvalidRegex ex);
                 ErrPrint (colorize ("Invalid regex: " ++ ex) ANSI_RED color);
                 ErrPrint (colorize ("Log written to: " ++ log_path_of env)
                                    ANSI_CYAN color)]
  /\ logfile r = [(INFO, LogStarted (log_path_of env));
                  (INFO, LogCwd (env_cwd env));
                  (INFO, LogArgs (env_argv env));
                  (INFO, LogOptions (a_recursive args) (a_ignore_case args)
                                    (a_invert args) (a_count args) (a_color args)
                                    (a_debug args));
                  (ERROR, LogInvalidRegex ex);
                  (INFO, LogPerformance Stats0)].
Proof.
  intros Hre Hlogs color r. subst r.
  unfold main, main_around, setup_logging, main_try. rewrite Hlogs, Hre.
  unfold bind, event, log, bind, write_log, eprint, upd_stats, get_stats, ret,
    logger_level.
  destruct (a_debug args);
    cbn [fst snd stats stdout stderr logfile trace app lg_debug level_rank Nat.leb
         Run0];
    (split; [reflexivity |]); (split; [reflexivity |]);
    (split; [intros e [<- | [<- | []]]; exact I |]);
    (split; [reflexivity |]); (split; [reflexivity |]);
    (split; [reflexivity |]); reflexivity.
Qed.

Lemma C7_invalid_pattern_fails_fast_witness :
  @re_compile Re.lib (a_regex bad_pattern_args) (a_ignore_case bad_pattern_args)
  = inl "missing ), unterminated subpattern"
  /\ env_logs scenario_env = LogsReady
  /\ fst (main (RE := Re.lib) scenario_env bad_pattern_args Run0) = Exit 2
  /\ trace (snd (main (RE := Re.lib) scenario_env bad_pattern_args Run0))
     = [EvMkdir (joinpath (env_cwd scenario_env) "logs");
        EvOpenLog (log_path_of scenario_env)].
Proof.
  split; [reflexivity |]. split; [reflexivity |].
  destruct (C7_invalid_pattern_fails_fast (RE := Re.lib) scenario_env
              bad_pattern_args (ex := "missing ), unterminated subpattern")
              eq_refl eq_refl) as (Hexit & Htrace & _).
  split; [exact Hexit | exact Htrace].
Defined.

Section RunFacts.
Context {RE : ReLib}.
Variables (rx : Pattern) (invert count_only color : bool) (lg : Logger).

Local Abbreviation scan :=
  (fun fp f => grep_file fp rx invert count_only color lg f).

Lemma grep_file_files_seen (filepath : path) (f : FileEnv) (r : Run) :
  seen (snd (scan filepath f r)) = seen r + 1.
Proof.
  unfold seen. destruct (classified_text f) eqn:Hc.
  - destruct (as_text f) as [ex | raws [ex|]] eqn:Ht.
    + rewrite (@grep_file_open_error _ filepath rx invert count_only color lg f ex r Hc Ht).
      simpl. lia.
    + rewrite (@grep_file_read_error _ filepath rx invert count_only color lg f raws ex r Hc Ht).
      simpl. lia.
    + rewrite (@grep_file_read_ok _ filepath rx invert count_only color lg f raws r Hc Ht).
      simpl. lia.
  - rewrite (@grep_file_binary _ filepath rx invert count_only color lg f r Hc).
    simpl. lia.
Qed.

Lemma visit_entry_files_seen (e : path * Node) (r : Run) :
  seen (snd (visit_entry scan e r)) = seen r + List.length (files_of [e]).
Proof.
  unfold visit_entry, bind, event. simpl. destruct (snd e); simpl.
  - rewrite grep_file_files_seen. unfold seen. simpl. lia.
  - unfold seen. simpl. lia.
  - unfold seen. simpl. lia.
Qed.

Lemma files_of_length (l : list (path * Node)) :
  List.length (files_of l) = list_sum (map (fun e => List.length (files_of [e])) l).
Proof.
  induction l as [|e l IH]; simpl; [reflexivity |].
  unfold files_of in *. simpl. rewrite length_app, IH, app_nil_r. reflexivity.
Qed.

(** Every file among the entries is scanned, whatever happens to the
    others. *)
Lemma for_each_entries_files_seen (l : list (path * Node)) (r : Run) :
  seen (snd (for_each l (visit_entry scan) r)) = seen r + List.length (files_of l).
Proof.
  rewrite files_of_length. apply for_each_counts.
  intros e r' _. apply visit_entry_files_seen.
Qed.

Lemma scan_inputs_files_seen (env : Env) (inputs : list path) (recursive : bool)
      (r : Run) :
  seen (snd (scan_inputs env scan inputs recursive r))
  = seen r + List.length (iter_files env inputs recursive).
Proof.
  unfold scan_inputs, iter_files. rewrite length_flat_map.
  apply for_each_counts. intros p r' _.
  unfold visit_input, bind, event. simpl.
  destruct (env_fs env p) as [[f | entries |] |]; simpl.
  - rewrite grep_file_files_seen. unfold seen. simpl. lia.
  - rewrite for_each_entries_files_seen. unfold seen. simpl. lia.
  - unfold seen. simpl. lia.
  - unfold seen. simpl. lia.
Qed.

End RunFacts.

(** The existence test changes nothing but the trace, and finds nothing
    missing when every input exists. *)
Lemma missing_inputs_spec (env : Env) (inputs : list path) (r : Run) :
  missing_inputs env inputs r
  = (filter (fun p => match env_fs env p with None => true | Some _ => false end)
            inputs,
     mkRun (stats r) (stdout r) (stderr r) (logfile r)
           (trace r ++ map EvStat inputs)).
Proof.
  revert r; induction inputs as [|p rest IH]; intros r; simpl.
  - unfold ret. rewrite app_nil_r. now destruct r.
  - unfold bind, event. rewrite IH. simpl. unfold ret. rewrite <- app_assoc. simpl.
    destruct (env_fs env p); reflexivity.
Qed.

(** When the log file is set up, the pattern compiles and every input
    exists, [main] returns 0 and every file [iter_files] yields has been
    seen, whatever happened to each of them. *)
Lemma main_scans_every_file {RE : ReLib} (env : Env) (args : Args) (rx : Pattern) :
  env_logs env = LogsReady ->
  re_compile (a_regex args) (a_ignore_case args) = inr rx ->
  (forall p, In p (inputs_of args) -> env_fs env p <> None) ->
  fst (main env args Run0) = Exit 0
  /\ seen (snd (main env args Run0))
     = List.length (iter_files env (inputs_of args) (a_recursive args)).
Proof.
  intros Hlogs Hre Hall.
  unfold main, main_around, setup_logging, main_try. rewrite Hlogs, Hre.
  fold (inputs_of args).
  set (color := match a_color args with
                | ColorAuto => supports_color (env_stdout_isatty env)
                | ColorAlways => true
                | ColorNever => false
                end).
  pose proof (fun b => scan_inputs_files_seen rx (a_invert args) (a_count args) color
                         (mkLogger b) env (inputs_of args) (a_recursive args))
    as Hbody.
  assert (Hnone : filter (fun p => match env_fs env p with
                                   | None => true | Some _ => false end)
                         (inputs_of args) = []).
  { revert Hall. generalize (inputs_of args) as l.
    induction l as [|p l IH]; intros Hall; simpl; [reflexivity |].
    destruct (env_fs env p) eqn:E.
    - apply IH. intros q Hq. apply Hall. now right.
    - exfalso. apply (Hall p); [now left | exact E]. }
  unfold bind, event, log, bind, write_log, eprint, upd_stats, get_stats, ret,
    logger_level.
  destruct (a_debug args);
    cbn [fst snd stats stdout stderr logfile trace app lg_debug level_rank Nat.leb
         Run0];
    rewrite missing_inputs_spec, Hnone;
    match goal with
    | |- context [scan_inputs ?e ?s ?i ?rec ?r] =>
        pose proof (Hbody true r) as Ht; pose proof (Hbody false r) as Hf;
        destruct (scan_inputs e s i rec r) as [u r'] eqn:E
    end;
    unfold seen in *; try rewrite E in Ht; try rewrite E in Hf;
    cbn [fst snd stats stdout stderr logfile trace files_seen Stats0 Nat.add] in *;
    (split; [reflexivity | first [exact Ht | exact Hf]]).
Qed.

(** C8.  A file that passes the classifier and then cannot be opened: the
    scanner returns normally; it logs one error, for that file, and prints
    nothing; of the counters only [files_seen] moves; and the loop goes on:
    the entries that follow are visited from the state the failed scan
    left, and each file among them is scanned. *)
Theorem C8_open_failure_is_local {RE : ReLib} (filepath : path) (rx : Pattern)
        (invert count_only color : bool) (lg : Logger) (f : FileEnv) (ex : OSError)
        (r : Run) (rest : list (path * Node)) :
  classified_text f = true ->
  as_text f = TextOpenError ex ->
  let scan := fun fp g => grep_file fp rx invert count_only color lg g in
  let r1 := snd (scan filepath f r) in
  logged (scan filepath f) r = [(ERROR, LogCannotRead filepath ex)]
  /\ complained (scan filepath f) r = [ErrLog ERROR (LogCannotRead filepath ex)]
  /\ emitted (scan filepath f) r = []
  /\ stats r1 = incr_files_seen (stats r)
  /\ files_read (stats r1) = files_read (stats r)
  /\ for_each ((filepath, File f) :: rest) (visit_entry scan) r
     = for_each rest (visit_entry scan)
                (snd (visit_entry scan (filepath, File f) r))
  /\ seen (snd (for_each ((filepath, File f) :: rest) (visit_entry scan) r))
     = seen r + 1 + List.length (files_of rest).
Proof.
  intros Hc Ht scan r1. subst r1.
  assert (Hscan : scan filepath f r
                  = (tt, mkRun (incr_files_seen (stats r)) (stdout r)
                               (stderr r ++ [ErrLog ERROR (LogCannotRead filepath ex)])
                               (logfile r ++ [(ERROR, LogCannotRead filepath ex)])
                               (trace r ++ binary_events filepath f
                                        ++ [EvOpenText filepath false])))
    by (apply grep_file_open_error; assumption).
  unfold logged, complained, emitted. rewrite Hscan.
  cbn [snd stats stdout stderr logfile].
  rewrite !skipn_app_exact, skipn_exact.
  split; [reflexivity |]. split; [reflexivity |]. split; [reflexivity |].
  split; [reflexivity |]. split; [reflexivity |]. split.
  - cbn [for_each]. unfold bind at 1.
    destruct (visit_entry scan (filepath, File f) r) as [[] r'].
    reflexivity.
  - subst scan. rewrite for_each_entries_files_seen.
    unfold files_of. simpl. lia.
Qed.

(** The file whose permission was revoked, followed by the scenario file:
    the failure is logged, the scenario file is still scanned. *)
Lemma C8_open_failure_is_local_witness :
  classified_text revoked_file = true
  /\ as_text revoked_file = TextOpenError "[Errno 13] Permission denied"
  /\ (let scan := fun fp g =>
                    grep_file (RE := Re.lib) fp rx_error false false false quiet g in
      seen (snd (for_each [("d/a.txt", File revoked_file);
                           ("d/b.txt", File scenario_file)]
                          (visit_entry scan) Run0))
      = seen Run0 + 1 + List.length (files_of [("d/b.txt", File scenario_file)])).
Proof.
  split; [reflexivity |]. split; [reflexivity |].
  destruct (@C8_open_failure_is_local Re.lib "d/a.txt" rx_error false false false
              quiet revoked_file "[Errno 13] Permission denied" Run0
              [("d/b.txt", File scenario_file)] eq_refl eq_refl)
    as (_ & _ & _ & _ & _ & _ & H).
  exact H.
Defined.

(* ================================================================= *)
(** ** The highlighter *)

(** C9.  The first-match highlighter preserves the content of the line:
    when highlighting is disabled or the pattern does not match, it returns
    the line itself; otherwise it returns the line with the highlight
    marker put in front of the span of the first match and the reset marker
    put behind it, and cutting these two markers out again gives back the
    line.  (The span is the one [search] returns, which the library
    guarantees to lie inside the line; for the engine of [Re] it is a match
    and no match starts further left.) *)
Theorem C9_highlight_preserves_content {RE : ReLib} (line : string) (rx : Pattern)
        (enabled : bool) :
  (forall a b, re_search rx line = Some (a, b) -> a <= b <= String.length line) ->
  let out := highlight_regex_first line rx enabled in
  (enabled = false -> out = line)
  /\ (re_search rx line = None -> out = line)
  /\ (forall a b, enabled = true -> re_search rx line = Some (a, b) ->
        out = take a line ++ ANSI_YELLOW ++ slice a b line ++ ANSI_RESET
                   ++ drop b line
        /\ erase a (String.length ANSI_YELLOW)
                 (erase (a + String.length ANSI_YELLOW + (b - a))
                        (String.length ANSI_RESET) out)
           = line)
  /\ (forall (rx0 : Re.compiled) l a b,
         Re.search rx0 l = Some (a, b) ->
         Re.matches (Re.rx_ignore_case rx0) l (Re.rx_ast rx0) a b
         /\ forall a' b', a' < a ->
                          ~ Re.matches (Re.rx_ignore_case rx0) l (Re.rx_ast rx0) a' b').
Proof.
  intros Hspan out. subst out. unfold highlight_regex_first.
  split; [| split; [| split]]; cycle 3.
  - intros rx0 l a b E. unfold Re.search in E. apply search_from_some in E.
    destruct E as (_ & Hm & Hfirst). split; [exact Hm |].
    intros a' b' Ha'. apply Hfirst. lia.
  - intros ->. reflexivity.
  - intros ->. now destruct (negb enabled).
  - intros a b -> E. rewrite E. simpl negb. cbv iota. split; [reflexivity |].
    destruct (Hspan a b E) as [Hab Hb].
    set (pre := take a line). set (mid := slice a b line). set (post := drop b line).
    assert (Hpre : String.length pre = a) by (apply length_take; lia).
    assert (Hmid : String.length mid = b - a) by (apply length_slice; lia).
    replace (pre ++ ANSI_YELLOW ++ mid ++ ANSI_RESET ++ post)
      with ((pre ++ ANSI_YELLOW ++ mid) ++ ANSI_RESET ++ post)
      by (now rewrite !append_assoc).
    replace (a + String.length ANSI_YELLOW + (b - a))
      with (String.length (pre ++ ANSI_YELLOW ++ mid))
      by (rewrite !length_append; lia).
    rewrite erase_inserted.
    replace ((pre ++ ANSI_YELLOW ++ mid) ++ post)
      with (pre ++ ANSI_YELLOW ++ (mid ++ post))
      by (now rewrite !append_assoc).
    rewrite <- Hpre at 1. rewrite erase_inserted.
    subst pre mid post. now apply slices_recompose.
Qed.

(** The line [error: boom] with the pattern [error]: the span is (0, 5). *)
Lemma C9_highlight_preserves_content_witness :
  (forall a b, re_search (ReLib := Re.lib) rx_error "error: boom" = Some (a, b) ->
               a <= b <= String.length "error: boom")
  /\ highlight_regex_first (RE := Re.lib) "error: boom" rx_error true
     = ANSI_YELLOW ++ "error" ++ ANSI_RESET ++ ": boom"
  /\ erase 0 (String.length ANSI_YELLOW)
           (erase (0 + String.length ANSI_YELLOW + (5 - 0)) (String.length ANSI_RESET)
                  (highlight_regex_first (RE := Re.lib) "error: boom" rx_error true))
     = "error: boom".
Proof.
  assert (Hspan : forall a b,
             re_search (ReLib := Re.lib) rx_error "error: boom" = Some (a, b) ->
             a <= b <= String.length "error: boom").
  { intros a b H. vm_compute in H. injection H as <- <-. simpl. lia. }
  split; [exact Hspan |].
  destruct (C9_highlight_preserves_content (RE := Re.lib) "error: boom" rx_error true
                                           Hspan) as (_ & _ & H & _).
  destruct (H 0 5 eq_refl eq_refl) as [H1 H2].
  split; [exact H1 | exact H2].
Defined.

(* ================================================================= *)
(** ** Line preprocessing *)

(** The claim as it stands fails on a file whose line ends in CR LF: the
    file object delivers the line with a single LF, and what is matched and
    printed is [error], without the carriage return. *)
Lemma C10_counterexample :
  let out := emitted (grep_file (RE := Re.lib) "path" rx_error false false false
                                quiet crlf_file) Run0 in
  as_binary crlf_file = BinContent (list_byte_of_string ("error" ++ CR ++ LF))
  /\ as_text crlf_file = TextLines ["error" ++ LF] None
  /\ out = [ResultLine "path" 1 "error" false]
  /\ out <> [ResultLine "path" 1 ("error" ++ CR) false]
  /\ map render out = ["path:1:error"]
  /\ emitted (process_file (RE := Re.lib) rx_error "path" false false crlf_file) Run0
     = [ResultLine "path" 1 "error" false].
Proof. vm_compute. repeat split. discriminate. Qed.

(** C10, amended.  The scanners strip the trailing line feeds of each line
    the file object delivers and nothing else: the raw line is the stripped
    line followed by line feeds only, the stripped line does not end in one,
    and a carriage return in front of the line feed would stay.  The
    stripped line is what the line test is applied to and what the result
    line [path:lineno:content] carries, in [grep_file] and in [process_file]
    of phase3.py.  But the file object, opened with universal newlines,
    delivers no carriage return: the lines are the text with every CR LF and
    CR turned into LF, cut after each LF, so that the strip takes exactly
    the line terminator; a text whose lines end in CR LF is read as the same
    lines ending in LF, and these are stripped to the lines themselves. *)
Theorem C10_strips_only_line_feeds {RE : ReLib} (filepath : path) (rx : Pattern)
        (invert color : bool) (lg : Logger) (f : FileEnv) (content : string)
        (r : Run) :
  classified_text f = true ->
  as_text f = open_text content ->
  let raws := text_lines content in
  (forall raw, exists k, raw = rstrip_nl raw ++ newlines k)
  /\ (forall raw, last_char (rstrip_nl raw) <> Some "010"%char)
  /\ (forall s, rstrip_nl (s ++ CR ++ LF) = s ++ CR)
  /\ emitted (grep_file filepath rx invert false color lg f) r
     = map (fun e => ResultLine filepath (fst e)
                                (shown_of rx invert color (rstrip_nl (snd e))) color)
           (filter (fun e => line_ok rx invert (rstrip_nl (snd e))) (enumerate 1 raws))
  /\ (forall line, shown_of rx invert false line = line)
  /\ (forall lineno line,
         render (ResultLine filepath lineno line false)
         = filepath ++ ":" ++ str_of_nat lineno ++ ":" ++ line)
  /\ emitted (process_file rx filepath invert false f) r
     = map (fun e => ResultLine filepath (fst e) (rstrip_nl (snd e)) false)
           (filter (fun e => p3_ok rx invert (rstrip_nl (snd e))) (enumerate 1 raws))
  /\ String.concat "" raws = universal_newlines content
  /\ (forall raw, In raw raws ->
         occurs "013" raw = false
         /\ occurs "013" (rstrip_nl raw) = false
         /\ occurs "010" (rstrip_nl raw) = false
         /\ (raw = rstrip_nl raw ++ LF \/ raw = rstrip_nl raw))
  /\ (forall ls,
         (forall l, In l ls -> occurs "013" l = false /\ occurs "010" l = false) ->
         text_lines (String.concat "" (map (fun l => l ++ CR ++ LF) ls))
         = map (fun l => l ++ LF) ls
         /\ map rstrip_nl (map (fun l => l ++ LF) ls) = ls).
Proof.
  intros Hc Ht raws.
  assert (Hread : read_to_end f raws) by (split; [exact Hc | exact Ht]).
  split; [exact rstrip_nl_decompose |].
  split; [exact rstrip_nl_no_trailing_lf |].
  split; [exact rstrip_nl_crlf |].
  split; [exact (emitted_lines_mode _ _ _ _ _ _ Hread) |].
  split; [reflexivity |].
  split.
  { intros lineno line. unfold render, colorize.
    repeat (rewrite append_assoc; simpl). reflexivity. }
  split.
  { destruct Hread as [_ Ht']. unfold emitted.
    rewrite (@process_file_read_ok _ rx filepath invert false f raws r Ht').
    cbn [snd stdout]. apply skipn_app_exact. }
  split; [apply cut_lines_concat |].
  split.
  { intros raw Hin. pose proof (text_lines_no_cr content raw Hin) as Hcr.
    destruct (cut_lines_rstrip _ _ Hin) as [Hlf Hshape].
    split; [exact Hcr |]. split; [exact (occurs_rstrip_nl _ _ Hcr) |].
    split; [exact Hlf | exact Hshape]. }
  intros ls Hls. split; [exact (text_lines_crlf ls Hls) |].
  apply map_rstrip_lf. intros l Hl. exact (proj2 (Hls l Hl)).
Qed.

(** A line [error] that ends in CR LF: it is matched and printed as
    [error]. *)
Lemma C10_strips_only_line_feeds_witness :
  classified_text crlf_file = true
  /\ as_text crlf_file = open_text ("error" ++ CR ++ LF)
  /\ emitted (grep_file (RE := Re.lib) "path" rx_error false false false quiet
                        crlf_file) Run0
     = [ResultLine "path" 1 "error" false]
  /\ emitted (process_file (RE := Re.lib) rx_error "path" false false crlf_file) Run0
     = [ResultLine "path" 1 "error" false].
Proof.
  split; [reflexivity |]. split; [reflexivity |].
  destruct (C10_strips_only_line_feeds (RE := Re.lib) "path" rx_error false false
              quiet crlf_file Run0 eq_refl eq_refl)
    as (_ & _ & _ & H1 & _ & _ & H3 & _).
  split; [exact H1 | exact H3].
Defined.

(* ================================================================= *)
(** ** The line test *)

Lemma get_last (s : string) :
  String.get (String.length s - 1) s = last_char s.
Proof.
  induction s as [|c s IH]; simpl; [reflexivity |].
  destruct s as [|d s]; [reflexivity |].
  simpl in *. rewrite Nat.sub_0_r in IH. exact IH.
Qed.

(** On a line that does not end in a line feed, [$] only holds at the
    end. *)
Lemma at_end_stripped (s : string) (p : nat) :
  last_char s <> Some "010"%char ->
  (Re.at_end s p = true <-> p = String.length s).
Proof.
  intros Hlast. unfold Re.at_end. rewrite orb_true_iff, andb_true_iff, !Nat.eqb_eq.
  split; [| auto].
  intros [H | [H1 H2]]; [exact H |].
  exfalso. replace p with (String.length s - 1) in H2 by lia.
  rewrite get_last in H2. destruct (last_char s) as [d|]; [| discriminate].
  apply Ascii.eqb_eq in H2. congruence.
Qed.

Lemma matched_iff_search {RE : ReLib} (rx : Pattern) (line : string) :
  matched rx line = true <-> re_search rx line <> None.
Proof.
  unfold matched. destruct (re_search rx line); split; congruence.
Qed.

(** C4.  The line test computes whether the search of the pattern in the
    line succeeds, and returns that under the Normal policy and its negation
    under the Inverted policy, in [grep_file] and in [process_file] of
    phase3.py alike.  For the engine of [Re], the search succeeds exactly
    when the pattern matches some stretch of the line, wherever it starts
    and ends; a pattern anchored by [^] and [$] has to match the whole
    (stripped) line. *)
Theorem C4_line_test (rx : Re.compiled) (line : string) :
  let found := exists a b, a <= b <= String.length line
                           /\ Re.matches (Re.rx_ignore_case rx) line (Re.rx_ast rx) a b in
  (forall (RE : ReLib) (rx' : Pattern) (invert : bool) (l : string),
      line_ok rx' invert l = (if invert then negb (matched rx' l) else matched rx' l)
      /\ p3_ok rx' invert l = line_ok rx' invert l
      /\ (matched rx' l = true <-> re_search rx' l <> None))
  /\ (line_ok (RE := Re.lib) rx false line = true <-> found)
  /\ (line_ok (RE := Re.lib) rx true line = true <-> ~ found)
  /\ (p3_ok (RE := Re.lib) rx false line = true <-> found)
  /\ (p3_ok (RE := Re.lib) rx true line = true <-> ~ found)
  /\ (forall r ic raw,
         Re.search (Re.mkCompiled (Re.Cat Re.Bol (Re.Cat r Re.Eol)) ic) (rstrip_nl raw)
         <> None
         <-> Re.matches ic (rstrip_nl raw) r 0 (String.length (rstrip_nl raw))).
Proof.
  intros found.
  assert (Hn : line_ok (RE := Re.lib) rx false line = true <-> found).
  { unfold line_ok. rewrite matched_iff_search. apply search_succeeds_iff. }
  assert (Hv : line_ok (RE := Re.lib) rx true line = true <-> ~ found).
  { rewrite line_ok_inverts, negb_true_iff. rewrite <- Hn.
    destruct (line_ok (RE := Re.lib) rx false line); split; congruence. }
  split; [| split; [exact Hn | split; [exact Hv | split; [exact Hn | split; [exact Hv |]]]]].
  - intros RE rx' invert l. split; [reflexivity |]. split; [reflexivity |].
    apply matched_iff_search.
  - intros r ic raw. rewrite search_succeeds_iff. simpl.
    set (s := rstrip_nl raw).
    assert (Hlast : last_char s <> Some "010"%char)
      by apply rstrip_nl_no_trailing_lf.
    split.
    + intros (a & b & _ & Hm).
      inversion Hm as [ | | | | | r1 r2 p q t Hbol Hrest | | | | ]; subst.
      inversion Hbol; subst.
      inversion Hrest as [ | | | | | r1 r2 p q t Hr Heol | | | | ]; subst.
      inversion Heol as [ | | | | p Hend | | | | | ]; subst.
      apply at_end_stripped in Hend; [| exact Hlast]. subst. exact Hr.
    + intros Hm. exists 0, (String.length s). split; [lia |].
      eapply Re.m_cat; [constructor |].
      eapply Re.m_cat; [exact Hm |].
      constructor. apply at_end_stripped; [exact Hlast | reflexivity].
Qed.

(** On the scenario file: the count line says 1, and a Lines scan prints one
    line. *)
Lemma C2_count_law_witness :
  printed_counts (emitted (grep_file (RE := Re.lib) "path" rx_error false true false
                                     quiet scenario_file) Run0)
  = [1]
  /\ List.length (emitted (grep_file (RE := Re.lib) "path" rx_error false false false
                                     quiet scenario_file) Run0)
     = 1.
Proof.
  destruct (C2_count_law (RE := Re.lib) "path" rx_error false false false quiet quiet
                         scenario_file Run0 Run0) as (H & _ & Hin & _).
  split; [exact H |].
  symmetry. apply Hin. rewrite H. left. reflexivity.
Defined.

(** The line [error: boom] and the pattern [error]: the stretch from 0 to 5
    matches, so the line is interesting under Normal. *)
Lemma C4_line_test_witness :
  line_ok (RE := Re.lib) rx_error false "error: boom" = true.
Proof.
  apply (proj1 (proj2 (C4_line_test rx_error "error: boom"))).
  exists 0, 5. split; [simpl; lia |].
  apply ends_sound. vm_compute. left. reflexivity.
Defined.

(* ================================================================= *)
(** ** The scenarios of the specification, and the engine on examples *)

Example compile_error_pattern : Re.compile "error" false = inr rx_error.
Proof. reflexivity. Qed.

Example compile_rejects_open_group :
  Re.compile "(" false = inl "missing ), unterminated subpattern".
Proof. reflexivity. Qed.

Example compile_rejects_leading_star : Re.compile "*a" false = inl "nothing to repeat".
Proof. reflexivity. Qed.

Example search_is_leftmost_first_alternative :
  match Re.compile "a|ab" false with
  | inr rx => Re.search rx "xxab"
  | inl _ => None
  end = Some (2, 3).
Proof. reflexivity. Qed.

Example search_ignore_case :
  match Re.compile "ERR" true with
  | inr rx => Re.search rx "an error"
  | inl _ => None
  end = Some (3, 6).
Proof. reflexivity. Qed.

(** Scenario A: [path:2:error: boom], three lines seen, one reported. *)
Example scenario_A :
  let r := snd (grep_file (RE := Re.lib) "path" rx_error false false false quiet
                          scenario_file Run0) in
  map render (stdout r) = ["path:2:error: boom"]
  /\ lines_seen (stats r) = 3 /\ lines_reported (stats r) = 1.
Proof. repeat split. Qed.

(** Scenario B: with [-c], the one line [path:1]. *)
Example scenario_B :
  map render (stdout (snd (grep_file (RE := Re.lib) "path" rx_error false true false
                                     quiet scenario_file Run0)))
  = ["path:1"].
Proof. reflexivity. Qed.

(** Scenario C: with [-v], the lines 1 and 3. *)
Example scenario_C :
  map render (stdout (snd (grep_file (RE := Re.lib) "path" rx_error true false false
                                     quiet scenario_file Run0)))
  = ["path:1:ok"; "path:3:ok"].
Proof. reflexivity. Qed.

(** Scenario D: an input that does not exist: exit code 2, no output. *)
Example scenario_D :
  let run := main (RE := Re.lib) scenario_env
                  (mkArgs "error" ["nowhere"] true false false false ColorNever false)
                  Run0 in
  fst run = Exit 2 /\ stdout (snd run) = []
  /\ In (ErrLog ERROR (LogPathNotFound "nowhere")) (stderr (snd run)).
Proof. vm_compute. repeat split. left. reflexivity. Qed.

(** Scenario E: a directory with a text file and a binary file. *)
Example scenario_E :
  let run := main (RE := Re.lib) scenario_env
                  (mkArgs "error" ["d"] true false false false ColorNever false)
                  Run0 in
  fst run = Exit 0
  /\ map render (stdout (snd run)) = ["d/a.txt:2:error: boom"]
  /\ stats (snd run) = mkStats 2 1 1 3 1.
Proof. vm_compute. repeat split. Qed.

(** With colors, the prefix is dimmed and the first match is highlighted. *)
Example colored_result_line :
  map render (stdout (snd (grep_file (RE := Re.lib) "path" rx_error false false true
                                     quiet scenario_file Run0)))
  = [ANSI_DIM ++ "path:2:" ++ ANSI_RESET
     ++ ANSI_YELLOW ++ "error" ++ ANSI_RESET ++ ": boom"].
Proof. reflexivity. Qed.

(** Paths, as pathlib writes them. *)
Example Path_examples :
  map Path ["./t//d1/"; "."; ""; "/"; "//"; "///a"; "//a"; "a/./b/../c"; "./."; "d"]
  = ["t/d1"; "."; "."; "/"; "//"; "/a"; "//a"; "a/b/../c"; "."; "d"].
Proof. reflexivity. Qed.

Example joinpath_examples :
  joinpath "." "t" = "t" /\ joinpath "t" "d1" = "t/d1" /\ joinpath "/" "a" = "/a"
  /\ joinpath "//" "a" = "//a" /\ joinpath ".." "a" = "../a"
  /\ joinpath (joinpath "/work" "logs") "log_x.txt" = "/work/logs/log_x.txt".
Proof. repeat split. Qed.

(** The order of [rglob]: the entries of a directory, then its
    subdirectories in turn; and the order of [os.walk]. *)
Example rglob_order :
  map fst (rglob_node "t" nested_tree)
  = ["t/d2"; "t/d1"; "t/z.txt"; "t/a.txt"; "t/d2/w.txt"; "t/d1/x.txt"; "t/d1/sub";
     "t/d1/sub/.hid"; "t/d1/sub/y.txt"].
Proof. reflexivity. Qed.

Example walk_order :
  map fst (walk_node "t" nested_tree)
  = ["t/z.txt"; "t/a.txt"; "t/d2/w.txt"; "t/d1/x.txt"; "t/d1/sub/.hid";
     "t/d1/sub/y.txt"].
Proof. reflexivity. Qed.

(** Line endings: CR LF and a lone CR end a line as LF does, and the lines
    reach the scanner with LF. *)
Example text_lines_example :
  text_lines ("error" ++ CR ++ LF ++ "abc" ++ CR ++ "error2" ++ CR ++ LF)
  = ["error" ++ LF; "abc" ++ LF; "error2" ++ LF].
Proof. reflexivity. Qed.

Example mixed_line_endings :
  map render
      (stdout (snd (grep_file (RE := Re.lib) "crlf.txt" rx_error false false false quiet
                              (text_file ("error" ++ CR ++ LF ++ "abc" ++ CR
                                          ++ "error2" ++ CR ++ LF))
                              Run0)))
  = ["crlf.txt:1:error"; "crlf.txt:3:error2"].
Proof. reflexivity. Qed.

(** A run over the working directory, given as [./]: the paths are printed
    as pathlib writes them, in the order of [rglob], and the run finds its
    own log file, whose third record holds the pattern. *)
Example run_over_working_directory :
  let run := main (RE := Re.lib) here_env here_args Run0 in
  fst run = Exit 0
  /\ map render (stdout (snd run))
     = ["t/z.txt:2:error: boom"; "t/a.txt:2:error: boom"; "t/d2/w.txt:2:error: boom";
        "t/d1/x.txt:2:error: boom"; "t/d1/sub/.hid:2:error: boom";
        "t/d1/sub/y.txt:2:error: boom";
        "logs/log_2024-01-01_00-00-00.txt:3:2024-01-01 00:00:00,000 INFO: "
        ++ "Args: grep.py error ./ -r --color never"]
  /\ stats (snd run) = mkStats 7 7 0 22 7.
Proof. vm_compute. repeat split. Qed.

(* ================================================================= *)
(** * Further properties *)

(** ** The shape of a run of [main] *)

Section MainShape.
Context {RE : ReLib}.

(** When the log file is set up, [main] runs its [try] block from the state
    [started] and always ends through its [finally] clause. *)
Lemma main_unfold (env : Env) (args : Args) :
  env_logs env = LogsReady ->
  main env args Run0
  = (Exit (fst (main_try env args (color_of env args) (mkLogger (a_debug args))
                         (started env args))),
     finished env args
              (snd (main_try env args (color_of env args) (mkLogger (a_debug args))
                             (started env args)))).
Proof.
  intros Hlogs. unfold main, main_around, setup_logging. rewrite Hlogs.
  fold (color_of env args).
  unfold bind, event, log, bind, write_log, eprint, upd_stats, get_stats, ret,
    logger_level, started, finished.
  destruct (a_debug args);
    cbn [fst snd stats stdout stderr logfile trace app lg_debug level_rank Nat.leb
         Run0];
    match goal with
    | |- context [main_try ?e ?a ?c ?l ?r] =>
        destruct (main_try e a c l r) as [code r']
    end;
    reflexivity.
Qed.

(** When the log file cannot be set up, the exception leaves [main] before
    anything else is done. *)
Lemma main_unfold_no_logs (env : Env) (args : Args) :
  env_logs env <> LogsReady ->
  exists ex,
    (env_logs env = MkdirFails ex
     /\ main env args Run0
        = (Uncaught ex,
           mkRun Stats0 [] [] [] [EvMkdir (joinpath (env_cwd env) "logs")]))
    \/ (env_logs env = OpenLogFails ex
        /\ main env args Run0
           = (Uncaught ex,
              mkRun Stats0 [] [] []
                    [EvMkdir (joinpath (env_cwd env) "logs");
                     EvOpenLog (log_path_of env)])).
Proof.
  intros Hlogs. unfold main, main_around, setup_logging.
  destruct (env_logs env) as [| ex | ex]; [congruence | |]; exists ex.
  - left. split; reflexivity.
  - right. split; reflexivity.
Qed.

Lemma log_error_spec (lg : Logger) (m : LogMsg) (r : Run) :
  log lg ERROR m r
  = (tt, mkRun (stats r) (stdout r) (stderr r ++ [ErrLog ERROR m])
               (logfile r ++ [(ERROR, m)]) (trace r)).
Proof.
  unfold log, bind, write_log, eprint, ret, logger_level.
  destruct (lg_debug lg); reflexivity.
Qed.

Lemma for_each_log_errors (lg : Logger) (mk : path -> LogMsg) (ms : list path)
      (r : Run) :
  for_each ms (fun m => log lg ERROR (mk m)) r
  = (tt, mkRun (stats r) (stdout r)
               (stderr r ++ map (fun m => ErrLog ERROR (mk m)) ms)
               (logfile r ++ map (fun m => (ERROR, mk m)) ms) (trace r)).
Proof.
  revert r; induction ms as [|m ms IH]; intros r; simpl.
  - unfold ret. rewrite !app_nil_r. now destruct r.
  - unfold bind. rewrite log_error_spec, IH. simpl.
    now rewrite <- !app_assoc.
Qed.

(** The three ways the [try] block ends. *)
Lemma main_try_bad_pattern (env : Env) (args : Args) (color : bool) (lg : Logger)
      (ex : string) (r : Run) :
  re_compile (a_regex args) (a_ignore_case args) = inl ex ->
  main_try env args color lg r
  = (2, mkRun (stats r) (stdout r)
              (stderr r ++ [ErrLog ERROR (LogInvalidRegex ex);
                            ErrPrint (colorize ("Invalid regex: " ++ ex) ANSI_RED color)])
              (logfile r ++ [(ERROR, LogInvalidRegex ex)]) (trace r)).
Proof.
  intros Hre. unfold main_try. rewrite Hre.
  unfold bind at 1. rewrite log_error_spec.
  unfold bind, eprint, ret. simpl. now rewrite <- app_assoc.
Qed.

Lemma main_try_missing (env : Env) (args : Args) (color : bool) (lg : Logger)
      (rx : Pattern) (r : Run) :
  re_compile (a_regex args) (a_ignore_case args) = inr rx ->
  missing_of env (inputs_of args) <> [] ->
  main_try env args color lg r
  = (2, mkRun (stats r) (stdout r)
              (stderr r
               ++ map (fun m => ErrLog ERROR (LogPathNotFound m))
                      (missing_of env (inputs_of args))
               ++ [ErrPrint (colorize ("Error: "
                                       ++ str_of_nat (List.length
                                                        (missing_of env (inputs_of args)))
                                       ++ " input path(s) not found.")
                                      ANSI_RED color)])
              (logfile r ++ map (fun m => (ERROR, LogPathNotFound m))
                                (missing_of env (inputs_of args)))
              (trace r ++ map EvStat (inputs_of args))).
Proof.
  intros Hre Hmiss. unfold main_try. rewrite Hre. fold (inputs_of args).
  unfold bind at 1. rewrite missing_inputs_spec. fold (missing_of env (inputs_of args)).
  destruct (missing_of env (inputs_of args)) as [|m ms] eqn:E; [congruence |].
  unfold bind at 1. rewrite for_each_log_errors.
  unfold bind, eprint, ret. cbn [fst snd stats stdout stderr logfile trace].
  now rewrite <- app_assoc.
Qed.

Lemma main_try_scan (env : Env) (args : Args) (color : bool) (lg : Logger)
      (rx : Pattern) (r : Run) :
  re_compile (a_regex args) (a_ignore_case args) = inr rx ->
  missing_of env (inputs_of args) = [] ->
  main_try env args color lg r
  = (0, snd (scan_inputs env
               (fun fp f => grep_file fp rx (a_invert args) (a_count args) color lg f)
               (inputs_of args) (a_recursive args)
               (mkRun (stats r) (stdout r) (stderr r) (logfile r)
                      (trace r ++ map EvStat (inputs_of args))))).
Proof.
  intros Hre Hmiss. unfold main_try. rewrite Hre. fold (inputs_of args).
  unfold bind at 1. rewrite missing_inputs_spec. fold (missing_of env (inputs_of args)).
  rewrite Hmiss. unfold bind at 1.
  destruct (scan_inputs _ _ _ _ _) as [[] r']. reflexivity.
Qed.

End MainShape.

(** ** What the loops add up *)

Lemma for_each_appends {A B} (out : Run -> list B) (g : A -> list B)
      (body : A -> M unit) (l : list A) :
  (forall x r, out (snd (body x r)) = (out r ++ g x)%list) ->
  forall r, out (snd (for_each l body r)) = (out r ++ flat_map g l)%list.
Proof.
  intros Hbody. induction l as [|x l IH]; intros r; simpl.
  - now rewrite app_nil_r.
  - unfold bind. destruct (body x r) as [u r1] eqn:E.
    rewrite IH. change r1 with (snd (u, r1)). rewrite <- E, Hbody.
    now rewrite app_assoc.
Qed.

Lemma flat_map_files_of {B} (g : path * FileEnv -> list B) (l : list (path * Node)) :
  flat_map (fun e => match snd e with File f => g (fst e, f) | _ => [] end) l
  = flat_map g (files_of l).
Proof.
  unfold files_of. induction l as [|e l IH]; simpl; [reflexivity |].
  rewrite IH. destruct (snd e); simpl; rewrite ?app_nil_r; reflexivity.
Qed.

Lemma flat_map_comp {A B C} (h : A -> list B) (g : B -> list C) (l : list A) :
  flat_map g (flat_map h l) = flat_map (fun x => flat_map g (h x)) l.
Proof.
  induction l as [|x l IH]; simpl; [reflexivity |].
  now rewrite flat_map_app, IH.
Qed.

Section Sums.
Context {RE : ReLib}.
Variable env : Env.
Variable scan : path -> FileEnv -> M unit.

(** What the walk appends to a part of the state that only the scanner
    touches: the concatenation of what the scanner appends for each file
    [iter_files] yields, in that order. *)
Lemma scan_inputs_appends {B} (out : Run -> list B) (g : path -> FileEnv -> list B)
      (inputs : list path) (recursive : bool) :
  (forall e r, out (snd (event e r)) = out r) ->
  (forall p f r, out (snd (scan p f r)) = (out r ++ g p f)%list) ->
  forall r,
    out (snd (scan_inputs env scan inputs recursive r))
    = (out r ++ flat_map (fun t => g (fst t) (snd t))
                         (iter_files env inputs recursive))%list.
Proof.
  intros Hev Hscan r. unfold scan_inputs, iter_files.
  rewrite flat_map_comp.
  apply for_each_appends. clear r. intros p r.
  assert (Hentries : forall l r0,
             out (snd (for_each l (visit_entry scan) r0))
             = (out r0 ++ flat_map (fun t => g (fst t) (snd t)) (files_of l))%list).
  { intros l r0.
    rewrite <- (flat_map_files_of (fun t => g (fst t) (snd t))).
    apply for_each_appends. intros e r1.
    unfold visit_entry, bind. destruct (event (EvStat (fst e)) r1) as [u r2] eqn:E.
    assert (Hr2 : out r2 = out r1)
      by (change r2 with (snd (u, r2)); rewrite <- E; apply Hev).
    destruct (snd e); simpl.
    - now rewrite Hscan, Hr2.
    - now rewrite Hr2, app_nil_r.
    - now rewrite Hr2, app_nil_r. }
  unfold visit_input, bind.
  destruct (event (EvStat p) r) as [u r1] eqn:E.
  assert (Hr1 : out r1 = out r)
    by (change r1 with (snd (u, r1)); rewrite <- E; apply Hev).
  destruct (env_fs env p) as [[f | entries |] |].
  - simpl. now rewrite Hscan, Hr1, app_nil_r.
  - destruct (event (EvStat p) r1) as [u2 r2] eqn:E2.
    assert (Hr2 : out r2 = out r1)
      by (change r2 with (snd (u2, r2)); rewrite <- E2; apply Hev).
    destruct (event (EvListDir p recursive) r2) as [u3 r3] eqn:E3.
    assert (Hr3 : out r3 = out r2)
      by (change r3 with (snd (u3, r3)); rewrite <- E3; apply Hev).
    rewrite Hentries, Hr3, Hr2, Hr1. reflexivity.
  - now rewrite Hev, Hr1, app_nil_r.
  - now rewrite Hev, Hr1, app_nil_r.
Qed.

(** The same for a counter. *)
Lemma scan_inputs_counts (cnt : Run -> nat) (w : path -> FileEnv -> nat)
      (inputs : list path) (recursive : bool) :
  (forall e r, cnt (snd (event e r)) = cnt r) ->
  (forall p f r, cnt (snd (scan p f r)) = cnt r + w p f) ->
  forall r,
    cnt (snd (scan_inputs env scan inputs recursive r))
    = cnt r + list_sum (map (fun t => w (fst t) (snd t))
                            (iter_files env inputs recursive)).
Proof.
  intros Hev Hscan r.
  pose proof (@scan_inputs_appends unit (fun r0 => repeat tt (cnt r0))
                (fun p f => repeat tt (w p f)) inputs recursive) as H.
  assert (Hlen : List.length (repeat tt (cnt (snd (scan_inputs env scan inputs
                                                               recursive r))))
                 = List.length (repeat tt (cnt r)
                                ++ flat_map (fun t => repeat tt (w (fst t) (snd t)))
                                            (iter_files env inputs recursive))%list).
  { f_equal. apply H.
    - intros e r0. now rewrite Hev.
    - intros p f r0. now rewrite Hscan, repeat_app. }
  rewrite length_app, !repeat_length, length_flat_map in Hlen.
  rewrite Hlen. f_equal. f_equal. apply map_ext. intros t. apply repeat_length.
Qed.

End Sums.

(** ** One file *)

Section FileFacts.
Context {RE : ReLib}.
Variables (filepath : path) (rx : Pattern).
Variables (invert count_only color : bool) (lg : Logger).

Local Abbreviation scan := (grep_file filepath rx invert count_only color lg).

(** The four ways a scan ends, with the closed form of each. *)
Ltac scan_cases f r :=
  let Hc := fresh "Hc" in
  let Ht := fresh "Ht" in
  destruct (classified_text f) eqn:Hc;
  [ destruct (as_text f) as [? | ? [? |]] eqn:Ht;
    [ repeat erewrite grep_file_open_error by eassumption
    | repeat erewrite grep_file_read_error by eassumption
    | repeat erewrite grep_file_read_ok by eassumption ]
  | repeat erewrite grep_file_binary by eassumption ].

(** What a scan prints does not depend on the state it starts from, and is
    appended to the output. *)
Lemma grep_file_stdout (f : FileEnv) (r : Run) :
  stdout (snd (scan f r)) = (stdout r ++ emitted (scan f) Run0)%list.
Proof.
  unfold emitted. scan_cases f r; simpl; rewrite ?app_nil_r; reflexivity.
Qed.

Lemma emitted_any_state (f : FileEnv) (r : Run) :
  emitted (scan f) r = emitted (scan f) Run0.
Proof.
  unfold emitted at 1. rewrite grep_file_stdout. apply skipn_app_exact.
Qed.

Lemma grep_file_lines_seen (f : FileEnv) (r : Run) :
  lines_seen (stats (snd (scan f r))) = lines_seen (stats r) + lines_yielded f.
Proof.
  unfold lines_yielded. scan_cases f r; rewrite ?Hc, ?Ht; simpl; lia.
Qed.

Lemma grep_file_lines_reported (f : FileEnv) (r : Run) :
  lines_reported (stats (snd (scan f r)))
  = lines_reported (stats r) + List.length (emitted (scan f) Run0).
Proof.
  unfold emitted. scan_cases f r; simpl;
    destruct count_only; simpl; rewrite ?length_map; lia.
Qed.

Lemma grep_file_logfile (f : FileEnv) (r : Run) :
  logfile (snd (scan f r)) = (logfile r ++ logged (scan f) Run0)%list.
Proof.
  unfold logged. scan_cases f r; simpl; rewrite ?app_nil_r; reflexivity.
Qed.

End FileFacts.

(** ** Statistics and output of a run *)

(** X1.  [lines_reported] counts the lines printed: each scan raises it by
    the number of lines it writes to standard output, in either output
    mode and however the scan ends; and when [main] ends, it is the number
    of lines on standard output. *)
Theorem X1_lines_reported_counts_stdout {RE : ReLib} (filepath : path) (rx : Pattern)
        (invert count_only color : bool) (lg : Logger) (f : FileEnv) (r : Run)
        (env : Env) (args : Args) :
  lines_reported (stats (snd (grep_file filepath rx invert count_only color lg f r)))
  = lines_reported (stats r)
    + List.length (emitted (grep_file filepath rx invert count_only color lg f) r)
  /\ lines_reported (stats (snd (main env args Run0)))
     = List.length (stdout (snd (main env args Run0))).
Proof.
  split.
  - rewrite emitted_any_state. apply grep_file_lines_reported.
  - destruct (env_logs env) eqn:Hlogs.
    + rewrite (main_unfold env args Hlogs). cbn [snd finished stats stdout].
      destruct (re_compile (a_regex args) (a_ignore_case args)) as [ex | rx0] eqn:Hre.
      * rewrite (main_try_bad_pattern env args _ _ _ Hre). reflexivity.
      * destruct (missing_of env (inputs_of args)) as [|m ms] eqn:Hm.
        -- rewrite (main_try_scan env args _ _ _ Hre Hm). cbn [snd].
           rewrite (scan_inputs_counts env _
                      (fun r0 => lines_reported (stats r0))
                      (fun p g => List.length
                                    (emitted (grep_file p rx0 (a_invert args)
                                                (a_count args) (color_of env args)
                                                (mkLogger (a_debug args)) g) Run0)))
             by (intros; first [reflexivity | apply grep_file_lines_reported]).
           rewrite (scan_inputs_appends env _ stdout
                      (fun p g => emitted (grep_file p rx0 (a_invert args)
                                             (a_count args) (color_of env args)
                                             (mkLogger (a_debug args)) g) Run0))
             by (intros; first [reflexivity | apply grep_file_stdout]).
           cbn [stats stdout started lines_reported Stats0 app].
           now rewrite length_flat_map.
        -- rewrite (main_try_missing env args _ _ _ Hre)
             by (rewrite Hm; discriminate).
           reflexivity.
    + unfold main, main_around, setup_logging. rewrite Hlogs. reflexivity.
    + unfold main, main_around, setup_logging. rewrite Hlogs. reflexivity.
Qed.

(** X2.  [lines_seen] counts the lines read: a scan raises it by the number
    of lines the file yielded before the iteration ended or failed (none
    for a file classified as binary or not opened); and after a run that
    scans, it is the total over the files the walk yields. *)
Theorem X2_lines_seen_counts_lines_read {RE : ReLib} (filepath : path) (rx : Pattern)
        (invert count_only color : bool) (lg : Logger) (f : FileEnv) (r : Run)
        (env : Env) (args : Args) (rx0 : Pattern) :
  env_logs env = LogsReady ->
  re_compile (a_regex args) (a_ignore_case args) = inr rx0 ->
  missing_of env (inputs_of args) = [] ->
  lines_seen (stats (snd (grep_file filepath rx invert count_only color lg f r)))
  = lines_seen (stats r) + lines_yielded f
  /\ lines_seen (stats (snd (main env args Run0)))
     = list_sum (map (fun t => lines_yielded (snd t))
                     (iter_files env (inputs_of args) (a_recursive args))).
Proof.
  intros Hlogs Hre Hm. split.
  - apply grep_file_lines_seen.
  - rewrite (main_unfold env args Hlogs). cbn [snd finished stats].
    rewrite (main_try_scan env args _ _ _ Hre Hm). cbn [snd].
    rewrite (scan_inputs_counts env _ (fun r0 => lines_seen (stats r0))
                                (fun p g => lines_yielded g))
      by (intros; first [reflexivity | apply grep_file_lines_seen]).
    reflexivity.
Qed.

(** The scenario directory: three lines are read from the text file, none
    from the binary file. *)
Lemma X2_lines_seen_counts_lines_read_witness :
  env_logs scenario_env = LogsReady
  /\ @re_compile Re.lib (a_regex scan_args) (a_ignore_case scan_args) = inr rx_error
  /\ missing_of scenario_env (inputs_of scan_args) = []
  /\ lines_seen (stats (snd (main (RE := Re.lib) scenario_env scan_args Run0))) = 3.
Proof.
  split; [reflexivity |]. split; [reflexivity |]. split; [reflexivity |].
  destruct (@X2_lines_seen_counts_lines_read Re.lib "d/a.txt" rx_error false false
              false quiet scenario_file Run0 scenario_env scan_args rx_error
              eq_refl eq_refl eq_refl) as [_ H].
  exact H.
Defined.

(** The run around any [try] block: from [started], through the block, the
    [except] clause when the block was interrupted, and the [finally]
    clause. *)
Lemma main_around_unfold (env : Env) (args : Args)
      (try_block : bool -> Logger -> M TryEnd) :
  env_logs env = LogsReady ->
  let e := fst (try_block (color_of env args) (mkLogger (a_debug args))
                          (started env args)) in
  let r := snd (try_block (color_of env args) (mkLogger (a_debug args))
                          (started env args)) in
  main_around env args try_block Run0
  = (match e with
     | Returned code => Exit code
     | KeyboardInterrupt => Exit 130
     | Raised ex => Uncaught ex
     end,
     finished env args
              match e with
              | KeyboardInterrupt => interrupted env args r
              | _ => r
              end).
Proof.
  intros Hlogs. unfold main_around, setup_logging. rewrite Hlogs.
  fold (color_of env args).
  unfold bind, event, log, bind, write_log, eprint, upd_stats, get_stats, ret,
    logger_level, started, finished, interrupted.
  destruct (a_debug args);
    cbn [fst snd stats stdout stderr logfile trace app lg_debug level_rank Nat.leb
         Run0];
    match goal with
    | |- context [try_block ?c ?l ?r] =>
        destruct (try_block c l r) as [[code | | ex] r']
    end;
    cbn [fst snd stats stdout stderr logfile trace app lg_debug level_rank Nat.leb];
    rewrite <- ?app_assoc; reflexivity.
Qed.

(** X3.  The exit status of [main].  When the log file cannot be set up,
    the exception leaves [main].  Otherwise the status is decided by the way
    the [try] block ends: the status the block returns; 130 when a
    [KeyboardInterrupt] leaves it, after the [except] clause has logged a
    warning and printed [Interrupted.] on standard error; and any other
    exception that leaves the block leaves [main] too.  In each case the
    [finally] clause has logged the statistics and named the log file.  When
    nothing cuts the block short, the status it returns is decided before
    any file is scanned: 2 when the pattern does not compile or an input
    does not exist, and 0 otherwise, whatever the files contain and whatever
    the scanner logged for them. *)
Theorem X3_exit_status {RE : ReLib} (env : Env) (args : Args)
        (try_block : bool -> Logger -> M TryEnd) :
  let e := fst (try_block (color_of env args) (mkLogger (a_debug args))
                          (started env args)) in
  let r := snd (try_block (color_of env args) (mkLogger (a_debug args))
                          (started env args)) in
  fst (main_around env args try_block Run0)
  = match env_logs env with
    | MkdirFails ex => Uncaught ex
    | OpenLogFails ex => Uncaught ex
    | LogsReady =>
        match e with
        | Returned code => Exit code
        | KeyboardInterrupt => Exit 130
        | Raised ex => Uncaught ex
        end
    end
  /\ (env_logs env = LogsReady ->
      snd (main_around env args try_block Run0)
      = finished env args
                 match e with
                 | KeyboardInterrupt => interrupted env args r
                 | _ => r
                 end)
  /\ fst (main env args Run0)
     = match env_logs env with
       | MkdirFails ex => Uncaught ex
       | OpenLogFails ex => Uncaught ex
       | LogsReady =>
           match re_compile (a_regex args) (a_ignore_case args) with
           | inl _ => Exit 2
           | inr _ =>
               match missing_of env (inputs_of args) with
               | [] => Exit 0
               | _ :: _ => Exit 2
               end
           end
       end.
Proof.
  intros e r. subst e r. split; [| split].
  - destruct (env_logs env) eqn:Hlogs.
    + now rewrite (main_around_unfold env args try_block Hlogs).
    + unfold main_around, setup_logging. rewrite Hlogs. reflexivity.
    + unfold main_around, setup_logging. rewrite Hlogs. reflexivity.
  - intros Hlogs. now rewrite (main_around_unfold env args try_block Hlogs).
  - destruct (env_logs env) eqn:Hlogs.
    + rewrite (main_unfold env args Hlogs). cbn [fst].
      destruct (re_compile (a_regex args) (a_ignore_case args)) as [ex | rx0] eqn:Hre.
      * now rewrite (main_try_bad_pattern env args _ _ _ Hre).
      * destruct (missing_of env (inputs_of args)) as [|m ms] eqn:Hm.
        -- now rewrite (main_try_scan env args _ _ _ Hre Hm).
        -- rewrite (main_try_missing env args _ _ _ Hre) by (rewrite Hm; discriminate).
           reflexivity.
    + unfold main, main_around, setup_logging. rewrite Hlogs. reflexivity.
    + unfold main, main_around, setup_logging. rewrite Hlogs. reflexivity.
Qed.

(** A run interrupted after its first line of output: the line stays, the
    warning is logged, the status is 130. *)
Lemma X3_exit_status_witness :
  env_logs scenario_env = LogsReady
  /\ fst (main_around scenario_env scan_args interrupted_block Run0)
     = Exit 130
  /\ stdout (snd (main_around scenario_env scan_args interrupted_block Run0))
     = [ResultLine "d/a.txt" 2 "error: boom" false]
  /\ fst (main (RE := Re.lib) scenario_env scan_args Run0) = Exit 0.
Proof.
  split; [reflexivity |].
  destruct (@X3_exit_status Re.lib scenario_env scan_args interrupted_block)
    as (Hexit & Hstate & Hmain).
  split; [exact Hexit |]. split; [| exact Hmain].
  rewrite (Hstate eq_refl). reflexivity.
Defined.

(** X4.  One input that does not exist aborts the whole run: the exit
    status is 2, nothing is printed, the statistics stay at zero, and no
    input is listed, opened or scanned, not even those that exist; each
    missing input, and only those, is logged and reported. *)
Theorem X4_missing_input_aborts {RE : ReLib} (env : Env) (args : Args) (rx : Pattern)
        (p : path) :
  env_logs env = LogsReady ->
  re_compile (a_regex args) (a_ignore_case args) = inr rx ->
  In p (inputs_of args) ->
  env_fs env p = None ->
  let r := snd (main env args Run0) in
  fst (main env args Run0) = Exit 2
  /\ stdout r = []
  /\ stats r = Stats0
  /\ trace r = ([EvMkdir (joinpath (env_cwd env) "logs"); EvOpenLog (log_path_of env)]
                ++ map EvStat (inputs_of args))%list
  /\ (forall q, In (ERROR, LogPathNotFound q) (logfile r)
                <-> In q (inputs_of args) /\ env_fs env q = None)
  /\ In (ErrLog ERROR (LogPathNotFound p)) (stderr r).
Proof.
  intros Hlogs Hre Hin Hnone r. subst r.
  assert (Hp : In p (missing_of env (inputs_of args))).
  { unfold missing_of. apply filter_In. split; [exact Hin | now rewrite Hnone]. }
  assert (Hm : missing_of env (inputs_of args) <> []).
  { intros E. rewrite E in Hp. contradiction. }
  rewrite (main_unfold env args Hlogs), (main_try_missing env args _ _ _ Hre Hm).
  cbn [fst snd finished started stats stdout stderr logfile trace].
  split; [reflexivity |]. split; [reflexivity |]. split; [reflexivity |].
  split; [reflexivity |]. split.
  - intros q. rewrite !in_app_iff. split.
    + intros [[H | H] | H].
      * simpl in H. repeat destruct H as [H | H]; try discriminate; contradiction.
      * apply in_map_iff in H. destruct H as (m & [= <-] & H).
        unfold missing_of in H. apply filter_In in H. destruct H as [H1 H2].
        split; [exact H1 |]. now destruct (env_fs env m).
      * simpl in H. destruct H as [H | []]. discriminate.
    + intros [H1 H2]. left. right. apply in_map_iff. exists q. split; [reflexivity |].
      unfold missing_of. apply filter_In. split; [exact H1 | now rewrite H2].
  - rewrite !in_app_iff. left. right. left.
    apply in_map_iff. exists p. split; [reflexivity | exact Hp].
Qed.

(** The scenario directory and a path that does not exist: the directory
    is not even listed. *)
Lemma X4_missing_input_aborts_witness :
  env_logs scenario_env = LogsReady
  /\ @re_compile Re.lib (a_regex missing_args) (a_ignore_case missing_args)
     = inr rx_error
  /\ In "nowhere" (inputs_of missing_args)
  /\ env_fs scenario_env "nowhere" = None
  /\ fst (main (RE := Re.lib) scenario_env missing_args Run0) = Exit 2
  /\ trace (snd (main (RE := Re.lib) scenario_env missing_args Run0))
     = [EvMkdir "/work/logs"; EvOpenLog "/work/logs/log_2024-01-01_00-00-00.txt";
        EvStat "d"; EvStat "nowhere"].
Proof.
  assert (Hin : In "nowhere" (inputs_of missing_args)) by (right; left; reflexivity).
  split; [reflexivity |]. split; [reflexivity |]. split; [exact Hin |].
  split; [reflexivity |].
  destruct (@X4_missing_input_aborts Re.lib scenario_env missing_args rx_error
              "nowhere" eq_refl eq_refl Hin eq_refl) as (H1 & _ & _ & H4 & _).
  split; [exact H1 | exact H4].
Defined.

(** X5.  When the log directory cannot be created or the log file cannot
    be opened, the exception leaves [main]: the pattern is not compiled, no
    input is looked at, and [main] itself has written nothing to standard
    output, to standard error or to the log. *)
Theorem X5_log_setup_failure_is_fatal {RE : ReLib} (env : Env) (args : Args)
        (ex : OSError) :
  env_logs env = MkdirFails ex \/ env_logs env = OpenLogFails ex ->
  let r := snd (main env args Run0) in
  fst (main env args Run0) = Uncaught ex
  /\ stdout r = [] /\ stderr r = [] /\ logfile r = [] /\ stats r = Stats0
  /\ (forall e, In e (trace r) ->
                e = EvMkdir (joinpath (env_cwd env) "logs")
                \/ e = EvOpenLog (log_path_of env)).
Proof.
  intros H r. subst r. unfold main, main_around, setup_logging.
  destruct H as [H | H]; rewrite H; cbn; repeat split; auto;
    intros e He; simpl in He; intuition.
Qed.

Lemma X5_log_setup_failure_is_fatal_witness :
  (env_logs read_only_env = MkdirFails "[Errno 13] Permission denied: '/work/logs'"
   \/ env_logs read_only_env
      = OpenLogFails "[Errno 13] Permission denied: '/work/logs'")
  /\ fst (main (RE := Re.lib) read_only_env scan_args Run0)
     = Uncaught "[Errno 13] Permission denied: '/work/logs'".
Proof.
  assert (H : env_logs read_only_env
              = MkdirFails "[Errno 13] Permission denied: '/work/logs'"
              \/ env_logs read_only_env
                 = OpenLogFails "[Errno 13] Permission denied: '/work/logs'")
    by (left; reflexivity).
  split; [exact H |].
  exact (proj1 (@X5_log_setup_failure_is_fatal Re.lib read_only_env scan_args _ H)).
Defined.



(** X7.  Whenever the log file was set up, a run ends by logging the final
    statistics and by naming the log file on standard error: on a normal
    end, on an invalid pattern and on a missing input alike. *)
Theorem X7_statistics_always_logged {RE : ReLib} (env : Env) (args : Args) :
  env_logs env = LogsReady ->
  let r := snd (main env args Run0) in
  (exists l, logfile r = (started_log env args ++ l
                          ++ [(INFO, LogPerformance (stats r))])%list)
  /\ (exists l, stderr r
                = (l ++ [ErrPrint (colorize ("Log written to: " ++ log_path_of env)
                                            ANSI_CYAN (color_of env args))])%list).
Proof.
  intros Hlogs r. subst r.
  rewrite (main_unfold env args Hlogs). cbn [snd finished stats stderr logfile].
  split; [| eexists; reflexivity].
  set (lg := mkLogger (a_debug args)). set (c := color_of env args).
  destruct (re_compile (a_regex args) (a_ignore_case args)) as [ex | rx0] eqn:Hre.
  - rewrite (main_try_bad_pattern env args _ _ _ Hre). cbn [snd logfile stats].
    eexists. unfold started_log, started. cbn [logfile]. reflexivity.
  - destruct (missing_of env (inputs_of args)) as [|m ms] eqn:Hm.
    + rewrite (main_try_scan env args _ _ _ Hre Hm). cbn [snd].
      rewrite (scan_inputs_appends env _ logfile
                 (fun p g => logged (grep_file p rx0 (a_invert args) (a_count args)
                                               c lg g) Run0))
        by (intros; first [reflexivity | apply grep_file_logfile]).
      eexists. unfold started_log. cbn [logfile]. reflexivity.
    + rewrite (main_try_missing env args _ _ _ Hre) by (rewrite Hm; discriminate).
      cbn [snd logfile stats]. eexists. unfold started_log. reflexivity.
Qed.

(** The run with the pattern that does not compile: the statistics, all
    zero, are the last record of the log. *)
Lemma X7_statistics_always_logged_witness :
  env_logs scenario_env = LogsReady
  /\ exists l,
      logfile (snd (main (RE := Re.lib) scenario_env bad_pattern_args Run0))
      = (started_log scenario_env bad_pattern_args ++ l
         ++ [(INFO, LogPerformance
                      (stats (snd (main (RE := Re.lib) scenario_env bad_pattern_args
                                        Run0))))])%list.
Proof.
  split; [reflexivity |].
  exact (proj1 (@X7_statistics_always_logged Re.lib scenario_env bad_pattern_args
                  eq_refl)).
Defined.

(** ** The classifier *)

(** X8.  The classifier looks at the first 4096 bytes and at nothing else:
    a file of at most 4096 bytes is text exactly when it holds no NUL byte
    (an empty file is text), and a longer file is judged on its first 4096
    bytes alone, so that a NUL byte further on does not make it binary. *)
Theorem X8_classifier_reads_sample_only (p : path) (sample rest : list byte)
        (t : TextView) (r : Run) :
  List.length sample = 4096 ->
  fst (is_probably_text_file p (mkFile (BinContent (sample ++ rest)) t)
                             default_sample_size r)
  = no_nul sample
  /\ (forall content,
         List.length content <= 4096 ->
         fst (is_probably_text_file p (mkFile (BinContent content) t)
                                    default_sample_size r)
         = no_nul content)
  /\ fst (is_probably_text_file p (mkFile (BinContent []) t) default_sample_size r)
     = true.
Proof.
  intros Hlen. rewrite !is_probably_text_file_spec. cbn [fst].
  unfold classified_text, default_sample_size. cbn [as_binary].
  split; [| split].
  - rewrite <- Hlen, firstn_app, Nat.sub_diag, firstn_all. simpl.
    now rewrite app_nil_r.
  - intros content Hc. rewrite is_probably_text_file_spec. cbn [fst].
    unfold classified_text, default_sample_size. cbn [as_binary].
    now rewrite firstn_all2.
  - reflexivity.
Qed.

(** 4096 bytes [a] followed by a NUL byte: text. *)
Lemma X8_classifier_reads_sample_only_witness :
  List.length (repeat x61 4096) = 4096
  /\ fst (is_probably_text_file "path"
            (mkFile (BinContent (repeat x61 4096 ++ [x00])) (TextLines [] None))
            default_sample_size Run0)
     = no_nul (repeat x61 4096).
Proof.
  assert (H : List.length (repeat x61 4096) = 4096) by apply repeat_length.
  split; [exact H |].
  exact (proj1 (@X8_classifier_reads_sample_only "path" (repeat x61 4096) [x00]
                  (TextLines [] None) Run0 H)).
Defined.

(** ** The walker *)

Lemma in_files_of (l : list (path * Node)) (fp : path) (f : FileEnv) :
  In (fp, f) (files_of l) <-> In (fp, File f) l.
Proof.
  unfold files_of. rewrite in_flat_map. split.
  - intros ([q n] & Hin & H). simpl in H. destruct n; simpl in H; try contradiction.
    destruct H as [[= <- <-] | []]. exact Hin.
  - intros H. exists (fp, File f). split; [exact H | now left].
Qed.

(** Induction over a directory tree, with the hypothesis for every entry. *)
Lemma Node_induction (P : Node -> Prop) :
  (forall f, P (File f)) ->
  P Special ->
  (forall entries, Forall (fun e => P (snd e)) entries -> P (Dir entries)) ->
  forall n, P n.
Proof.
  intros Hfile Hspecial Hdir. fix IH 1. intros [f | entries |].
  - apply Hfile.
  - apply Hdir. induction entries as [|e entries IHe]; constructor.
    + apply IH.
    + exact IHe.
  - apply Hspecial.
Qed.

Lemma prefix_app (s t : string) : String.prefix s (s ++ t) = true.
Proof.
  induction s as [|c s IH]; simpl; [now destruct t |].
  destruct (ascii_dec c c); [exact IH | congruence].
Qed.

Lemma prefix_app_r (s u t : string) :
  String.prefix s u = true -> String.prefix s (u ++ t) = true.
Proof.
  revert u; induction s as [|c s IH]; intros u H.
  - now destruct (u ++ t).
  - destruct u as [|d u]; simpl in *; [discriminate |].
    destruct (ascii_dec c d); [now apply IH | discriminate].
Qed.

(** What [joinpath] puts in front of a name is empty or ends in a slash. *)
Lemma dir_prefix_shape (p : path) :
  dir_prefix p = "" \/ last_char (dir_prefix p) = Some "/"%char.
Proof.
  unfold dir_prefix. destruct (String.eqb p "."); [now left | right].
  destruct (last_char p) as [c |] eqn:E.
  - destruct (Ascii.eqb c "/") eqn:Ec.
    + apply Ascii.eqb_eq in Ec. subst c. exact E.
    + assert (H : last_char (p ++ "/") = Some "/"%char)
        by apply last_char_app_cons.
      destruct c as [[] [] [] [] [] [] [] []]; first [exact H | discriminate Ec].
  - apply last_char_app_cons.
Qed.

Lemma joinpath_app (p name : string) :
  p <> "." -> exists sep, joinpath p name = p ++ sep ++ name.
Proof.
  intros Hp. unfold joinpath, dir_prefix.
  destruct (String.eqb p ".") eqn:E; [apply String.eqb_eq in E; contradiction |].
  destruct (last_char p) as [c |].
  - destruct c as [[] [] [] [] [] [] [] []];
      first [ now exists "" | exists "/"; now rewrite append_assoc ].
  - exists "/". now rewrite append_assoc.
Qed.

(** A step down keeps what is in front. *)
Lemma prefix_joinpath (front q name : string) :
  front = "" \/ last_char front = Some "/"%char ->
  String.prefix front q = true ->
  String.prefix front (joinpath q name) = true.
Proof.
  intros Hfront Hq. destruct (String.eqb q ".") eqn:E.
  - apply String.eqb_eq in E. subst q.
    destruct Hfront as [-> | Hlast]; [now destruct (joinpath "." name) |].
    destruct front as [|c [|d front]]; simpl in Hq.
    + discriminate Hlast.
    + destruct (ascii_dec c "."); [subst c; discriminate Hlast | discriminate Hq].
    + destruct (ascii_dec c "."); discriminate Hq.
  - assert (Hne : q <> ".") by (intros ->; discriminate E).
    destruct (joinpath_app name Hne) as [sep ->]. now apply prefix_app_r.
Qed.

Lemma prefix_descend (front : string) (names : list string) :
  front = "" \/ last_char front = Some "/"%char ->
  forall q, String.prefix front q = true ->
            String.prefix front (descend q names) = true.
Proof.
  intros Hfront. unfold descend.
  induction names as [|name names IH]; intros q Hq; simpl; [exact Hq |].
  apply IH. now apply prefix_joinpath.
Qed.

(** The path of anything below a directory starts with what [joinpath] puts
    in front of the entries of the directory. *)
Lemma descend_under (p : path) (names : list string) :
  names <> [] -> String.prefix (dir_prefix p) (descend p names) = true.
Proof.
  destruct names as [|name names]; [congruence | intros _].
  change (descend p (name :: names)) with (descend (joinpath p name) names).
  apply prefix_descend; [apply dir_prefix_shape |].
  unfold joinpath. apply prefix_app.
Qed.

Lemma reaches_from_leaf (n m : Node) (names : list string) :
  reaches n names m -> names <> [] -> exists entries, n = Dir entries.
Proof. intros H Hne. destruct H; [congruence | eauto]. Qed.

(** [rglob] yields exactly what a chain of entry names reaches. *)
Lemma in_rglob_node (n : Node) :
  forall p fp m,
    In (fp, m) (rglob_node p n)
    <-> exists names, names <> [] /\ reaches n names m /\ fp = descend p names.
Proof.
  induction n as [f | | entries IH] using Node_induction; intros p fp m.
  - split; [intros [] |]. intros (names & Hne & H & _).
    destruct (reaches_from_leaf H Hne) as [es Hes]. discriminate Hes.
  - split; [intros [] |]. intros (names & Hne & H & _).
    destruct (reaches_from_leaf H Hne) as [es Hes]. discriminate Hes.
  - rewrite Forall_forall in IH. cbn [rglob_node]. rewrite in_app_iff. split.
    + intros [H | H].
      * apply in_map_iff in H. destruct H as ([name k] & [= <- <-] & Hin).
        exists [name]. split; [discriminate |]. split; [| reflexivity].
        eapply reaches_step; [exact Hin | constructor].
      * apply in_flat_map in H. destruct H as ([name k] & Hin & H).
        apply (IH _ Hin) in H. destruct H as (names & Hne & Hr & ->).
        exists (name :: names). split; [discriminate |]. split; [| reflexivity].
        eapply reaches_step; eassumption.
    + intros (names & Hne & Hr & ->). inversion Hr as [| es name k names' n' Hin Hr'];
        subst; [congruence |].
      destruct names' as [|name' names'].
      * left. inversion Hr'; subst. apply in_map_iff. exists (name, m).
        split; [reflexivity | exact Hin].
      * right. apply in_flat_map. exists (name, k). split; [exact Hin |].
        apply (IH _ Hin). exists (name' :: names').
        split; [discriminate |]. split; [exact Hr' | reflexivity].
Qed.

Lemma in_glob_star (p : path) (entries : list (string * Node)) (fp : path)
      (m : Node) :
  In (fp, m) (glob_star p entries)
  <-> exists name, reaches (Dir entries) [name] m /\ fp = descend p [name].
Proof.
  unfold glob_star. rewrite in_map_iff. split.
  - intros ([name k] & [= <- <-] & Hin). exists name. split; [| reflexivity].
    eapply reaches_step; [exact Hin | constructor].
  - intros (name & Hr & ->). inversion Hr as [| es name' k names' n' Hin Hr'];
      subst. inversion Hr'; subst. exists (name, m). split; [reflexivity | exact Hin].
Qed.

(** X9.  What the walk of grep.py yields, exactly: the inputs that are
    files, and, for each input that is a directory, the files that a chain
    of entry names reaches from it, each under the path of the input joined
    with these names; without [-r] the chain is one name long.  An input that
    is neither a file nor a directory yields nothing.  So the path of
    whatever is yielded for a directory starts with what pathlib puts in
    front of the entries of that directory: its path and a slash, its path
    alone for a root, and nothing at all for the current directory. *)
Theorem X9_walk_stays_under_inputs (env : Env) (inputs : list path)
        (recursive : bool) (fp : path) (f : FileEnv) :
  (In (fp, f) (iter_files env inputs recursive)
   <-> exists p, In p inputs
                 /\ ((fp = p /\ env_fs env p = Some (File f))
                     \/ exists entries names,
                          env_fs env p = Some (Dir entries)
                          /\ names <> []
                          /\ (recursive = false -> List.length names = 1)
                          /\ reaches (Dir entries) names (File f)
                          /\ fp = descend p names))
  /\ (forall p names, names <> [] ->
                      String.prefix (dir_prefix p) (descend p names) = true).
Proof.
  split; [| exact descend_under].
  unfold iter_files. rewrite in_flat_map. split.
  - intros (p & Hp & H). exists p. split; [exact Hp |].
    destruct (env_fs env p) as [[g | entries |] |]; try contradiction.
    + destruct H as [[= <- <-] | []]. left. split; reflexivity.
    + right. exists entries. apply in_files_of in H. destruct recursive.
      * apply in_rglob_node in H. destruct H as (names & Hne & Hr & ->).
        exists names. repeat split; try assumption. discriminate.
      * apply in_glob_star in H. destruct H as (name & Hr & ->).
        exists [name]. repeat split; try assumption. discriminate.
  - intros (p & Hp & H). exists p. split; [exact Hp |].
    destruct H as [[-> Hfs] | (entries & names & Hfs & Hne & Hlen & Hr & ->)];
      rewrite Hfs; [now left |].
    apply in_files_of. destruct recursive.
    + apply in_rglob_node. exists names. repeat split; assumption.
    + specialize (Hlen eq_refl). destruct names as [|name [|? ?]]; try discriminate.
      apply in_glob_star. exists name. split; [exact Hr | reflexivity].
Qed.

(** X10.  Recursion only adds files: every file the walk yields without
    [-r] it also yields with [-r]. *)
Theorem X10_recursive_yields_more (env : Env) (inputs : list path) :
  incl (iter_files env inputs false) (iter_files env inputs true).
Proof.
  intros [fp f] H. unfold iter_files in *. apply in_flat_map in H.
  destruct H as (p & Hp & H). apply in_flat_map. exists p. split; [exact Hp |].
  destruct (env_fs env p) as [[g | entries |] |]; try contradiction; [exact H |].
  apply in_files_of in H. apply in_files_of.
  unfold glob_star in H. apply in_map_iff in H. destruct H as (e & He & Hin).
  unfold rglob_star. cbn [rglob_node]. apply in_or_app. left.
  apply in_map_iff. exists e. split; [exact He | exact Hin].
Qed.

(** ** The scanner under its options *)

Ltac file_cases f :=
  let Hc := fresh "Hc" in
  let Ht := fresh "Ht" in
  destruct (classified_text f) eqn:Hc;
  [ destruct (as_text f) as [? | ? [? |]] eqn:Ht;
    [ repeat erewrite grep_file_open_error by eassumption
    | repeat erewrite grep_file_read_error by eassumption
    | repeat erewrite grep_file_read_ok by eassumption ]
  | repeat erewrite grep_file_binary by eassumption ].

(** X11.  Colors change how lines look, not which lines are reported: with
    and without colors a scan reports the same line numbers, prints the same
    counts, and leaves the same statistics, log and file accesses. *)
Theorem X11_color_changes_no_result {RE : ReLib} (filepath : path) (rx : Pattern)
        (invert count_only : bool) (lg : Logger) (f : FileEnv) (r : Run) :
  let colored := grep_file filepath rx invert count_only true lg f in
  let plain := grep_file filepath rx invert count_only false lg f in
  reported_linenos (emitted colored r) = reported_linenos (emitted plain r)
  /\ printed_counts (emitted colored r) = printed_counts (emitted plain r)
  /\ stats (snd (colored r)) = stats (snd (plain r))
  /\ logfile (snd (colored r)) = logfile (snd (plain r))
  /\ stderr (snd (colored r)) = stderr (snd (plain r))
  /\ trace (snd (colored r)) = trace (snd (plain r)).
Proof.
  intros colored plain. subst colored plain. unfold emitted.
  file_cases f; cbn [snd stats stdout stderr logfile trace];
    rewrite ?skipn_app_exact, ?skipn_exact;
    destruct count_only;
    rewrite ?reported_linenos_result_lines, ?printed_counts_result_lines;
    repeat split.
Qed.

(** X12.  Without [--debug] a scan writes no DEBUG record; with it, the scan
    does the same and writes the same records above DEBUG: the flag only
    adds to the log. *)
Theorem X12_debug_only_adds_to_log {RE : ReLib} (filepath : path) (rx : Pattern)
        (invert count_only color : bool) (f : FileEnv) (r : Run) :
  let verbose := grep_file filepath rx invert count_only color (mkLogger true) f in
  let normal := grep_file filepath rx invert count_only color (mkLogger false) f in
  (forall m, ~ In (DEBUG, m) (logged normal r))
  /\ above_debug (logged verbose r) = logged normal r
  /\ stats (snd (verbose r)) = stats (snd (normal r))
  /\ stdout (snd (verbose r)) = stdout (snd (normal r))
  /\ stderr (snd (verbose r)) = stderr (snd (normal r))
  /\ trace (snd (verbose r)) = trace (snd (normal r)).
Proof.
  intros verbose normal. subst verbose normal. unfold logged.
  file_cases f; cbn [snd stats stdout stderr logfile trace lg_debug];
    rewrite ?skipn_app_exact, ?skipn_exact, ?app_nil_r, ?skipn_exact;
    (split; [intros m Hin; simpl in Hin; intuition discriminate |]);
    repeat split.
Qed.

(** ** Lines, in order *)

Lemma seq_strongly_sorted (start len : nat) : StronglySorted lt (seq start len).
Proof.
  revert start; induction len as [|len IH]; intros start; simpl; constructor.
  - apply IH.
  - apply Forall_forall. intros x Hx. apply in_seq in Hx. lia.
Qed.

Lemma strongly_sorted_map_filter {A} (g : A -> nat) (f : A -> bool) (l : list A) :
  StronglySorted lt (map g l) -> StronglySorted lt (map g (filter f l)).
Proof.
  induction l as [|x l IH]; simpl; intros H; [constructor |].
  inversion H as [| ? ? Hs Hall]; subst.
  destruct (f x); simpl; [| auto].
  constructor; [auto |].
  rewrite Forall_forall in *. intros y Hy. apply Hall.
  apply in_map_iff in Hy. destruct Hy as (z & <- & Hz).
  apply filter_In in Hz. apply in_map. tauto.
Qed.

Lemma interesting_linenos_sorted {RE : ReLib} (rx : Pattern) (invert : bool)
      (start : nat) (raws : list string) :
  StronglySorted lt (map fst (interesting rx invert start raws)).
Proof.
  unfold interesting. apply strongly_sorted_map_filter.
  rewrite enumerate_fst. apply seq_strongly_sorted.
Qed.

Lemma interesting_linenos_range {RE : ReLib} (rx : Pattern) (invert : bool)
      (start : nat) (raws : list string) (i : nat) :
  In i (map fst (interesting rx invert start raws)) ->
  start <= i < start + List.length raws.
Proof.
  intros H. apply in_interesting_linenos in H. destruct H as (raw & Hin & _).
  apply in_enumerate_range. eauto.
Qed.

(** X13.  Result lines come in file order: whatever the file and however
    the scan ends, the line numbers printed are strictly increasing, start
    at 1 at the least, and do not exceed the number of lines read. *)
Theorem X13_result_lines_in_file_order {RE : ReLib} (filepath : path) (rx : Pattern)
        (invert count_only color : bool) (lg : Logger) (f : FileEnv) (r : Run) :
  let linenos :=
    reported_linenos (emitted (grep_file filepath rx invert count_only color lg f) r) in
  StronglySorted lt linenos
  /\ (forall i, In i linenos -> 1 <= i <= lines_yielded f).
Proof.
  intros linenos. subst linenos. unfold emitted, lines_yielded.
  file_cases f; rewrite ?Hc, ?Ht; cbn [snd stdout];
    rewrite ?skipn_app_exact, ?skipn_exact;
    try (split; [constructor | intros i []]);
    destruct count_only; try (split; [constructor | intros i []]);
    rewrite reported_linenos_result_lines;
    (split; [apply interesting_linenos_sorted |]);
    intros i Hi; apply interesting_linenos_range in Hi; lia.
Qed.

(** ** A failure in the middle of a file *)

Section Phase3Failures.
Context {RE : ReLib}.
Variables (rx : Pattern) (filepath : path) (invert do_count : bool).

Lemma process_file_open_error (f : FileEnv) (ex : OSError) (r : Run) :
  as_text f = TextOpenError ex ->
  process_file rx filepath invert do_count f r
  = (tt, mkRun (stats r) (stdout r)
               (stderr r ++ [ErrPrint ("Cannot read '" ++ filepath ++ "': " ++ ex)])
               (logfile r) (trace r ++ [EvOpenText filepath false])).
Proof. intros Ht. unfold process_file. rewrite Ht. reflexivity. Qed.

Lemma process_file_read_error (f : FileEnv) (raws : list string) (ex : OSError)
      (r : Run) :
  as_text f = TextLines raws (Some ex) ->
  process_file rx filepath invert do_count f r
  = (tt, mkRun (stats r)
               (stdout r ++ (if do_count then []
                             else map (fun e => ResultLine filepath (fst e)
                                                           (rstrip_nl (snd e)) false)
                                      (interesting rx invert 1 raws)))
               (stderr r ++ [ErrPrint ("Cannot read '" ++ filepath ++ "': " ++ ex)])
               (logfile r)
               (trace r ++ [EvOpenText filepath true; EvReadTextFail filepath])).
Proof.
  intros Ht. unfold process_file. rewrite Ht. run_step.
  rewrite process_lines_spec. simpl. now rewrite <- app_assoc.
Qed.

End Phase3Failures.

(** X14.  When reading fails after some lines, a Lines scan has already
    printed the interesting lines among those read and keeps them, while a
    CountPerFile scan prints nothing at all, not even the count so far; the
    failure is reported once.  This holds of [grep_file] and of
    [process_file] of phase3.py. *)
Theorem X14_failure_while_reading {RE : ReLib} (filepath : path) (rx : Pattern)
        (invert color : bool) (lg : Logger) (f : FileEnv) (raws : list string)
        (ex : OSError) (r : Run) :
  classified_text f = true ->
  as_text f = TextLines raws (Some ex) ->
  emitted (grep_file filepath rx invert false color lg f) r
  = map (result_line filepath rx invert color) (interesting rx invert 1 raws)
  /\ emitted (grep_file filepath rx invert true color lg f) r = []
  /\ (forall count_only,
         logged (grep_file filepath rx invert count_only color lg f) r
         = [(ERROR, LogCannotRead filepath ex)])
  /\ emitted (process_file rx filepath invert false f) r
     = map (fun e => ResultLine filepath (fst e) (rstrip_nl (snd e)) false)
           (interesting rx invert 1 raws)
  /\ emitted (process_file rx filepath invert true f) r = []
  /\ (forall do_count,
         complained (process_file rx filepath invert do_count f) r
         = [ErrPrint ("Cannot read '" ++ filepath ++ "': " ++ ex)]).
Proof.
  intros Hc Ht. unfold emitted, logged, complained.
  rewrite !(@grep_file_read_error _ filepath rx invert _ color lg f raws ex r Hc Ht).
  rewrite !(@process_file_read_error _ rx filepath invert _ f raws ex r Ht).
  cbn [snd stdout logfile stderr].
  rewrite !skipn_app_exact.
  repeat split.
  - intros count_only.
    rewrite (@grep_file_read_error _ filepath rx invert _ color lg f raws ex r Hc Ht).
    cbn [snd logfile]. apply skipn_app_exact.
  - intros do_count.
    rewrite (@process_file_read_error _ rx filepath invert _ f raws ex r Ht).
    cbn [snd stderr]. apply skipn_app_exact.
Qed.

(** The file whose reading fails after its first line [ok]: under the
    Inverted policy that line has been printed. *)
Lemma X14_failure_while_reading_witness :
  classified_text failing_file = true
  /\ as_text failing_file
     = TextLines ["ok" ++ LF] (Some "[Errno 5] Input/output error")
  /\ emitted (grep_file (RE := Re.lib) "path" rx_error true false false quiet
                        failing_file) Run0
     = [ResultLine "path" 1 "ok" false]
  /\ emitted (grep_file (RE := Re.lib) "path" rx_error true true false quiet
                        failing_file) Run0
     = [].
Proof.
  split; [reflexivity |]. split; [reflexivity |].
  destruct (@X14_failure_while_reading Re.lib "path" rx_error true false quiet
              failing_file ["ok" ++ LF] "[Errno 5] Input/output error" Run0
              eq_refl eq_refl) as (H1 & H2 & _).
  split; [exact H1 | exact H2].
Defined.

(** X15.  Without colors, [grep_file] prints for a file that passes the
    classifier exactly what [process_file] of phase3.py prints for it, in
    either output mode and however the reading ends. *)
Theorem X15_plain_grep_file_is_process_file {RE : ReLib} (filepath : path)
        (rx : Pattern) (invert count_only : bool) (lg : Logger) (f : FileEnv)
        (r r' : Run) :
  classified_text f = true ->
  emitted (grep_file filepath rx invert count_only false lg f) r
  = emitted (process_file rx filepath invert count_only f) r'.
Proof.
  intros Hc. unfold emitted.
  destruct (as_text f) as [ex | raws [ex |]] eqn:Ht.
  - rewrite (@grep_file_open_error _ filepath rx invert count_only false lg f ex r Hc Ht).
    rewrite (@process_file_open_error _ rx filepath invert count_only f ex r' Ht).
    cbn [snd stdout]. now rewrite !skipn_exact.
  - rewrite (@grep_file_read_error _ filepath rx invert count_only false lg f raws ex r
               Hc Ht).
    rewrite (@process_file_read_error _ rx filepath invert count_only f raws ex r' Ht).
    cbn [snd stdout]. rewrite !skipn_app_exact. reflexivity.
  - rewrite (@grep_file_read_ok _ filepath rx invert count_only false lg f raws r Hc Ht).
    rewrite (@process_file_read_ok _ rx filepath invert count_only f raws r' Ht).
    cbn [snd stdout]. rewrite !skipn_app_exact. reflexivity.
Qed.

Lemma X15_plain_grep_file_is_process_file_witness :
  classified_text scenario_file = true
  /\ emitted (grep_file (RE := Re.lib) "path" rx_error false false false quiet
                        scenario_file) Run0
     = emitted (process_file (RE := Re.lib) rx_error "path" false false scenario_file)
               Run0.
Proof.
  split; [reflexivity |].
  exact (@X15_plain_grep_file_is_process_file Re.lib "path" rx_error false false quiet
           scenario_file Run0 Run0 eq_refl).
Defined.

(* ================================================================= *)
(** ** phase3.py: [main] *)

Section Main3Facts.
Context {RE : ReLib}.

Lemma for_each_eprint (ls : list string) (r : Run) :
  for_each ls (fun line => eprint (ErrPrint line)) r
  = (tt, mkRun (stats r) (stdout r) (stderr r ++ map ErrPrint ls) (logfile r)
               (trace r)).
Proof.
  revert r; induction ls as [|l ls IH]; intros r; simpl.
  - unfold ret. rewrite app_nil_r. now destruct r.
  - unfold bind, eprint. rewrite IH. simpl. now rewrite <- app_assoc.
Qed.

Variables (rx : Pattern) (invert do_count : bool).

Lemma process_file_stdout (filepath : path) (f : FileEnv) (r : Run) :
  stdout (snd (process_file rx filepath invert do_count f r))
  = (stdout r ++ emitted (process_file rx filepath invert do_count f) Run0)%list.
Proof.
  unfold emitted. destruct (as_text f) as [ex | raws [ex |]] eqn:Ht.
  - rewrite !(@process_file_open_error _ rx filepath invert do_count f ex _ Ht).
    simpl. now rewrite app_nil_r.
  - rewrite !(@process_file_read_error _ rx filepath invert do_count f raws ex _ Ht).
    reflexivity.
  - rewrite !(@process_file_read_ok _ rx filepath invert do_count f raws _ Ht).
    reflexivity.
Qed.

Lemma process_file_stderr (filepath : path) (f : FileEnv) (r : Run) :
  stderr (snd (process_file rx filepath invert do_count f r))
  = (stderr r ++ complained (process_file rx filepath invert do_count f) Run0)%list.
Proof.
  unfold complained. destruct (as_text f) as [ex | raws [ex |]] eqn:Ht.
  - rewrite !(@process_file_open_error _ rx filepath invert do_count f ex _ Ht).
    reflexivity.
  - rewrite !(@process_file_read_error _ rx filepath invert do_count f raws ex _ Ht).
    reflexivity.
  - rewrite !(@process_file_read_ok _ rx filepath invert do_count f raws _ Ht).
    simpl. now rewrite app_nil_r.
Qed.

Lemma visit3_stdout (e : path * Node) (r : Run) :
  stdout (snd (visit3 rx invert do_count e r))
  = (stdout r ++ flat_map (output3 rx invert do_count) (files_of [e]))%list.
Proof.
  unfold visit3, bind, event, files_of, output3. simpl.
  destruct (snd e) as [f | |]; simpl; rewrite ?app_nil_r; try reflexivity.
  rewrite is_probably_text_file_spec.
  destruct (classified_text f); simpl;
    rewrite ?process_file_stdout, ?app_nil_r; reflexivity.
Qed.

Lemma visit3_stderr (e : path * Node) (r : Run) :
  stderr (snd (visit3 rx invert do_count e r))
  = (stderr r ++ flat_map (errors3 rx invert do_count) (files_of [e]))%list.
Proof.
  unfold visit3, bind, event, files_of, errors3. simpl.
  destruct (snd e) as [f | |]; simpl; rewrite ?app_nil_r; try reflexivity.
  rewrite is_probably_text_file_spec.
  destruct (classified_text f); simpl;
    rewrite ?process_file_stderr, ?app_nil_r; reflexivity.
Qed.

Lemma files_of_flat_map_singletons {B} (g : path * FileEnv -> list B)
      (l : list (path * Node)) :
  flat_map (fun e => flat_map g (files_of [e])) l = flat_map g (files_of l).
Proof.
  unfold files_of. rewrite flat_map_comp. apply flat_map_ext.
  intros e. simpl. now rewrite app_nil_r.
Qed.

End Main3Facts.

(** X16.  With fewer than two arguments after the program name, [main] of
    phase3.py prints the twelve lines of its usage on standard error and
    returns 2; it compiles nothing, looks at no file and prints nothing on
    standard output. *)
Theorem X16_phase3_usage {RE : ReLib} (env : Env) (r : Run) :
  List.length (env_argv env) < 3 ->
  main3 env r
  = (2, mkRun (stats r) (stdout r) (stderr r ++ map ErrPrint usage3) (logfile r)
              (trace r))
  /\ List.length usage3 = 12.
Proof.
  intros Hlen. split; [| reflexivity]. unfold main3.
  destruct (env_argv env) as [| a [| b [| c rest]]]; simpl in Hlen; try lia;
    unfold bind; rewrite for_each_eprint; reflexivity.
Qed.

Lemma X16_phase3_usage_witness :
  List.length (env_argv (env3 ["grep.py"; "error"])) < 3
  /\ fst (main3 (RE := Re.lib) (env3 ["grep.py"; "error"]) Run0) = 2.
Proof.
  assert (H : List.length (env_argv (env3 ["grep.py"; "error"])) < 3)
    by (simpl; lia).
  split; [exact H |].
  exact (f_equal fst (proj1 (@X16_phase3_usage Re.lib (env3 ["grep.py"; "error"])
                              Run0 H))).
Defined.

(** X17.  [main] of phase3.py fails before it scans: on a pattern that does
    not compile it reports the error and returns 2 without any access to
    the file system; on a path that does not exist it reports the path and
    returns 2 after the one existence test.  In both cases nothing is
    printed on standard output. *)
Theorem X17_phase3_fails_before_scanning {RE : ReLib} (env : Env) (r : Run)
        (prog pattern root : string) (rest : list string) :
  env_argv env = prog :: pattern :: root :: rest ->
  (forall ex,
      re_compile pattern (flag3 "-ignorecase" rest) = inl ex ->
      main3 env r
      = (2, mkRun (stats r) (stdout r)
                  (stderr r ++ [ErrPrint ("Invalid regex: " ++ ex)])
                  (logfile r) (trace r)))
  /\ (forall rx,
         re_compile pattern (flag3 "-ignorecase" rest) = inr rx ->
         env_fs env root = None ->
         main3 env r
         = (2, mkRun (stats r) (stdout r)
                     (stderr r ++ [ErrPrint ("Path not found: " ++ root)])
                     (logfile r) (trace r ++ [EvStat root]))).
Proof.
  intros Hargv. unfold main3, flag3. rewrite Hargv. split.
  - intros ex Hre. rewrite Hre. reflexivity.
  - intros rx Hre Hnone. rewrite Hre. unfold bind, event. simpl.
    rewrite Hnone. reflexivity.
Qed.

Lemma X17_phase3_fails_before_scanning_witness :
  env_argv (env3 ["grep.py"; "("; "d"]) = ["grep.py"; "("; "d"]
  /\ main3 (RE := Re.lib) (env3 ["grep.py"; "("; "d"]) Run0
     = (2, mkRun Stats0 []
                 [ErrPrint "Invalid regex: missing ), unterminated subpattern"]
                 [] []).
Proof.
  split; [reflexivity |].
  exact (proj1 (@X17_phase3_fails_before_scanning Re.lib (env3 ["grep.py"; "("; "d"])
                  Run0 "grep.py" "(" "d" [] eq_refl)
               "missing ), unterminated subpattern" eq_refl).
Defined.

(** X18.  The options of phase3.py are told apart by name alone: a run
    depends on the arguments after the path only through which of
    [-ignorecase], [-not] and [-count] occur among them once lowered, so
    their order, their case, their repetition and any other argument make
    no difference. *)
Theorem X18_phase3_options_by_name {RE : ReLib} (env : Env) (r : Run)
        (prog pattern root : string) (rest rest' : list string) :
  (forall name, In name ["-ignorecase"; "-not"; "-count"] ->
                (In name (map py_lower rest) <-> In name (map py_lower rest'))) ->
  main3 (with_argv env (prog :: pattern :: root :: rest)) r
  = main3 (with_argv env (prog :: pattern :: root :: rest')) r.
Proof.
  intros Hsame.
  assert (Hflag : forall name, In name ["-ignorecase"; "-not"; "-count"] ->
                               str_in name (map py_lower rest)
                               = str_in name (map py_lower rest')).
  { intros name Hn. specialize (Hsame name Hn). unfold str_in.
    destruct (existsb (String.eqb name) (map py_lower rest')) eqn:E.
    - apply existsb_exists in E. destruct E as (x & Hx & Heq).
      apply String.eqb_eq in Heq. subst x. apply Hsame in Hx.
      apply existsb_exists. exists name. split; [exact Hx | apply String.eqb_refl].
    - destruct (existsb (String.eqb name) (map py_lower rest)) eqn:E'; [| reflexivity].
      apply existsb_exists in E'. destruct E' as (x & Hx & Heq).
      apply String.eqb_eq in Heq. subst x. apply Hsame in Hx.
      assert (existsb (String.eqb name) (map py_lower rest') = true)
        by (apply existsb_exists; exists name; split;
            [exact Hx | apply String.eqb_refl]).
      congruence. }
  unfold main3, with_argv. cbn [env_argv env_fs].
  rewrite (Hflag "-ignorecase"), (Hflag "-not"), (Hflag "-count");
    simpl; auto.
Qed.

Lemma X18_phase3_options_by_name_witness :
  (forall name, In name ["-ignorecase"; "-not"; "-count"] ->
                (In name (map py_lower ["-COUNT"; "-verbose"; "-Not"; "-not"])
                 <-> In name (map py_lower ["-not"; "-count"])))
  /\ main3 (RE := Re.lib)
           (with_argv scenario_env
                      ["grep.py"; "error"; "d"; "-COUNT"; "-verbose"; "-Not"; "-not"])
           Run0
     = main3 (RE := Re.lib)
             (with_argv scenario_env ["grep.py"; "error"; "d"; "-not"; "-count"]) Run0.
Proof.
  assert (H : forall name, In name ["-ignorecase"; "-not"; "-count"] ->
                (In name (map py_lower ["-COUNT"; "-verbose"; "-Not"; "-not"])
                 <-> In name (map py_lower ["-not"; "-count"]))).
  { intros name [<- | [<- | [<- | []]]]; simpl; split; intros H;
      repeat destruct H as [H | H]; try discriminate; auto. }
  split; [exact H |].
  exact (@X18_phase3_options_by_name Re.lib scenario_env Run0 "grep.py" "error" "d"
           _ _ H).
Defined.

(** What a run of phase3.py that scans appends to a part of the state that
    only the body of its loop touches. *)
Lemma main3_appends {RE : ReLib} {B} (out : Run -> list B)
      (g : path * Node -> list B) (env : Env) (r : Run)
      (prog pattern root : string) (rest : list string) (rx : Pattern) (n : Node) :
  env_argv env = prog :: pattern :: root :: rest ->
  re_compile pattern (flag3 "-ignorecase" rest) = inr rx ->
  env_fs env root = Some n ->
  (forall e r0, out (snd (event e r0)) = out r0) ->
  (forall e r0, out (snd (visit3 rx (flag3 "-not" rest) (flag3 "-count" rest) e r0))
                = (out r0 ++ g e)%list) ->
  fst (main3 env r) = 0
  /\ out (snd (main3 env r)) = (out r ++ flat_map g (iter_files3 env root))%list.
Proof.
  intros Hargv Hre Hfs Hev Hbody.
  unfold main3. rewrite Hargv. fold (flag3 "-ignorecase" rest).
  fold (flag3 "-not" rest). fold (flag3 "-count" rest). rewrite Hre.
  set (body := visit3 rx (flag3 "-not" rest) (flag3 "-count" rest)) in *.
  pose proof (for_each_appends out g body (iter_files3 env root) Hbody) as Hloop.
  rewrite Hfs. unfold bind.
  destruct (event (EvStat root) r) as [u1 r1] eqn:E1.
  assert (H1 : out r1 = out r)
    by (change r1 with (snd (u1, r1)); rewrite <- E1; apply Hev).
  destruct (event (EvStat root) r1) as [u2 r2] eqn:E2.
  assert (H2 : out r2 = out r1)
    by (change r2 with (snd (u2, r2)); rewrite <- E2; apply Hev).
  destruct (match n with File _ => ret tt | _ => event (EvListDir root true) end r2)
    as [u3 r3] eqn:E3.
  assert (H3 : out r3 = out r2).
  { change r3 with (snd (u3, r3)). rewrite <- E3. destruct n;
      [reflexivity | apply Hev | apply Hev]. }
  specialize (Hloop r3).
  destruct (for_each (iter_files3 env root) body r3) as [u4 r4].
  unfold ret. cbn [fst snd] in *.
  split; [reflexivity |]. now rewrite Hloop, H3, H2, H1.
Qed.

(** X19.  When it scans, [main] of phase3.py returns 0, and its output is
    the output of [process_file] for each file the walk yields that passes
    the classifier, one file after the other; a file that does not pass is
    skipped without a word, on standard output and on standard error. *)
Theorem X19_phase3_output_file_by_file {RE : ReLib} (env : Env) (r : Run)
        (prog pattern root : string) (rest : list string) (rx : Pattern) (n : Node) :
  env_argv env = prog :: pattern :: root :: rest ->
  re_compile pattern (flag3 "-ignorecase" rest) = inr rx ->
  env_fs env root = Some n ->
  let invert := flag3 "-not" rest in
  let do_count := flag3 "-count" rest in
  fst (main3 env r) = 0
  /\ stdout (snd (main3 env r))
     = (stdout r ++ flat_map (output3 rx invert do_count)
                             (files_of (iter_files3 env root)))%list
  /\ stderr (snd (main3 env r))
     = (stderr r ++ flat_map (errors3 rx invert do_count)
                             (files_of (iter_files3 env root)))%list.
Proof.
  intros Hargv Hre Hfs invert do_count. subst invert do_count.
  destruct (main3_appends stdout
              (fun e => flat_map (output3 rx (flag3 "-not" rest) (flag3 "-count" rest))
                                 (files_of [e]))
              env r Hargv Hre Hfs (fun e r0 => eq_refl)
              (fun e r0 => visit3_stdout rx _ _ e r0)) as [Hexit Hout].
  destruct (main3_appends stderr
              (fun e => flat_map (errors3 rx (flag3 "-not" rest) (flag3 "-count" rest))
                                 (files_of [e]))
              env r Hargv Hre Hfs (fun e r0 => eq_refl)
              (fun e r0 => visit3_stderr rx _ _ e r0)) as [_ Herr].
  split; [exact Hexit |].
  rewrite Hout, Herr. now rewrite !files_of_flat_map_singletons.
Qed.

(** The scenario directory: the text file contributes its line, the binary
    file nothing. *)
Lemma X19_phase3_output_file_by_file_witness :
  env_argv (env3 ["grep.py"; "error"; "d"]) = ["grep.py"; "error"; "d"]
  /\ @re_compile Re.lib "error" (flag3 "-ignorecase" []) = inr rx_error
  /\ (exists n, env_fs (env3 ["grep.py"; "error"; "d"]) "d" = Some n)
  /\ stdout (snd (main3 (RE := Re.lib) (env3 ["grep.py"; "error"; "d"]) Run0))
     = [ResultLine "d/a.txt" 2 "error: boom" false]
  /\ stderr (snd (main3 (RE := Re.lib) (env3 ["grep.py"; "error"; "d"]) Run0)) = [].
Proof.
  split; [reflexivity |]. split; [reflexivity |]. split; [eexists; reflexivity |].
  destruct (@X19_phase3_output_file_by_file Re.lib (env3 ["grep.py"; "error"; "d"])
              Run0 "grep.py" "error" "d" [] rx_error _ eq_refl eq_refl eq_refl)
    as (_ & H1 & H2).
  split; [exact H1 | exact H2].
Defined.

(* ================================================================= *)
(** ** The two walks *)


















(* ================================================================= *)
(** ** The file counters of a run *)

(** X23.  At the end of a run that scans, the three file counters are: the
    number of files the walk yielded, the number of those that passed the
    classifier and could be opened, and the number of those the classifier
    rejected. *)
Theorem X23_file_counters {RE : ReLib} (env : Env) (args : Args) (rx : Pattern) :
  env_logs env = LogsReady ->
  re_compile (a_regex args) (a_ignore_case args) = inr rx ->
  missing_of env (inputs_of args) = [] ->
  let files := iter_files env (inputs_of args) (a_recursive args) in
  let st := stats (snd (main env args Run0)) in
  files_seen st = List.length files
  /\ files_read st
     = List.length (filter (fun t => classified_text (snd t)
                                     && match as_text (snd t) with
                                        | TextLines _ _ => true
                                        | TextOpenError _ => false
                                        end) files)
  /\ files_skipped_binary st
     = List.length (filter (fun t => negb (classified_text (snd t))) files).
Proof.
  intros Hlogs Hre Hm files st. subst files st.
  rewrite (main_unfold env args Hlogs). cbn [snd finished stats].
  rewrite (main_try_scan env args _ _ _ Hre Hm). cbn [snd].
  set (scan := fun fp f => grep_file fp rx (a_invert args) (a_count args)
                                     (color_of env args) (mkLogger (a_debug args)) f).
  assert (Hlen : forall (w : path * FileEnv -> bool) (l : list (path * FileEnv)),
             list_sum (map (fun t => if w t then 1 else 0) l)
             = List.length (filter w l)).
  { intros w l. induction l as [|t l IH]; simpl; [reflexivity |].
    destruct (w t); simpl; now rewrite IH. }
  assert (Hones : forall l : list (path * FileEnv),
             list_sum (map (fun _ => 1) l) = List.length l).
  { intros l. induction l as [|t l IH]; simpl; [reflexivity | now rewrite IH]. }
  split; [| split].
  - rewrite (scan_inputs_counts env scan (fun r0 => files_seen (stats r0))
                                (fun _ _ => 1)).
    + rewrite Hones. reflexivity.
    + reflexivity.
    + intros p f r. apply grep_file_files_seen.
  - rewrite (scan_inputs_counts env scan (fun r0 => files_read (stats r0))
               (fun _ f => if classified_text f
                                && match as_text f with
                                   | TextLines _ _ => true
                                   | TextOpenError _ => false
                                   end then 1 else 0)).
    + cbn [stats files_read Stats0]. now rewrite <- Hlen.
    + reflexivity.
    + intros p f r. subst scan. cbv beta. file_cases f; simpl; lia.
  - rewrite (scan_inputs_counts env scan (fun r0 => files_skipped_binary (stats r0))
               (fun _ f => if negb (classified_text f) then 1 else 0)).
    + cbn [stats files_skipped_binary Stats0]. now rewrite <- Hlen.
    + reflexivity.
    + intros p f r. subst scan. cbv beta. file_cases f; simpl; lia.
Qed.

Lemma X23_file_counters_witness :
  env_logs scenario_env = LogsReady
  /\ @re_compile Re.lib (a_regex scan_args) (a_ignore_case scan_args) = inr rx_error
  /\ missing_of scenario_env (inputs_of scan_args) = []
  /\ (let st := stats (snd (main (RE := Re.lib) scenario_env scan_args Run0)) in
      files_seen st = 2 /\ files_read st = 1 /\ files_skipped_binary st = 1).
Proof.
  split; [reflexivity |]. split; [reflexivity |]. split; [reflexivity |].
  exact (@X23_file_counters Re.lib scenario_env scan_args rx_error
           eq_refl eq_refl eq_refl).
Defined.

(* ================================================================= *)
(** ** Colors and the log file name *)

Lemma append_cancel_l (s a b : string) : s ++ a = s ++ b -> a = b.
Proof.
  induction s as [|c s IH]; simpl; intros H; [exact H |].
  injection H as H. now apply IH.
Qed.

Lemma append_cancel_r (a b t : string) : a ++ t = b ++ t -> a = b.
Proof.
  revert b; induction a as [|c a IH]; intros b H.
  - destruct b as [|d b]; [reflexivity |]. exfalso.
    apply (f_equal String.length) in H. simpl in H.
    rewrite length_append in H. lia.
  - destruct b as [|d b].
    + exfalso. apply (f_equal String.length) in H. simpl in H.
      rewrite length_append in H. lia.
    + simpl in H. injection H as -> H. f_equal. now apply IH.
Qed.


(** X25.  The name of the log file is made of the working directory and
    of the time, given to the second: two runs from the same directory
    write to the same log file exactly when they start within the same
    second. *)
Theorem X25_log_file_per_second (env1 env2 : Env) :
  env_cwd env1 = env_cwd env2 ->
  (log_path_of env1 = log_path_of env2 <-> env_now env1 = env_now env2).
Proof.
  intros Hcwd. unfold log_path_of, joinpath. rewrite Hcwd. split.
  - intros H. apply append_cancel_l in H.
    apply (append_cancel_l "log_") in H.
    now apply append_cancel_r in H.
  - now intros ->.
Qed.

Lemma X25_log_file_per_second_witness :
  env_cwd scenario_env = env_cwd read_only_env
  /\ (log_path_of scenario_env = log_path_of read_only_env
      <-> env_now scenario_env = env_now read_only_env).
Proof.
  split; [reflexivity |].
  exact (@X25_log_file_per_second scenario_env read_only_env eq_refl).
Defined.
